(** * Auto Dimmer: brightness sampling, dim policy, transition engine, control loop

    A shallow embedding of the TypeScript sources

      - [src/utils/overlay.ts]     ([clamp])
      - [src/utils/brightness.ts]  ([getColorBrightness], [samplePageBrightness],
                                    [calculateDimAmount])
      - [src/utils/patterns.ts]    ([matchesPattern], [matchesAnyPattern])
      - [src/utils/settings.ts]    ([getEffectiveSettings], [isBlacklisted],
                                    [isWhitelisted], the site overrides and
                                    the edits of the two lists)
      - [src/utils/animation.ts]   ([AnimationState] and its four operations)
      - [src/utils/storage.ts]     ([loadSiteState], [saveSiteState],
                                    [createSiteState])
      - [src/content.ts]           ([setDimLevel], [checkAndDim], [start], the
                                    [settingsUpdated] and [manualDim]
                                    messages)

    Conventions of the embedding.

    - A JavaScript [number] is an exact rational ([Q]).  Equality of computed
      numbers is [Qeq] ([==]); Leibniz equality is used where the source
      returns or stores a value without computing on it.  Rounding, NaN and
      the infinities of IEEE doubles are outside this model; the one division
      that is not guarded in the source ([elapsed / duration]) is only used
      under a [duration] that is not 0: a positive one where the engine is
      taken alone, and one of the content script, which never passes 0.
    - An equality [==] between a computed number and a formula gives the
      value up to the rounding of that formula.  Where the question is
      whether two levels of the engine's state are identical, which rounding
      decides, the transition engine is embedded a second time over binary64
      floats ([Animation64], and the luminance formula in [Brightness64]) and
      run on concrete inputs; the theorems over [Q] then state that the two
      levels are close, not that they are identical.
    - A JavaScript string is a [string] whose characters are code units below
      256.
    - A [Record<string, T>] is a [gmap string T].
    - Mutable module-level state is passed explicitly; calls of callbacks and
      of host functions that have an effect are recorded in a log.
    - An [await] resolves before anything else happens to the state. *)

From Stdlib Require Import QArith Qminmax Qabs Qpower Lqa Lia ZArith.
From Stdlib Require Import List String Ascii Bool.
From Stdlib Require Import Decimal DecimalString DecimalNat DecimalFacts.
From Stdlib Require Import Floats.PrimFloat.
From stdpp Require Import gmap strings.
Import ListNotations.

Open Scope string_scope.
Open Scope Q_scope.

(** ** Numbers *)

(** [x < y] and [x > y] on numbers, as booleans. *)
Definition Qltb (x y : Q) : bool := negb (Qle_bool y x).
Definition Qgtb (x y : Q) : bool := Qltb y x.
(** [x >= y]. *)
Definition Qgeb (x y : Q) : bool := Qle_bool y x.

(** ** src/utils/overlay.ts *)

Module Overlay.

(** [Math.max(min, Math.min(max, value))]. *)
Definition clamp (value min max : Q) : Q := Qmax min (Qmin max value).

End Overlay.

(** ** src/utils/brightness.ts, dim policy *)

Module Policy.

Definition calculateDimAmount
    (brightness threshold maxIntensity : Q) (dynamicMode : bool) : Q :=
  if Qle_bool brightness threshold then 0
  else if negb dynamicMode then maxIntensity
  else
    let brightnessOverThreshold := brightness - threshold in
    let maxOverThreshold := 1 - threshold in
    let scaleFactor :=
      if Qgtb maxOverThreshold 0
      then brightnessOverThreshold / maxOverThreshold
      else 1 in
    maxIntensity * scaleFactor.

(** The reference definition of [computeDimAmount], written from the
    specification's three cases and its guard on the divisor. *)
Definition computeDimAmount_reference
    (brightness threshold maxIntensity : Q) (dynamicMode : bool) : Q :=
  if Qlt_le_dec threshold brightness then
    if dynamicMode then
      if Qlt_le_dec 0 (1 - threshold)
      then maxIntensity * (brightness - threshold) / (1 - threshold)
      else maxIntensity
    else maxIntensity
  else 0.

End Policy.

(** ** Regular expressions, as far as [getColorBrightness] uses them *)

Module Regex.

(** The constructs that occur in the source's pattern: a literal character,
    a greedy [*] and [+] over a character class, a greedy [?], sequencing and
    a capturing group.  A non-capturing group is plain nesting. *)
Inductive regex : Type :=
| Chr (c : ascii)
| Star (p : ascii -> bool)
| Plus (p : ascii -> bool)
| Opt (r : regex)
| Cat (r1 r2 : regex)
| Group (r : regex).

(** [\d], [\s] (on code units below 256) and [[\d.]]. *)
Definition isDigit (c : ascii) : bool :=
  ((48 <=? N_of_ascii c) && (N_of_ascii c <=? 57))%N.
Definition isSpace (c : ascii) : bool :=
  existsb (N.eqb (N_of_ascii c)) [9; 10; 11; 12; 13; 32; 160]%N.
Definition isDigitOrDot (c : ascii) : bool :=
  isDigit c || Ascii.eqb c ".".

Section Matcher.
Context {R : Type}.

(** Greedy repetition with backtracking: the longest run is tried first,
    and a shorter one when the rest of the pattern fails after it. *)
Fixpoint star (p : ascii -> bool) (s : string) (k : string -> option R)
    : option R :=
  match s with
  | String c s' =>
      if p c
      then match star p s' k with
           | Some x => Some x
           | None => k s
           end
      else k s
  | EmptyString => k s
  end.

(** Backtracking matcher in continuation-passing style: [k] is the rest of
    the pattern, applied to the remaining input and the captures so far. *)
Fixpoint rmatch (r : regex) (s : string) (caps : list string)
    (k : string -> list string -> option R) : option R :=
  match r with
  | Chr c =>
      match s with
      | String c' s' => if Ascii.eqb c c' then k s' caps else None
      | EmptyString => None
      end
  | Star p => star p s (fun s' => k s' caps)
  | Plus p =>
      match s with
      | String c s' => if p c then star p s' (fun s'' => k s'' caps) else None
      | EmptyString => None
      end
  | Opt r' =>
      match rmatch r' s caps k with
      | Some x => Some x
      | None => k s caps
      end
  | Cat r1 r2 => rmatch r1 s caps (fun s' caps' => rmatch r2 s' caps' k)
  | Group r' =>
      rmatch r' s caps
        (fun s' caps' =>
           k s' (caps' ++ [substring 0 (String.length s - String.length s') s])%list)
  end.
End Matcher.

(** A match anchored at the start of [s]: the array [[m0; m1; ...]] of the
    matched text and the captures. *)
Definition matchHere (r : regex) (s : string) : option (list string) :=
  rmatch r s []
    (fun s' caps =>
       Some (substring 0 (String.length s - String.length s') s :: caps)).

(** [s.match(r)] for a pattern without the global flag: the match at the
    leftmost position that has one, [None] for [null]. *)
Fixpoint str_match (r : regex) (s : string) : option (list string) :=
  match matchHere r s with
  | Some m => Some m
  | None =>
      match s with
      | String _ s' => str_match r s'
      | EmptyString => None
      end
  end.

(** [parseInt(s, 10)] on a string that starts with a digit: the value of the
    leading run of digits. *)
Fixpoint parseDigits (acc : Z) (s : string) : Z :=
  match s with
  | String c s' =>
      if isDigit c
      then parseDigits (10 * acc + (Z.of_N (N_of_ascii c) - 48)) s'
      else acc
  | EmptyString => acc
  end.
Definition parseInt10 (s : string) : Z := parseDigits 0 s.

(** Every character of [s] is in the class [p]. *)
Fixpoint allChars (p : ascii -> bool) (s : string) : bool :=
  match s with
  | String c s' => p c && allChars p s'
  | EmptyString => true
  end.

(** A run of the class [p] cannot be extended into [s]. *)
Definition stops (p : ascii -> bool) (s : string) : Prop :=
  match s with
  | String c _ => p c = false
  | EmptyString => True
  end.

End Regex.

(** ** src/utils/brightness.ts, sampling *)

Module Brightness.
Import Regex.

Declare Scope regex_scope.
Delimit Scope regex_scope with re.
Notation "r1 ⋅ r2" := (Cat r1 r2) (at level 60, right associativity) : regex_scope.

(** [/rgba?\((\d+),\s*(\d+),\s*(\d+)(?:,\s*[\d.]+)?\)/] *)
Definition rgbPattern : regex :=
  (Chr "r" ⋅ Chr "g" ⋅ Chr "b" ⋅ Opt (Chr "a") ⋅ Chr "(" ⋅
   Group (Plus isDigit) ⋅ Chr "," ⋅ Star isSpace ⋅
   Group (Plus isDigit) ⋅ Chr "," ⋅ Star isSpace ⋅
   Group (Plus isDigit) ⋅
   Opt (Chr "," ⋅ Star isSpace ⋅ Plus isDigitOrDot) ⋅
   Chr ")")%re.

(** The luminance of three channels given as the captured digit strings. *)
Definition luminance (c1 c2 c3 : string) : Q :=
  let r := inject_Z (parseInt10 c1) / 255 in
  let g := inject_Z (parseInt10 c2) / 255 in
  let b := inject_Z (parseInt10 c3) / 255 in
  0.299 * r + 0.587 * g + 0.114 * b.

Definition getColorBrightness (colorStr : string) : option Q :=
  if String.eqb colorStr "" || String.eqb colorStr "transparent"
     || String.eqb colorStr "rgba(0, 0, 0, 0)"
  then None
  else
    match str_match rgbPattern colorStr with
    | Some rgbMatch =>
        Some (luminance (nth 1 rgbMatch "") (nth 2 rgbMatch "") (nth 3 rgbMatch ""))
    | None => None
    end.

(** The strings of the color-parsing contract: a non-empty run of digits, a
    run of white space, a non-empty run of digits and dots, and the two
    functional notations built from them, with the white space after the
    commas. *)
Definition digitString (d : string) : Prop :=
  d <> "" /\ allChars isDigit d = true.
Definition spaceString (w : string) : Prop :=
  allChars isSpace w = true.
Definition alphaString (a : string) : Prop :=
  a <> "" /\ allChars isDigitOrDot a = true.

(** The decimal numeral of a natural number, as [String(n)] writes it. *)
Definition decimal (n : nat) : string :=
  NilEmpty.string_of_uint (Nat.to_uint n).

Definition rgbString (d1 w1 d2 w2 d3 : string) : string :=
  "rgb(" ++ d1 ++ "," ++ w1 ++ d2 ++ "," ++ w2 ++ d3 ++ ")".
Definition rgbaString (d1 w1 d2 w2 d3 w3 a : string) : string :=
  "rgba(" ++ d1 ++ "," ++ w1 ++ d2 ++ "," ++ w2 ++ d3 ++ "," ++ w3 ++ a ++ ")".

(** The channels that [getColorBrightness] reads from a color string, if it
    reads any, are at most 255. *)
Definition channelsInRange (colorStr : string) : Prop :=
  match str_match rgbPattern colorStr with
  | Some rgbMatch =>
      (parseInt10 (nth 1 rgbMatch "") <= 255
       /\ parseInt10 (nth 2 rgbMatch "") <= 255
       /\ parseInt10 (nth 3 rgbMatch "") <= 255)%Z
  | None => True
  end.

(** The part of the document that sampling reads: an element with its [id]
    and the [backgroundColor] of its computed style, and the window. *)
Record Element : Type := {
  el_id : string;
  el_backgroundColor : string
}.

Record Page : Type := {
  innerWidth : Q;
  innerHeight : Q;
  elementsFromPoint : Q -> Q -> list Element;
  body : option Element;
  documentElement : Element
}.

Definition sampleSize : nat := 10.

(** What the body of the two nested loops reads at the grid point [(x, y)]:
    the brightness of the topmost element that is not the overlay. *)
Definition readPoint (page : Page) (overlayId : string) (x y : nat) : option Q :=
  let sampleX :=
    ((inject_Z (Z.of_nat x) + 0.5) / inject_Z (Z.of_nat sampleSize))
    * innerWidth page in
  let sampleY :=
    ((inject_Z (Z.of_nat y) + 0.5) / inject_Z (Z.of_nat sampleSize))
    * innerHeight page in
  let elementsAtPoint := elementsFromPoint page sampleX sampleY in
  match find (fun el => negb (String.eqb (el_id el) overlayId)) elementsAtPoint with
  | Some element => getColorBrightness (el_backgroundColor element)
  | None => None
  end.

(** The body of the two nested loops, on the pair
    [(totalBrightness, sampleCount)]. *)
Definition samplePoint (page : Page) (overlayId : string) (x y : nat)
    (acc : Q * Q) : Q * Q :=
  let '(totalBrightness, sampleCount) := acc in
  match readPoint page overlayId x y with
  | Some bgBrightness => (totalBrightness + bgBrightness, sampleCount + 1)
  | None => acc
  end.

Definition sampleGrid (page : Page) (overlayId : string) : Q * Q :=
  fold_left
    (fun acc x =>
       fold_left (fun acc' y => samplePoint page overlayId x y acc')
         (seq 0 sampleSize) acc)
    (seq 0 sampleSize) (0, 0).

(** One of the two anchor samples (body, html), weighted by half of
    [baseWeight]. *)
Definition sampleAnchor (color : string) (baseWeight : Q) (acc : Q * Q) : Q * Q :=
  let '(totalBrightness, sampleCount) := acc in
  match getColorBrightness color with
  | Some bg => (totalBrightness + bg * baseWeight * 0.5,
                sampleCount + baseWeight * 0.5)
  | None => acc
  end.

Definition samplePageBrightness (page : Page) (overlayId : string) : Q :=
  let grid := sampleGrid page overlayId in
  let baseWeight := Qmax (snd grid) 1 in
  let afterBody :=
    match body page with
    | Some b => sampleAnchor (el_backgroundColor b) baseWeight grid
    | None => grid
    end in
  let '(totalBrightness, sampleCount) :=
    sampleAnchor (el_backgroundColor (documentElement page)) baseWeight afterBody in
  if Qgtb sampleCount 0 then totalBrightness / sampleCount else 0.5.

(** Every color string the page can supply has its channels within 0..255,
    as the computed styles of a browser have. *)
Definition pageColorsInRange (page : Page) : Prop :=
  (forall x y el, In el (elementsFromPoint page x y) ->
     channelsInRange (el_backgroundColor el))
  /\ (forall b, body page = Some b -> channelsInRange (el_backgroundColor b))
  /\ channelsInRange (el_backgroundColor (documentElement page)).

(** No sample is accepted: no grid point, nor the body, nor the root element
    gives a brightness. *)
Definition noSignal (page : Page) (overlayId : string) : Prop :=
  (forall x y, (x < sampleSize)%nat -> (y < sampleSize)%nat ->
     readPoint page overlayId x y = None)
  /\ (forall b, body page = Some b ->
        getColorBrightness (el_backgroundColor b) = None)
  /\ getColorBrightness (el_backgroundColor (documentElement page)) = None.

(** A page without body and without elements under the grid whose root
    element has the given background. *)
Definition rootOnlyPage (color : string) : Page := {|
  innerWidth := 1280;
  innerHeight := 720;
  elementsFromPoint := fun _ _ => [];
  body := None;
  documentElement := {| el_id := "root"; el_backgroundColor := color |}
|}.

(** The test of [elementsAtPoint.find]: the element is not the overlay. *)
Definition notOverlay (overlayId : string) (el : Element) : bool :=
  negb (String.eqb (el_id el) overlayId).

(** The page with one more element on top at every point. *)
Definition coveredPage (top : Element) (page : Page) : Page := {|
  innerWidth := innerWidth page;
  innerHeight := innerHeight page;
  elementsFromPoint := fun x y => top :: elementsFromPoint page x y;
  body := body page;
  documentElement := documentElement page
|}.

(** A page that shows one element everywhere, over a body and a root
    element. *)
Definition flatPage (front bodyColor rootColor : string) : Page := {|
  innerWidth := 1280;
  innerHeight := 720;
  elementsFromPoint :=
    fun _ _ => [{| el_id := "main"; el_backgroundColor := front |}];
  body := Some {| el_id := "body"; el_backgroundColor := bodyColor |};
  documentElement := {| el_id := "root"; el_backgroundColor := rootColor |}
|}.

End Brightness.

(** ** src/utils/patterns.ts *)

Module Patterns.

(** [s.includes(search)]: [search] occurs in [s] at some position. *)
Fixpoint includes (s search : string) : bool :=
  String.prefix search s
  || match s with
     | String _ s' => includes s' search
     | EmptyString => false
     end.

Definition matchesPattern (hostname pattern : string) : bool :=
  if String.eqb hostname "" || String.eqb pattern "" then false
  else includes hostname pattern || includes pattern hostname.

(** [patterns.some(...)]. *)
Definition matchesAnyPattern (hostname : string) (patterns : list string) : bool :=
  existsb (fun pattern => matchesPattern hostname pattern) patterns.

(** [sub] occurs in [s]: the substring relation the boolean search decides. *)
Definition contains (s sub : string) : Prop :=
  exists before after, s = before ++ sub ++ after.

End Patterns.

(** ** src/types.ts and src/utils/settings.ts *)

Module Settings.
Import Patterns.

(** A per-site override; [None] is an absent field. *)
Record SiteSettings : Type := {
  site_enabled : option bool;
  site_dimIntensity : option Q
}.

Record Settings : Type := {
  enabled : bool;
  dimIntensity : Q;
  brightnessThreshold : Q;
  dynamicMode : bool;
  smoothing : bool;
  smoothingDuration : Q;
  siteSettings : gmap string SiteSettings;
  blacklist : list string;
  whitelist : list string
}.

Definition DEFAULT_SETTINGS : Settings := {|
  enabled := true;
  dimIntensity := 0.3;
  brightnessThreshold := 0.6;
  dynamicMode := true;
  smoothing := true;
  smoothingDuration := 500;
  siteSettings := ∅;
  blacklist := [];
  whitelist := []
|}.

(** [{ ...settings, ...siteOverride }] when the site has an override. *)
Definition getEffectiveSettings (settings : Settings) (hostname : string) : Settings :=
  match siteSettings settings !! hostname with
  | Some siteOverride =>
      {| enabled := default (enabled settings) (site_enabled siteOverride);
         dimIntensity := default (dimIntensity settings) (site_dimIntensity siteOverride);
         brightnessThreshold := brightnessThreshold settings;
         dynamicMode := dynamicMode settings;
         smoothing := smoothing settings;
         smoothingDuration := smoothingDuration settings;
         siteSettings := siteSettings settings;
         blacklist := blacklist settings;
         whitelist := whitelist settings |}
  | None => settings
  end.

Definition isBlacklisted (settings : Settings) (hostname : string) : bool :=
  matchesAnyPattern hostname (blacklist settings).

Definition isWhitelisted (settings : Settings) (hostname : string) : bool :=
  matchesAnyPattern hostname (whitelist settings).

(** [{ ...previous, ...override }] on per-site overrides: the fields of
    [override] win, the others are kept; an absent [previous] spreads as the
    empty object. *)
Definition spreadSite (previous : option SiteSettings) (override : SiteSettings)
    : SiteSettings :=
  {| site_enabled :=
       match site_enabled override with
       | Some b => Some b
       | None => previous ≫= site_enabled
       end;
     site_dimIntensity :=
       match site_dimIntensity override with
       | Some d => Some d
       | None => previous ≫= site_dimIntensity
       end |}.

Definition with_siteSettings (m : gmap string SiteSettings) (settings : Settings)
    : Settings :=
  {| enabled := enabled settings;
     dimIntensity := dimIntensity settings;
     brightnessThreshold := brightnessThreshold settings;
     dynamicMode := dynamicMode settings;
     smoothing := smoothing settings;
     smoothingDuration := smoothingDuration settings;
     siteSettings := m;
     blacklist := blacklist settings;
     whitelist := whitelist settings |}.

Definition with_blacklist (l : list string) (settings : Settings) : Settings :=
  {| enabled := enabled settings;
     dimIntensity := dimIntensity settings;
     brightnessThreshold := brightnessThreshold settings;
     dynamicMode := dynamicMode settings;
     smoothing := smoothing settings;
     smoothingDuration := smoothingDuration settings;
     siteSettings := siteSettings settings;
     blacklist := l;
     whitelist := whitelist settings |}.

Definition with_whitelist (l : list string) (settings : Settings) : Settings :=
  {| enabled := enabled settings;
     dimIntensity := dimIntensity settings;
     brightnessThreshold := brightnessThreshold settings;
     dynamicMode := dynamicMode settings;
     smoothing := smoothing settings;
     smoothingDuration := smoothingDuration settings;
     siteSettings := siteSettings settings;
     blacklist := blacklist settings;
     whitelist := l |}.

Definition mergeSiteSettings (settings : Settings) (hostname : string)
    (override : SiteSettings) : Settings :=
  with_siteSettings
    (<[hostname := spreadSite (siteSettings settings !! hostname) override]>
       (siteSettings settings))
    settings.

Definition clearSiteSettings (settings : Settings) (hostname : string) : Settings :=
  with_siteSettings (delete hostname (siteSettings settings)) settings.

(** [list.includes(hostname)] on an array of strings. *)
Definition listIncludes (l : list string) (hostname : string) : bool :=
  existsb (String.eqb hostname) l.

(** [list.filter((_, i) => i !== index)]; an [index] that is no position of
    the array (too large, negative or fractional) removes nothing, so the
    positions are the only indices that matter. *)
Definition removeIndex (index : nat) (l : list string) : list string :=
  map snd
    (List.filter (fun p => negb (Nat.eqb (fst p) index))
       (combine (seq 0 (length l)) l)).

Definition addToBlacklist (settings : Settings) (hostname : string) : Settings :=
  if listIncludes (blacklist settings) hostname then settings
  else with_blacklist (blacklist settings ++ [hostname])%list settings.

Definition removeFromBlacklist (settings : Settings) (index : nat) : Settings :=
  with_blacklist (removeIndex index (blacklist settings)) settings.

Definition addToWhitelist (settings : Settings) (hostname : string) : Settings :=
  if listIncludes (whitelist settings) hostname then settings
  else with_whitelist (whitelist settings ++ [hostname])%list settings.

Definition removeFromWhitelist (settings : Settings) (index : nat) : Settings :=
  with_whitelist (removeIndex index (whitelist settings)) settings.

(** The default settings with the given lists. *)
Definition listedSettingsOf (black white : list string) : Settings :=
  with_whitelist white (with_blacklist black DEFAULT_SETTINGS).

End Settings.

(** ** src/utils/animation.ts *)

Module Animation.
Import Overlay.

Record AnimationState : Type := {
  frameId : option nat;
  currentLevel : Q;
  targetLevel : Q
}.

(** What the closure [animate] captures besides the state object and
    [onUpdate]. *)
Record Closure : Type := {
  startLevel : Q;
  startTime : Q;
  duration : Q
}.

(** The window's list of animation frame callbacks, in request order, and the
    counter that hands out the handles. *)
Record Window : Type := {
  rafCallbacks : list (nat * Closure);
  rafCounter : nat
}.

Definition requestAnimationFrame (cb : Closure) (w : Window) : nat * Window :=
  let handle := S (rafCounter w) in
  (handle, {| rafCallbacks := (rafCallbacks w ++ [(handle, cb)])%list;
              rafCounter := handle |}).

Definition cancelAnimationFrame (handle : nat) (w : Window) : Window :=
  {| rafCallbacks :=
       List.filter (fun p => negb (Nat.eqb (fst p) handle)) (rafCallbacks w);
     rafCounter := rafCounter w |}.

(** The state object together with the window it schedules frames on and the
    log of the levels [onUpdate] was called with, oldest first. *)
Record Engine : Type := {
  state : AnimationState;
  window : Window;
  updates : list Q
}.

Definition createAnimationState : AnimationState :=
  {| frameId := None; currentLevel := 0; targetLevel := 0 |}.

Definition createEngine : Engine :=
  {| state := createAnimationState;
     window := {| rafCallbacks := []; rafCounter := 0 |};
     updates := [] |}.

Definition cancelAnimation (e : Engine) : Engine :=
  match frameId (state e) with
  | Some handle =>
      {| state := {| frameId := None;
                     currentLevel := currentLevel (state e);
                     targetLevel := targetLevel (state e) |};
         window := cancelAnimationFrame handle (window e);
         updates := updates e |}
  | None => e
  end.

(** One run of the closure [animate] at the frame time [currentTime]. *)
Definition animate (cb : Closure) (currentTime : Q) (e : Engine) : Engine :=
  let elapsed := currentTime - startTime cb in
  let progress := Qmin (elapsed / duration cb) 1 in
  let level :=
    clamp (startLevel cb + (targetLevel (state e) - startLevel cb) * progress) 0 1 in
  let logged := (updates e ++ [level])%list in
  if Qltb progress 1 then
    let '(handle, w) := requestAnimationFrame cb (window e) in
    {| state := {| frameId := Some handle;
                   currentLevel := level;
                   targetLevel := targetLevel (state e) |};
       window := w;
       updates := logged |}
  else
    {| state := {| frameId := None;
                   currentLevel := level;
                   targetLevel := targetLevel (state e) |};
       window := window e;
       updates := logged |}.

(** [now] is the value of [performance.now()] at the call. *)
Definition animateDimLevel (e : Engine) (target duration now : Q) : Engine :=
  let newTarget := clamp target 0 1 in
  if Qltb (Qabs (newTarget - targetLevel (state e))) 0.05 then e
  else
    let e1 := {| state := {| frameId := frameId (state e);
                             currentLevel := currentLevel (state e);
                             targetLevel := newTarget |};
                 window := window e;
                 updates := updates e |} in
    let e2 := cancelAnimation e1 in
    let cb := {| startLevel := clamp (currentLevel (state e2)) 0 1;
                 startTime := now;
                 duration := duration |} in
    let '(handle, w) := requestAnimationFrame cb (window e2) in
    {| state := {| frameId := Some handle;
                   currentLevel := currentLevel (state e2);
                   targetLevel := targetLevel (state e2) |};
       window := w;
       updates := updates e2 |}.

Definition setDimLevelImmediate (e : Engine) (level : Q) : Engine :=
  let e1 := cancelAnimation e in
  let current := clamp level 0 1 in
  {| state := {| frameId := frameId (state e1);
                 currentLevel := current;
                 targetLevel := current |};
     window := window e1;
     updates := (updates e1 ++ [current])%list |}.

(** The window delivers a frame: the callbacks requested so far are taken off
    the list and run in request order with the same time stamp; the frames
    they request wait for the next delivery. *)
Definition deliverFrame (currentTime : Q) (e : Engine) : Engine :=
  fold_left (fun e' p => animate (snd p) currentTime e')
    (rafCallbacks (window e))
    {| state := state e;
       window := {| rafCallbacks := []; rafCounter := rafCounter (window e) |};
       updates := updates e |}.

(** Frames delivered one after the other at the given times. *)
Definition deliverFrames (times : list Q) (e : Engine) : Engine :=
  fold_left (fun e' t => deliverFrame t e') times e.

(** The operations on an engine, as data, and sequences of them. *)
Inductive Op : Type :=
| OpAnimate (target duration now : Q)
| OpImmediate (level : Q)
| OpCancel
| OpFrame (currentTime : Q).

Definition apply_op (e : Engine) (op : Op) : Engine :=
  match op with
  | OpAnimate target duration now => animateDimLevel e target duration now
  | OpImmediate level => setDimLevelImmediate e level
  | OpCancel => cancelAnimation e
  | OpFrame currentTime => deliverFrame currentTime e
  end.

Definition run (ops : list Op) (e : Engine) : Engine :=
  fold_left apply_op ops e.



(** No animation is in flight: the handle is null and no frame is requested. *)
Definition Idle (e : Engine) : Prop :=
  frameId (state e) = None /\ rafCallbacks (window e) = [].

(** The transition [cb] is in flight: the handle is that of the one
    requested frame, and the frame will run [cb]. *)
Definition Flying (cb : Closure) (e : Engine) : Prop :=
  exists handle,
    frameId (state e) = Some handle /\ rafCallbacks (window e) = [(handle, cb)].

Definition Animating (e : Engine) : Prop := exists cb, Flying cb e.

(** Idle with the current level at the target. *)
Definition Settled (e : Engine) : Prop :=
  Idle e /\ currentLevel (state e) == targetLevel (state e).

Definition unit_interval (v : Q) : Prop := 0 <= v <= 1.

(** Both levels and every value passed to [onUpdate] lie in [0,1]. *)
Definition levelsInRange (e : Engine) : Prop :=
  unit_interval (currentLevel (state e))
  /\ unit_interval (targetLevel (state e))
  /\ Forall unit_interval (updates e).


End Animation.

(** ** src/utils/animation.ts in binary64

    The same engine with a [number] as the IEEE 754 double that JavaScript
    computes with.  It runs on concrete inputs and settles what exact
    arithmetic cannot: whether two computed levels are identical. *)

Module Animation64.
Local Open Scope float_scope.
#[local] Set Warnings "-inexact-float".

(** [Math.min] and [Math.max]: NaN when an argument is NaN, and [-0] below
    [+0]. *)
Definition Math_min (x y : float) : float :=
  if is_nan x || is_nan y then nan
  else if x <? y then x
  else if y <? x then y
  else if get_sign x then x else y.

Definition Math_max (x y : float) : float :=
  if is_nan x || is_nan y then nan
  else if x <? y then y
  else if y <? x then x
  else if get_sign x then y else x.

Definition clamp (value min max : float) : float :=
  Math_max min (Math_min max value).

Record AnimationState : Type := {
  frameId : option nat;
  currentLevel : float;
  targetLevel : float
}.

Record Closure : Type := {
  startLevel : float;
  startTime : float;
  duration : float
}.

Record Window : Type := {
  rafCallbacks : list (nat * Closure);
  rafCounter : nat
}.

Definition requestAnimationFrame (cb : Closure) (w : Window) : nat * Window :=
  let handle := S (rafCounter w) in
  (handle, {| rafCallbacks := (rafCallbacks w ++ [(handle, cb)])%list;
              rafCounter := handle |}).

Definition cancelAnimationFrame (handle : nat) (w : Window) : Window :=
  {| rafCallbacks :=
       List.filter (fun p => negb (Nat.eqb (fst p) handle)) (rafCallbacks w);
     rafCounter := rafCounter w |}.

Record Engine : Type := {
  state : AnimationState;
  window : Window;
  updates : list float
}.

Definition createAnimationState : AnimationState :=
  {| frameId := None; currentLevel := 0; targetLevel := 0 |}.

Definition createEngine : Engine :=
  {| state := createAnimationState;
     window := {| rafCallbacks := []; rafCounter := 0 |};
     updates := [] |}.

Definition cancelAnimation (e : Engine) : Engine :=
  match frameId (state e) with
  | Some handle =>
      {| state := {| frameId := None;
                     currentLevel := currentLevel (state e);
                     targetLevel := targetLevel (state e) |};
         window := cancelAnimationFrame handle (window e);
         updates := updates e |}
  | None => e
  end.

Definition animate (cb : Closure) (currentTime : float) (e : Engine) : Engine :=
  let elapsed := currentTime - startTime cb in
  let progress := Math_min (elapsed / duration cb) 1 in
  let level :=
    clamp (startLevel cb + (targetLevel (state e) - startLevel cb) * progress) 0 1 in
  let logged := (updates e ++ [level])%list in
  if progress <? 1 then
    let '(handle, w) := requestAnimationFrame cb (window e) in
    {| state := {| frameId := Some handle;
                   currentLevel := level;
                   targetLevel := targetLevel (state e) |};
       window := w;
       updates := logged |}
  else
    {| state := {| frameId := None;
                   currentLevel := level;
                   targetLevel := targetLevel (state e) |};
       window := window e;
       updates := logged |}.

Definition animateDimLevel (e : Engine) (target duration now : float) : Engine :=
  let newTarget := clamp target 0 1 in
  if abs (newTarget - targetLevel (state e)) <? 0.05 then e
  else
    let e1 := {| state := {| frameId := frameId (state e);
                             currentLevel := currentLevel (state e);
                             targetLevel := newTarget |};
                 window := window e;
                 updates := updates e |} in
    let e2 := cancelAnimation e1 in
    let cb := {| startLevel := clamp (currentLevel (state e2)) 0 1;
                 startTime := now;
                 duration := duration |} in
    let '(handle, w) := requestAnimationFrame cb (window e2) in
    {| state := {| frameId := Some handle;
                   currentLevel := currentLevel (state e2);
                   targetLevel := targetLevel (state e2) |};
       window := w;
       updates := updates e2 |}.

Definition setDimLevelImmediate (e : Engine) (level : float) : Engine :=
  let e1 := cancelAnimation e in
  let current := clamp level 0 1 in
  {| state := {| frameId := frameId (state e1);
                 currentLevel := current;
                 targetLevel := current |};
     window := window e1;
     updates := (updates e1 ++ [current])%list |}.

Definition deliverFrame (currentTime : float) (e : Engine) : Engine :=
  fold_left (fun e' p => animate (snd p) currentTime e')
    (rafCallbacks (window e))
    {| state := state e;
       window := {| rafCallbacks := []; rafCounter := rafCounter (window e) |};
       updates := updates e |}.

Inductive Op : Type :=
| OpAnimate (target duration now : float)
| OpImmediate (level : float)
| OpCancel
| OpFrame (currentTime : float).

Definition apply_op (e : Engine) (op : Op) : Engine :=
  match op with
  | OpAnimate target duration now => animateDimLevel e target duration now
  | OpImmediate level => setDimLevelImmediate e level
  | OpCancel => cancelAnimation e
  | OpFrame currentTime => deliverFrame currentTime e
  end.

Definition run (ops : list Op) (e : Engine) : Engine :=
  fold_left apply_op ops e.

(** No animation is in flight: the handle is null and no frame is requested. *)
Definition Idle (e : Engine) : Prop :=
  frameId (state e) = None /\ rafCallbacks (window e) = [].

(** A transition from 0 to 0.3 over 500 ms, requested at time 0 and ended by
    the frame at 500 ms. *)
Definition firstTransition : list Op :=
  [OpAnimate 0.3 500 0; OpFrame 250; OpFrame 500].

(** The same, followed by a transition on to 0.9, requested at 1000 ms and
    ended by the frame at 1500 ms. *)
Definition twoTransitions : list Op :=
  (firstTransition ++ [OpAnimate 0.9 500 1000; OpFrame 1250; OpFrame 1500])%list.

(** A transition to 0.5 of duration 0, and the frame at the time of the
    request. *)
Definition zeroDuration : list Op :=
  [OpAnimate 0.5 0 0; OpFrame 0].

(** The level 1 set at once, and a request for 1.5. *)
Definition beyondRange : list Op :=
  [OpImmediate 1; OpAnimate 1.5 500 0].

End Animation64.

(** ** The luminance formula in binary64 *)

Module Brightness64.
Local Open Scope float_scope.
#[local] Set Warnings "-inexact-float".

(** The arithmetic of [getColorBrightness] on the three channels that
    [parseInt] returns. *)
Definition luminance (red green blue : float) : float :=
  let r := red / 255 in
  let g := green / 255 in
  let b := blue / 255 in
  0.299 * r + 0.587 * g + 0.114 * b.

End Brightness64.

(** ** src/content.ts *)

Module Content.
Import Overlay Policy Brightness Patterns Settings Animation.

Definition OVERLAY_ID : string := "auto-dimmer-overlay".
Definition DEFAULT_TRANSITION_DURATION : Q := 500.
Definition BRIGHTNESS_SMOOTHING : Q := 0.3.
Definition DIM_CHANGE_THRESHOLD : Q := 0.03.

(** src/types.ts, [SiteState]; built by [createSiteState] of
    src/utils/storage.ts. *)
Record SiteState : Type := {
  lastDimLevel : Q;
  savedBrightness : option Q;
  timestamp : Q
}.

Definition createSiteState (dimLevel : Q) (brightness : option Q) (dateNow : Q)
    : SiteState :=
  {| lastDimLevel := dimLevel; savedBrightness := brightness; timestamp := dateNow |}.

(** The module-level variables of the content script, followed by two logs:
    the number of calls of [samplePageBrightness] and the arguments of the
    calls of [saveSiteState]. *)
Record Content : Type := {
  settings : Settings;
  animationState : Engine;
  lastBrightness : option Q;
  smoothedBrightness : option Q;
  lastAppliedDim : Q;
  isChecking : bool;
  samplings : nat;
  saves : list (string * SiteState)
}.

(** What a call reads from its surroundings: [getHostname()], the document
    that is sampled, [performance.now()] and [Date.now()]. *)
Record Env : Type := {
  hostname : string;
  page : Page;
  now : Q;
  dateNow : Q
}.

(** The module-level variables as they are initialised, with the given
    settings in place of the default ones. *)
Definition contentWith (s : Settings) : Content := {|
  settings := s;
  animationState := createEngine;
  lastBrightness := None;
  smoothedBrightness := None;
  lastAppliedDim := 0;
  isChecking := false;
  samplings := 0;
  saves := []
|}.

Definition initialContent : Content := contentWith DEFAULT_SETTINGS.

Definition with_engine (e : Engine) (c : Content) : Content :=
  {| settings := settings c; animationState := e;
     lastBrightness := lastBrightness c;
     smoothedBrightness := smoothedBrightness c;
     lastAppliedDim := lastAppliedDim c; isChecking := isChecking c;
     samplings := samplings c; saves := saves c |}.

Definition with_lastAppliedDim (d : Q) (c : Content) : Content :=
  {| settings := settings c; animationState := animationState c;
     lastBrightness := lastBrightness c;
     smoothedBrightness := smoothedBrightness c;
     lastAppliedDim := d; isChecking := isChecking c;
     samplings := samplings c; saves := saves c |}.

Definition with_isChecking (b : bool) (c : Content) : Content :=
  {| settings := settings c; animationState := animationState c;
     lastBrightness := lastBrightness c;
     smoothedBrightness := smoothedBrightness c;
     lastAppliedDim := lastAppliedDim c; isChecking := b;
     samplings := samplings c; saves := saves c |}.

(** The reading is taken and stored in [lastBrightness], and the running
    value is replaced. *)
Definition with_reading (raw smoothed : Q) (c : Content) : Content :=
  {| settings := settings c; animationState := animationState c;
     lastBrightness := Some raw;
     smoothedBrightness := Some smoothed;
     lastAppliedDim := lastAppliedDim c; isChecking := isChecking c;
     samplings := S (samplings c); saves := saves c |}.

Definition with_save (h : string) (s : SiteState) (c : Content) : Content :=
  {| settings := settings c; animationState := animationState c;
     lastBrightness := lastBrightness c;
     smoothedBrightness := smoothedBrightness c;
     lastAppliedDim := lastAppliedDim c; isChecking := isChecking c;
     samplings := samplings c; saves := (saves c ++ [(h, s)])%list |}.

Definition setDimLevel (env : Env) (level : Q) (c : Content) : Content :=
  let effectiveSettings := getEffectiveSettings (settings c) (hostname env) in
  if smoothing effectiveSettings then
    let duration :=
      if Qeq_bool (smoothingDuration effectiveSettings) 0
      then DEFAULT_TRANSITION_DURATION
      else smoothingDuration effectiveSettings in
    with_engine (animateDimLevel (animationState c) level duration (now env)) c
  else
    with_engine (setDimLevelImmediate (animationState c) level) c.

(** The exponential smoothing step of [checkAndDim]. *)
Definition smooth (smoothedBrightness : option Q) (rawBrightness : Q) : Q :=
  match smoothedBrightness with
  | None => rawBrightness
  | Some previous =>
      BRIGHTNESS_SMOOTHING * rawBrightness
      + (1 - BRIGHTNESS_SMOOTHING) * previous
  end.

(** The value of the local [dimAmount] of [checkAndDim]. *)
Definition dimAmountFor (settings effectiveSettings : Settings)
    (hostname : string) (smoothedBrightness : Q) : Q :=
  if isWhitelisted settings hostname then dimIntensity effectiveSettings
  else calculateDimAmount smoothedBrightness
         (brightnessThreshold effectiveSettings)
         (dimIntensity effectiveSettings)
         (dynamicMode effectiveSettings).

(** The dim amount that a cycle which samples computes from the state [c]. *)
Definition cycleDimAmount (env : Env) (c : Content) : Q :=
  dimAmountFor (settings c)
    (getEffectiveSettings (settings c) (hostname env)) (hostname env)
    (smooth (smoothedBrightness c) (samplePageBrightness (page env) OVERLAY_ID)).

(** The [try] block of [checkAndDim]. *)
Definition checkAndDim_body (env : Env) (c : Content) : Content :=
  let hostname := hostname env in
  let effectiveSettings := getEffectiveSettings (settings c) hostname in
  if negb (enabled effectiveSettings) || isBlacklisted (settings c) hostname then
    if negb (Qeq_bool (lastAppliedDim c) 0)
    then with_lastAppliedDim 0 (setDimLevel env 0 c)
    else c
  else
    let rawBrightness := samplePageBrightness (page env) OVERLAY_ID in
    let smoothed := smooth (smoothedBrightness c) rawBrightness in
    let c1 := with_reading rawBrightness smoothed c in
    let dimAmount := dimAmountFor (settings c) effectiveSettings hostname smoothed in
    if Qgeb (Qabs (dimAmount - lastAppliedDim c1)) DIM_CHANGE_THRESHOLD then
      let c2 := with_lastAppliedDim dimAmount (setDimLevel env dimAmount c1) in
      with_save hostname
        (createSiteState (currentLevel (state (animationState c2)))
           (lastBrightness c2) (dateNow env))
        c2
    else c1.

Definition checkAndDim (env : Env) (c : Content) : Content :=
  if isChecking c then c
  else with_isChecking false (checkAndDim_body env (with_isChecking true c)).

(** The same surroundings with another document under the sampler. *)
Definition with_page (p : Page) (env : Env) : Env :=
  {| hostname := hostname env; page := p; now := now env; dateNow := dateNow env |}.

(** The configuration of the end-to-end scenario: enabled, intensity 0.5,
    threshold 0.6, dynamic mode; no site override and empty lists; the two
    smoothing fields are left open. *)
Definition scenarioSettings (smoothingFlag : bool) (smoothingMs : Q) : Settings := {|
  enabled := true;
  dimIntensity := 0.5;
  brightnessThreshold := 0.6;
  dynamicMode := true;
  smoothing := smoothingFlag;
  smoothingDuration := smoothingMs;
  siteSettings := ∅;
  blacklist := [];
  whitelist := []
|}.

(** The default settings with the given blacklist and whitelist. *)
Definition listedSettings (black white : list string) : Settings := {|
  enabled := enabled DEFAULT_SETTINGS;
  dimIntensity := dimIntensity DEFAULT_SETTINGS;
  brightnessThreshold := brightnessThreshold DEFAULT_SETTINGS;
  dynamicMode := dynamicMode DEFAULT_SETTINGS;
  smoothing := smoothing DEFAULT_SETTINGS;
  smoothingDuration := smoothingDuration DEFAULT_SETTINGS;
  siteSettings := siteSettings DEFAULT_SETTINGS;
  blacklist := black;
  whitelist := white
|}.

(** A host and a page whose only signal is its root background, at time 0. *)
Definition envOf (h : string) (rootColor : string) : Env :=
  {| hostname := h; page := rootOnlyPage rootColor; now := 0; dateNow := 0 |}.

(** [settings = newSettings] *)
Definition with_settings (s : Settings) (c : Content) : Content :=
  {| settings := s; animationState := animationState c;
     lastBrightness := lastBrightness c;
     smoothedBrightness := smoothedBrightness c;
     lastAppliedDim := lastAppliedDim c; isChecking := isChecking c;
     samplings := samplings c; saves := saves c |}.

(** The [settingsUpdated] message, from the moment [loadSettings] resolves
    with [newSettings]; the renewal of the sampling interval is left out. *)
Definition settingsUpdated (env : Env) (newSettings : Settings) (c : Content)
    : Content :=
  checkAndDim env (with_settings newSettings c).

(** The [manualDim] message. *)
Definition manualDim (env : Env) (level : Q) (c : Content) : Content :=
  setDimLevel env level c.

(** The window delivers a frame to the engine of the content script. *)
Definition frame (currentTime : Q) (c : Content) : Content :=
  with_engine (deliverFrame currentTime (animationState c)) c.

(** What happens to the content script after its start, as data: a run of
    [checkAndDim] from the interval, the two messages that change its state,
    and a frame. *)
Inductive Event : Type :=
| Cycle (env : Env)
| SettingsUpdated (env : Env) (newSettings : Settings)
| ManualDim (env : Env) (level : Q)
| Frame (currentTime : Q).

Definition apply_event (c : Content) (ev : Event) : Content :=
  match ev with
  | Cycle env => checkAndDim env c
  | SettingsUpdated env newSettings => settingsUpdated env newSettings c
  | ManualDim env level => manualDim env level c
  | Frame currentTime => frame currentTime c
  end.

Definition runEvents (evs : list Event) (c : Content) : Content :=
  fold_left apply_event evs c.

Definition isManual (ev : Event) : bool :=
  match ev with
  | ManualDim _ _ => true
  | _ => false
  end.

(** Cycles one after the other, each in its surroundings. *)
Definition cycles (envs : list Env) (c : Content) : Content :=
  fold_left (fun c' env => checkAndDim env c') envs c.

(** The engine's target is less than 0.05 away from the applied dim, clamped
    to [0,1]. *)
Definition Tracking (c : Content) : Prop :=
  Qabs (targetLevel (state (animationState c)) - clamp (lastAppliedDim c) 0 1)
  < 0.05.

End Content.

(** ** src/utils/storage.ts, per-site state *)

Module Storage.
Import Content.

Definition SITE_STATE_PREFIX : string := "siteState_".
Definition STATE_MAX_AGE_MS : Q := 24 * 60 * 60 * 1000.

(** [`${SITE_STATE_PREFIX}${hostname}`] *)
Definition siteStateKey (hostname : string) : string :=
  SITE_STATE_PREFIX ++ hostname.

(** [chrome.storage.local], as far as the site states go: the stored states
    by key.  The two functions are the bodies of the storage callbacks;
    [dateNow] is [Date.now()] when the stored state is read. *)
Definition loadSiteState (store : gmap string SiteState) (hostname : string)
    (dateNow : Q) : option SiteState :=
  match store !! siteStateKey hostname with
  | Some state =>
      if Qltb (dateNow - timestamp state) STATE_MAX_AGE_MS
      then Some state
      else None
  | None => None
  end.

Definition saveSiteState (store : gmap string SiteState) (hostname : string)
    (state : SiteState) : gmap string SiteState :=
  <[siteStateKey hostname := state]> store.

(** The store after the calls of [saveSiteState] of a log, oldest first. *)
Definition storeAfter (saves : list (string * SiteState))
    (store : gmap string SiteState) : gmap string SiteState :=
  fold_left (fun st p => saveSiteState st (fst p) (snd p)) saves store.

End Storage.

(** ** src/content.ts, [start] *)

Module Startup.
Import Settings Animation Content Storage.

(** The block of [start] that applies the saved state: both levels and the
    applied dim are set to the saved level, which is passed to
    [applyCurrentDimLevel]. *)
Definition restoreSavedState (savedState : option SiteState) (c : Content)
    : Content :=
  match savedState with
  | Some saved =>
      if Qgtb (lastDimLevel saved) 0 then
        with_lastAppliedDim (lastDimLevel saved)
          (with_engine
             {| state := {| frameId := frameId (state (animationState c));
                            currentLevel := lastDimLevel saved;
                            targetLevel := lastDimLevel saved |};
                window := window (animationState c);
                updates :=
                  (updates (animationState c) ++ [lastDimLevel saved])%list |}
             c)
      else c
  | None => c
  end.

(** [start], up to the setting up of the sampling interval: [loadSettings]
    resolves with [loaded], and [loadSiteState] reads [store] at the time
    [loadTime]. *)
Definition start (env : Env) (loaded : Settings)
    (store : gmap string SiteState) (loadTime : Q) (c : Content) : Content :=
  let c1 := with_settings loaded c in
  let savedState := loadSiteState store (hostname env) loadTime in
  checkAndDim env (restoreSavedState savedState c1).

End Startup.

(** * Verification *)

(** ** Numbers *)

Section Numbers.

Lemma Qltb_lt (x y : Q) : Qltb x y = true <-> x < y.
Proof.
  unfold Qltb. rewrite negb_true_iff, <- not_true_iff_false, Qle_bool_iff.
  split; intros H; lra.
Qed.

Lemma Qltb_ge (x y : Q) : Qltb x y = false <-> y <= x.
Proof.
  unfold Qltb. rewrite negb_false_iff, Qle_bool_iff. reflexivity.
Qed.

Lemma Qle_bool_gt (x y : Q) : Qle_bool x y = false <-> y < x.
Proof.
  rewrite <- not_true_iff_false, Qle_bool_iff. split; intros H; lra.
Qed.

Lemma Qabs_spec (x : Q) : (0 <= x /\ Qabs x == x) \/ (x <= 0 /\ Qabs x == - x).
Proof.
  destruct (Qlt_le_dec x 0) as [H | H].
  - right. split; [lra | apply Qabs_neg; lra].
  - left. split; [lra | now apply Qabs_pos].
Qed.

End Numbers.

(** Case analysis on every [Qmax], [Qmin] and [Qabs] in sight, then linear
    arithmetic. *)
Ltac q_cases :=
  repeat match goal with
  | |- context [Qmax ?a ?b] =>
      let m := fresh "m" in
      pose proof (Q.max_spec a b); set (m := Qmax a b) in *; clearbody m
  | |- context [Qmin ?a ?b] =>
      let m := fresh "m" in
      pose proof (Q.min_spec a b); set (m := Qmin a b) in *; clearbody m
  | |- context [Qabs ?a] =>
      let m := fresh "m" in
      pose proof (Qabs_spec a); set (m := Qabs a) in *; clearbody m
  | H : context [Qmax ?a ?b] |- _ =>
      let m := fresh "m" in
      pose proof (Q.max_spec a b); set (m := Qmax a b) in *; clearbody m
  | H : context [Qmin ?a ?b] |- _ =>
      let m := fresh "m" in
      pose proof (Q.min_spec a b); set (m := Qmin a b) in *; clearbody m
  | H : context [Qabs ?a] |- _ =>
      let m := fresh "m" in
      pose proof (Qabs_spec a); set (m := Qabs a) in *; clearbody m
  end.

Ltac q_solve := q_cases; lra.

(** Boolean comparisons of the embedding, as propositions. *)
Ltac q_bool :=
  repeat match goal with
  | H : Qle_bool _ _ = true |- _ => apply Qle_bool_iff in H
  | H : Qle_bool _ _ = false |- _ => apply Qle_bool_gt in H
  | H : Qltb _ _ = true |- _ => apply Qltb_lt in H
  | H : Qltb _ _ = false |- _ => apply Qltb_ge in H
  | H : Qgtb _ _ = true |- _ => apply Qltb_lt in H
  | H : Qgtb _ _ = false |- _ => apply Qltb_ge in H
  | H : Qgeb _ _ = true |- _ => apply Qle_bool_iff in H
  | H : Qgeb _ _ = false |- _ => apply Qle_bool_gt in H
  end.

(** ** [clamp] *)

Section ClampFacts.
Import Overlay.

Lemma clamp_range (v lo hi : Q) : lo <= hi -> lo <= clamp v lo hi <= hi.
Proof. unfold clamp. intros H. q_solve. Qed.

Lemma clamp_unit (v : Q) : 0 <= clamp v 0 1 <= 1.
Proof. apply clamp_range. lra. Qed.

Lemma clamp_fix (v lo hi : Q) : lo <= v <= hi -> clamp v lo hi == v.
Proof. unfold clamp. intros H. q_solve. Qed.

Lemma clamp_compat (v w lo hi : Q) : v == w -> clamp v lo hi == clamp w lo hi.
Proof. unfold clamp. intros H. q_solve. Qed.

End ClampFacts.

(** ** Dim policy *)

Section PolicyFacts.
Import Policy.

Lemma calculateDimAmount_below (b t m : Q) (d : bool) :
  b <= t -> calculateDimAmount b t m d = 0.
Proof.
  intros H. unfold calculateDimAmount.
  apply Qle_bool_iff in H. now rewrite H.
Qed.

Lemma calculateDimAmount_binary (b t m : Q) :
  t < b -> calculateDimAmount b t m false = m.
Proof.
  intros H. unfold calculateDimAmount.
  apply Qle_bool_gt in H. now rewrite H.
Qed.

Lemma calculateDimAmount_degenerate (b t m : Q) :
  t < b -> 1 - t <= 0 -> calculateDimAmount b t m true = m * 1.
Proof.
  intros H H1. unfold calculateDimAmount, Qgtb.
  apply Qle_bool_gt in H. apply Qltb_ge in H1. now rewrite H, H1.
Qed.

Lemma calculateDimAmount_scaled (b t m : Q) :
  t < b -> 0 < 1 - t ->
  calculateDimAmount b t m true = m * ((b - t) / (1 - t)).
Proof.
  intros H H1. unfold calculateDimAmount, Qgtb.
  apply Qle_bool_gt in H. apply Qltb_lt in H1. now rewrite H, H1.
Qed.

(** C1. [calculateDimAmount] agrees with the reference definition on every
    input: it is exactly 0 when [brightness <= threshold]; otherwise exactly
    [maxIntensity] when [dynamicMode] is off; otherwise
    [maxIntensity * (brightness - threshold) / (1 - threshold)], except that
    for a divisor [1 - threshold <= 0] the scale factor is the constant 1
    (no division) and the result is [maxIntensity]. *)
Theorem calculateDimAmount_reference (b t m : Q) (d : bool) :
  calculateDimAmount b t m d == computeDimAmount_reference b t m d
  /\ (b <= t -> calculateDimAmount b t m d = 0)
  /\ (t < b -> d = false -> calculateDimAmount b t m d = m)
  /\ (t < b -> d = true -> 1 - t <= 0 ->
      calculateDimAmount b t m d = m * 1 /\ calculateDimAmount b t m d == m)
  /\ (t < b -> d = true -> 0 < 1 - t ->
      calculateDimAmount b t m d == m * (b - t) / (1 - t)).
Proof.
  repeat split.
  - unfold computeDimAmount_reference.
    destruct (Qlt_le_dec t b) as [Hb | Hb].
    + destruct d.
      * destruct (Qlt_le_dec 0 (1 - t)) as [H1 | H1].
        -- rewrite calculateDimAmount_scaled by assumption. field. lra.
        -- rewrite calculateDimAmount_degenerate by assumption. ring.
      * now rewrite calculateDimAmount_binary.
    + now rewrite calculateDimAmount_below.
  - apply calculateDimAmount_below.
  - intros Hb ->. now apply calculateDimAmount_binary.
  - subst d. now apply calculateDimAmount_degenerate.
  - subst d. rewrite calculateDimAmount_degenerate by assumption. ring.
  - intros Hb -> H1. rewrite calculateDimAmount_scaled by assumption.
    field. lra.
Qed.

(** The theorem at brightness 0.8, threshold 0.6, intensity 0.4, dynamic. *)
Lemma calculateDimAmount_reference_witness :
  calculateDimAmount 0.8 0.6 0.4 true == 0.4 * (0.8 - 0.6) / (1 - 0.6).
Proof.
  apply (calculateDimAmount_reference 0.8 0.6 0.4 true);
    [lra | reflexivity | lra].
Defined.

(** C6, as stated, fails: with a negative [maxIntensity] the dynamic branch
    decreases in the brightness.  Threshold 0, intensity -1: the amount is
    -1/2 at brightness 1/2 and -1 at brightness 1. *)
Lemma calculateDimAmount_monotone_counterexample :
  0 < 1 /\ 0 < 0.5 /\ 0.5 <= 1 /\ 1 <= 1
  /\ ~ (calculateDimAmount 0.5 0 (-1) true <= calculateDimAmount 1 0 (-1) true).
Proof.
  repeat split; try lra.
  intros H. vm_compute in H. now apply H.
Qed.

Lemma scaled_nonneg (b t : Q) : t < b -> 0 < 1 - t -> 0 <= (b - t) / (1 - t).
Proof.
  intros Hb H1. apply Qle_shift_div_l; [assumption | lra].
Qed.

Lemma scaled_monotone (b1 b2 t : Q) :
  0 < 1 - t -> b1 <= b2 -> (b1 - t) / (1 - t) <= (b2 - t) / (1 - t).
Proof.
  intros H1 Hb. unfold Qdiv. apply Qmult_le_compat_r; [lra |].
  apply Qlt_le_weak, Qinv_lt_0_compat, H1.
Qed.

(** C6, amended.  For a threshold below 1 and dynamic mode, on the domain
    [threshold < brightness <= 1]: the amount is non-decreasing in the
    brightness when [maxIntensity] is not negative; and for every
    [maxIntensity] it equals [maxIntensity] at brightness 1 and tends to 0 as
    the brightness approaches the threshold from above. *)
Theorem calculateDimAmount_dynamic_shape (t m : Q) :
  t < 1 ->
  (0 <= m ->
   forall b1 b2, t < b1 -> b1 <= b2 -> b2 <= 1 ->
     calculateDimAmount b1 t m true <= calculateDimAmount b2 t m true)
  /\ calculateDimAmount 1 t m true == m
  /\ (forall eps, 0 < eps ->
       exists delta, 0 < delta /\
         forall b, t < b -> b < t + delta -> b <= 1 ->
           Qabs (calculateDimAmount b t m true) < eps).
Proof.
  intros Ht. assert (H1 : 0 < 1 - t) by lra. repeat split.
  - intros Hm b1 b2 Hb1 Hle Hb2.
    rewrite !calculateDimAmount_scaled by lra.
    pose proof (scaled_monotone b1 b2 t H1 Hle) as Hs.
    set (x1 := (b1 - t) / (1 - t)) in *. set (x2 := (b2 - t) / (1 - t)) in *.
    clearbody x1 x2. nra.
  - rewrite calculateDimAmount_scaled by lra. field. lra.
  - intros eps Heps.
    assert (Hden : 0 < Qabs m + 1) by (pose proof (Qabs_nonneg m); lra).
    exists (eps * (1 - t) / (Qabs m + 1)). split.
    + apply Qlt_shift_div_l; [assumption |]. nra.
    + intros b Hb Hd _.
      rewrite calculateDimAmount_scaled by lra.
      rewrite Qabs_Qmult.
      pose proof (scaled_nonneg b t Hb H1) as Hx.
      rewrite (Qabs_pos ((b - t) / (1 - t))) by assumption.
      pose proof (Qabs_nonneg m) as Hm.
      assert (Hx' : (b - t) / (1 - t) < eps / (Qabs m + 1)).
      { apply Qlt_shift_div_r; [assumption |].
        assert (E : eps / (Qabs m + 1) * (1 - t)
                    == eps * (1 - t) / (Qabs m + 1)) by (field; lra).
        rewrite E. lra. }
      assert (He : eps / (Qabs m + 1) * (Qabs m + 1) == eps) by (field; lra).
      set (x := (b - t) / (1 - t)) in *. set (y := eps / (Qabs m + 1)) in *.
      set (a := Qabs m) in *. clearbody x y a. nra.
Qed.

(** The amended statement at threshold 0.6 and intensity 0.5. *)
Lemma calculateDimAmount_dynamic_shape_witness :
  calculateDimAmount 0.7 0.6 0.5 true <= calculateDimAmount 0.9 0.6 0.5 true.
Proof.
  apply (calculateDimAmount_dynamic_shape 0.6 0.5); lra.
Defined.

End PolicyFacts.

(** ** Pattern matching *)

Section PatternFacts.
Import Patterns.

Lemma append_cons (c : ascii) (s t : string) :
  String c s ++ t = String c (s ++ t).
Proof. reflexivity. Qed.

Lemma append_empty_l (s : string) : "" ++ s = s.
Proof. reflexivity. Qed.

Lemma prefix_spec (p s : string) :
  String.prefix p s = true <-> exists after, s = p ++ after.
Proof.
  revert s. induction p as [| c p IH]; intros s.
  - split; [intros _; now exists s | intros _; now destruct s].
  - destruct s as [| c' s]; simpl;
      [split; [discriminate | intros [? ?]; discriminate] |].
    destruct (ascii_dec c c') as [-> | Hne].
    + rewrite IH.
      split; intros [after H]; exists after; rewrite append_cons in *; congruence.
    + split; [discriminate |].
      intros [after H]. rewrite append_cons in H. congruence.
Qed.

Lemma includes_spec (s sub : string) :
  includes s sub = true <-> contains s sub.
Proof.
  unfold contains. induction s as [| c s IH].
  - destruct sub as [| c sub]; simpl; split.
    + intros _. now exists "", "".
    + reflexivity.
    + discriminate.
    + intros ([| ? ?] & after & H); discriminate.
  - change (includes (String c s) sub)
      with (String.prefix sub (String c s) || includes s sub).
    rewrite orb_true_iff, IH, prefix_spec. split.
    + intros [[after H] | (before & after & H)].
      * now exists "", after.
      * exists (String c before), after. rewrite append_cons. now rewrite H.
    + intros ([| c' before] & after & H).
      * left. now exists after.
      * right. exists before, after. rewrite append_cons in H. congruence.
Qed.

Lemma matchesPattern_empty (h p : string) :
  h = "" \/ p = "" -> matchesPattern h p = false.
Proof.
  unfold matchesPattern. intros [-> | ->]; simpl; [reflexivity |].
  now rewrite orb_true_r.
Qed.

Lemma matchesPattern_nonempty (h p : string) :
  h <> "" -> p <> "" ->
  (matchesPattern h p = true <-> contains h p \/ contains p h).
Proof.
  intros Hh Hp. unfold matchesPattern.
  apply String.eqb_neq in Hh, Hp. rewrite Hh, Hp. simpl.
  now rewrite orb_true_iff, !includes_spec.
Qed.

(** C5. On non-empty strings [matchesPattern] holds exactly when one string
    occurs in the other; it is false when either string is empty;
    [matchesAnyPattern] holds exactly when some pattern of the list matches,
    so the empty list matches nothing; and the two examples evaluate as
    stated. *)
Theorem matchesPattern_substring :
  (forall h p, h <> "" -> p <> "" ->
     (matchesPattern h p = true <-> contains h p \/ contains p h))
  /\ (forall h p, h = "" \/ p = "" -> matchesPattern h p = false)
  /\ (forall h ps,
        matchesAnyPattern h ps = true
        <-> exists p, In p ps /\ matchesPattern h p = true)
  /\ (forall h, matchesAnyPattern h [] = false)
  /\ matchesPattern "www.example.com" "example.com" = true
  /\ matchesPattern "google.com" "facebook.com" = false.
Proof.
  split; [exact matchesPattern_nonempty |].
  split; [exact matchesPattern_empty |].
  split; [| repeat split].
  intros h ps. unfold matchesAnyPattern. apply existsb_exists.
Qed.

(** The first part at the strings of the example: "example.com" occurs in
    "www.example.com" after "www.". *)
Lemma matchesPattern_substring_witness :
  matchesPattern "www.example.com" "example.com" = true.
Proof.
  apply (proj1 matchesPattern_substring "www.example.com" "example.com");
    [discriminate | discriminate |].
  left. exists "www.", "". reflexivity.
Defined.

End PatternFacts.

(** ** The matcher on runs of a character class *)

Section RegexFacts.
Import Regex.

Lemma length_append (s t : string) :
  String.length (s ++ t) = (String.length s + String.length t)%nat.
Proof.
  induction s as [| c s IH]; [reflexivity |].
  rewrite append_cons. simpl. now rewrite IH.
Qed.

Lemma substring_append_l (s t : string) :
  substring 0 (String.length s) (s ++ t) = s.
Proof.
  induction s as [| c s IH].
  - rewrite append_empty_l. now destruct t.
  - rewrite append_cons. simpl. now rewrite IH.
Qed.

Lemma consumed_append (s t : string) :
  substring 0 (String.length (s ++ t) - String.length t) (s ++ t) = s.
Proof.
  rewrite length_append.
  replace (String.length s + String.length t - String.length t)%nat
    with (String.length s) by lia.
  apply substring_append_l.
Qed.

Context {R : Type}.

Lemma star_stops (p : ascii -> bool) (rest : string) (k : string -> option R) :
  stops p rest -> star p rest k = k rest.
Proof.
  destruct rest as [| c rest]; simpl; [reflexivity |].
  now intros ->.
Qed.

(** A greedy [*] takes the whole run when the run cannot be extended and the
    rest of the pattern matches after it. *)
Lemma star_run (p : ascii -> bool) (run rest : string)
    (k : string -> option R) (x : R) :
  allChars p run = true -> stops p rest -> k rest = Some x ->
  star p (run ++ rest) k = Some x.
Proof.
  intros Hrun Hstop Hk. induction run as [| c run IH].
  - rewrite append_empty_l, star_stops; assumption.
  - rewrite append_cons. simpl in Hrun |- *.
    apply andb_true_iff in Hrun as [-> Hrun]. now rewrite IH.
Qed.

Lemma rmatch_Chr (c : ascii) (s : string) (caps : list string)
    (k : string -> list string -> option R) :
  rmatch (Chr c) (String c s) caps k = k s caps.
Proof. simpl. now rewrite Ascii.eqb_refl. Qed.

Lemma rmatch_Star (p : ascii -> bool) (run rest : string) (caps : list string)
    (k : string -> list string -> option R) (x : R) :
  allChars p run = true -> stops p rest -> k rest caps = Some x ->
  rmatch (Star p) (run ++ rest) caps k = Some x.
Proof. intros. simpl. now apply star_run. Qed.

Lemma rmatch_Plus (p : ascii -> bool) (run rest : string) (caps : list string)
    (k : string -> list string -> option R) (x : R) :
  run <> "" -> allChars p run = true -> stops p rest ->
  k rest caps = Some x ->
  rmatch (Plus p) (run ++ rest) caps k = Some x.
Proof.
  intros Hne Hrun Hstop Hk. destruct run as [| c run]; [contradiction |].
  rewrite append_cons. simpl in Hrun |- *.
  apply andb_true_iff in Hrun as [-> Hrun]. now apply star_run.
Qed.

(** A capturing group around [+]: the capture is the run. *)
Lemma rmatch_Group_Plus (p : ascii -> bool) (run rest : string)
    (caps : list string) (k : string -> list string -> option R) (x : R) :
  run <> "" -> allChars p run = true -> stops p rest ->
  k rest (caps ++ [run])%list = Some x ->
  rmatch (Group (Plus p)) (run ++ rest) caps k = Some x.
Proof.
  intros Hne Hrun Hstop Hk.
  change (rmatch (Group (Plus p)) (run ++ rest) caps k)
    with (rmatch (Plus p) (run ++ rest) caps
            (fun s' caps' =>
               k s' (caps' ++ [substring 0
                                 (String.length (run ++ rest) - String.length s')
                                 (run ++ rest)])%list)).
  apply rmatch_Plus; try assumption.
  now rewrite consumed_append.
Qed.

Lemma rmatch_Cat (r1 r2 : regex) (s : string) (caps : list string)
    (k : string -> list string -> option R) :
  rmatch (Cat r1 r2) s caps k
  = rmatch r1 s caps (fun s' caps' => rmatch r2 s' caps' k).
Proof. reflexivity. Qed.

Lemma rmatch_Opt_skipped (r : regex) (s : string) (caps : list string)
    (k : string -> list string -> option R) :
  rmatch r s caps k = None -> rmatch (Opt r) s caps k = k s caps.
Proof. intros H. simpl. now rewrite H. Qed.

Lemma rmatch_Opt_taken (r : regex) (s : string) (caps : list string)
    (k : string -> list string -> option R) (x : R) :
  rmatch r s caps k = Some x -> rmatch (Opt r) s caps k = Some x.
Proof. intros H. simpl. now rewrite H. Qed.

End RegexFacts.

(** ** Color parsing *)

Section ColorFacts.
Import Regex Brightness.

Lemma digit_not_space (c : ascii) : isDigit c = true -> isSpace c = false.
Proof.
  destruct c as [[] [] [] [] [] [] [] []]; vm_compute; congruence.
Qed.

Lemma digitOrDot_not_space (c : ascii) :
  isDigitOrDot c = true -> isSpace c = false.
Proof.
  destruct c as [[] [] [] [] [] [] [] []]; vm_compute; congruence.
Qed.

Lemma stops_space_digits (d rest : string) :
  digitString d -> stops isSpace (d ++ rest).
Proof.
  intros [Hne Hd]. destruct d as [| c d]; [contradiction |].
  rewrite append_cons. simpl in Hd |- *.
  apply andb_true_iff in Hd as [Hc _]. now apply digit_not_space.
Qed.

Lemma stops_space_alpha (a rest : string) :
  alphaString a -> stops isSpace (a ++ rest).
Proof.
  intros [Hne Ha]. destruct a as [| c a]; [contradiction |].
  rewrite append_cons. simpl in Ha |- *.
  apply andb_true_iff in Ha as [Hc _]. now apply digitOrDot_not_space.
Qed.

(** One step of the pattern on a string whose next part is known. *)
Ltac re_step :=
  rewrite ?rmatch_Cat;
  first
    [ rewrite rmatch_Chr
    | apply rmatch_Group_Plus;
        [ match goal with H : digitString _ |- _ => apply H end
        | match goal with H : digitString _ |- _ => apply H end
        | first [ reflexivity | assumption ]
        | ]
    | apply rmatch_Star;
        [ assumption
        | first [ now apply stops_space_digits | now apply stops_space_alpha ]
        | ]
    | apply rmatch_Plus;
        [ match goal with H : alphaString _ |- _ => apply H end
        | match goal with H : alphaString _ |- _ => apply H end
        | reflexivity
        | ] ];
  cbv beta.

(** The three channels, from the opening parenthesis to the last digit. *)
Lemma rmatch_channels {R : Type} (d1 w1 d2 w2 d3 : string) (c : ascii)
    (rest : string) (tail : regex) (caps : list string)
    (k : string -> list string -> option R) (x : R) :
  digitString d1 -> spaceString w1 -> digitString d2 -> spaceString w2 ->
  digitString d3 -> isDigit c = false ->
  rmatch tail (String c rest) (caps ++ [d1; d2; d3])%list k = Some x ->
  rmatch (Chr "(" ⋅ Group (Plus isDigit) ⋅ Chr "," ⋅ Star isSpace ⋅
          Group (Plus isDigit) ⋅ Chr "," ⋅ Star isSpace ⋅
          Group (Plus isDigit) ⋅ tail)%re
    (String "(" (d1 ++ String "," (w1 ++ d2 ++ String "," (w2 ++ d3
                                                        ++ String c rest))))
    caps k
  = Some x.
Proof.
  intros H1 Hw1 H2 Hw2 H3 Hc Hk.
  do 8 re_step.
  now rewrite <- !app_assoc.
Qed.

Lemma str_match_here (r : regex) (s : string) (m : list string) :
  matchHere r s = Some m -> str_match r s = Some m.
Proof. intros H. destruct s; simpl; now rewrite H. Qed.

Lemma matchHere_rgbString (d1 w1 d2 w2 d3 : string) :
  digitString d1 -> spaceString w1 -> digitString d2 -> spaceString w2 ->
  digitString d3 ->
  exists whole,
    matchHere rgbPattern (rgbString d1 w1 d2 w2 d3) = Some [whole; d1; d2; d3].
Proof.
  intros H1 Hw1 H2 Hw2 H3. eexists.
  unfold matchHere, rgbPattern, rgbString.
  rewrite !append_cons, !append_empty_l.
  do 3 re_step.
  rewrite rmatch_Cat, rmatch_Opt_skipped by reflexivity.
  apply rmatch_channels; try assumption; reflexivity.
Qed.

Lemma matchHere_rgbaString (d1 w1 d2 w2 d3 w3 a : string) :
  digitString d1 -> spaceString w1 -> digitString d2 -> spaceString w2 ->
  digitString d3 -> spaceString w3 -> alphaString a ->
  exists whole,
    matchHere rgbPattern (rgbaString d1 w1 d2 w2 d3 w3 a)
    = Some [whole; d1; d2; d3].
Proof.
  intros H1 Hw1 H2 Hw2 H3 Hw3 Ha. eexists.
  unfold matchHere, rgbPattern, rgbaString.
  rewrite !append_cons, !append_empty_l.
  do 3 re_step.
  rewrite rmatch_Cat. apply rmatch_Opt_taken. re_step.
  apply rmatch_channels; try assumption; [reflexivity |].
  rewrite rmatch_Cat. apply rmatch_Opt_taken.
  do 3 re_step. rewrite rmatch_Chr. reflexivity.
Qed.

Lemma getColorBrightness_rgbString (d1 w1 d2 w2 d3 : string) :
  digitString d1 -> spaceString w1 -> digitString d2 -> spaceString w2 ->
  digitString d3 ->
  getColorBrightness (rgbString d1 w1 d2 w2 d3) = Some (luminance d1 d2 d3).
Proof.
  intros H1 Hw1 H2 Hw2 H3.
  destruct (matchHere_rgbString d1 w1 d2 w2 d3) as [whole Hm]; try assumption.
  unfold getColorBrightness. rewrite (str_match_here _ _ _ Hm).
  unfold rgbString. rewrite !append_cons. reflexivity.
Qed.

Lemma getColorBrightness_rgbaString (d1 w1 d2 w2 d3 w3 a : string) :
  digitString d1 -> spaceString w1 -> digitString d2 -> spaceString w2 ->
  digitString d3 -> spaceString w3 -> alphaString a ->
  rgbaString d1 w1 d2 w2 d3 w3 a <> "rgba(0, 0, 0, 0)" ->
  getColorBrightness (rgbaString d1 w1 d2 w2 d3 w3 a)
  = Some (luminance d1 d2 d3).
Proof.
  intros H1 Hw1 H2 Hw2 H3 Hw3 Ha Hne.
  destruct (matchHere_rgbaString d1 w1 d2 w2 d3 w3 a) as [whole Hm];
    try assumption.
  unfold getColorBrightness. rewrite (str_match_here _ _ _ Hm).
  apply String.eqb_neq in Hne. rewrite Hne.
  unfold rgbaString. rewrite !append_cons. reflexivity.
Qed.

Lemma rmatch_Chr_ne {R : Type} (c c' : ascii) (s : string)
    (caps : list string) (k : string -> list string -> option R) :
  c <> c' -> rmatch (Chr c) (String c' s) caps k = None.
Proof. intros H. simpl. apply Ascii.eqb_neq in H. now rewrite H. Qed.

(** A match of the pattern starts with "rgb". *)
Lemma matchHere_needs_rgb (s : string) :
  String.prefix "rgb" s = false -> matchHere rgbPattern s = None.
Proof.
  intros H. unfold matchHere, rgbPattern.
  destruct s as [| c1 s]; [reflexivity |].
  rewrite rmatch_Cat.
  destruct (ascii_dec "r" c1) as [<- | Hne]; [| now apply rmatch_Chr_ne].
  rewrite rmatch_Chr, rmatch_Cat.
  destruct s as [| c2 s]; [reflexivity |].
  destruct (ascii_dec "g" c2) as [<- | Hne]; [| now apply rmatch_Chr_ne].
  rewrite rmatch_Chr, rmatch_Cat.
  destruct s as [| c3 s]; [reflexivity |].
  destruct (ascii_dec "b" c3) as [<- | Hne]; [| now apply rmatch_Chr_ne].
  destruct s; discriminate.
Qed.

Lemma str_match_needs_rgb (s : string) :
  Patterns.includes s "rgb" = false -> str_match rgbPattern s = None.
Proof.
  induction s as [| c s IH]; intros H.
  - reflexivity.
  - change (Patterns.includes (String c s) "rgb")
      with (String.prefix "rgb" (String c s) || Patterns.includes s "rgb") in H.
    apply orb_false_iff in H as [Hp Hi].
    simpl. rewrite (matchHere_needs_rgb _ Hp). now apply IH.
Qed.

Lemma getColorBrightness_needs_rgb (s : string) :
  ~ Patterns.contains s "rgb" -> getColorBrightness s = None.
Proof.
  intros H. unfold getColorBrightness.
  rewrite str_match_needs_rgb; [now destruct (_ || _) |].
  apply not_true_iff_false. now rewrite includes_spec.
Qed.

(** [parseInt10] reads the decimal numeral of [n] as [n]. *)
Lemma parseDigits_uint (u : Decimal.uint) (acc : nat) :
  parseDigits (Z.of_nat acc) (NilEmpty.string_of_uint u)
  = Z.of_nat (Nat.of_uint_acc u acc).
Proof.
  revert acc.
  induction u as [| u IH | u IH | u IH | u IH | u IH | u IH | u IH | u IH
                   | u IH | u IH ]; intros acc; [reflexivity | ..];
    cbn [NilEmpty.string_of_uint Nat.of_uint_acc parseDigits];
    (match goal with
     | |- context [isDigit ?c] =>
         change (isDigit c) with true; cbv iota;
         let v := eval vm_compute in (Z.of_N (N_of_ascii c) - 48)%Z in
         change (Z.of_N (N_of_ascii c) - 48)%Z with v
     end);
    rewrite <- IH; f_equal; rewrite Nat.tail_mul_spec; lia.
Qed.

Lemma parseInt10_decimal (n : nat) : parseInt10 (decimal n) = Z.of_nat n.
Proof.
  unfold parseInt10, decimal. change 0%Z with (Z.of_nat 0).
  rewrite parseDigits_uint. f_equal. apply Unsigned.of_to.
Qed.

Lemma string_of_uint_digits (u : Decimal.uint) :
  allChars isDigit (NilEmpty.string_of_uint u) = true.
Proof. induction u; simpl; auto. Qed.

Lemma decimal_digitString (n : nat) : digitString (decimal n).
Proof.
  unfold digitString, decimal. split; [| apply string_of_uint_digits].
  assert (Hn : Nat.to_uint n <> Decimal.Nil).
  { rewrite <- (Unsigned.of_to n), Unsigned.to_of. apply unorm_nonnil. }
  destruct (Nat.to_uint n); [contradiction | ..]; discriminate.
Qed.

(** C3, as stated, fails.  A color whose alpha component is 0 is read like
    any other unless it is the literal "rgba(0, 0, 0, 0)": transparent white
    has the brightness of white.  White space before a comma is not
    accepted. *)
Lemma getColorBrightness_alpha_counterexample :
  (exists v,
     getColorBrightness "rgba(255, 255, 255, 0)" = Some v
     /\ Qabs (v - 1) < 0.001)
  /\ (exists v, getColorBrightness "rgba(0,0,0,0)" = Some v)
  /\ getColorBrightness "rgb(255 , 0, 0)" = None.
Proof.
  split; [| split].
  - eexists. split; [vm_compute; reflexivity | vm_compute; reflexivity].
  - eexists. vm_compute. reflexivity.
  - vm_compute. reflexivity.
Qed.

(** In binary64 the formula gives 0 for black and 0.299 for red, and for
    white 0.9999999999999999: not 1, and less than 0.001 away from it. *)
Lemma luminance_binary64 :
  Brightness64.luminance 0 0 0 = 0%float
  /\ Brightness64.luminance 255 0 0 = 0x1.322d0e5604189p-2%float
  /\ Brightness64.luminance 255 255 255 = 0x1.fffffffffffffp-1%float
  /\ PrimFloat.eqb (Brightness64.luminance 255 255 255) 1 = false
  /\ PrimFloat.ltb (abs (Brightness64.luminance 255 255 255 - 1)%float)
       0x1.0624dd2f1a9fcp-10 = true.
Proof. repeat split; vm_compute; reflexivity. Qed.

(** C3, amended.  For [rgb(r,g,b)] and [rgba(r,g,b,a)] written with decimal
    channels and with white space, if any, directly after the commas,
    [getColorBrightness] returns
    [0.299 * (r/255) + 0.587 * (g/255) + 0.114 * (b/255)] whatever the alpha
    component is, the literal "rgba(0, 0, 0, 0)" excepted; the empty string,
    "transparent" and that literal give [None], and so does every string in
    which "rgb" does not occur (named colors, hex, hsl); black gives 0, white
    1 within 0.001 and red 0.299 within 0.001. *)
Theorem getColorBrightness_contract :
  (forall (r g b : nat) w1 w2,
     spaceString w1 -> spaceString w2 ->
     getColorBrightness (rgbString (decimal r) w1 (decimal g) w2 (decimal b))
     = Some (0.299 * (inject_Z (Z.of_nat r) / 255)
             + 0.587 * (inject_Z (Z.of_nat g) / 255)
             + 0.114 * (inject_Z (Z.of_nat b) / 255)))
  /\ (forall (r g b : nat) w1 w2 w3 a,
        spaceString w1 -> spaceString w2 -> spaceString w3 -> alphaString a ->
        rgbaString (decimal r) w1 (decimal g) w2 (decimal b) w3 a
        <> "rgba(0, 0, 0, 0)" ->
        getColorBrightness
          (rgbaString (decimal r) w1 (decimal g) w2 (decimal b) w3 a)
        = Some (0.299 * (inject_Z (Z.of_nat r) / 255)
                + 0.587 * (inject_Z (Z.of_nat g) / 255)
                + 0.114 * (inject_Z (Z.of_nat b) / 255)))
  /\ getColorBrightness "" = None
  /\ getColorBrightness "transparent" = None
  /\ getColorBrightness "rgba(0, 0, 0, 0)" = None
  /\ (forall s, ~ Patterns.contains s "rgb" -> getColorBrightness s = None)
  /\ (exists v, getColorBrightness "rgb(0,0,0)" = Some v /\ v == 0)
  /\ (exists v,
        getColorBrightness "rgb(255,255,255)" = Some v /\ Qabs (v - 1) < 0.001)
  /\ (exists v,
        getColorBrightness "rgb(255,0,0)" = Some v /\ Qabs (v - 0.299) < 0.001).
Proof.
  split; [| split].
  - intros r g b w1 w2 Hw1 Hw2.
    rewrite getColorBrightness_rgbString
      by (assumption || apply decimal_digitString).
    unfold luminance. now rewrite !parseInt10_decimal.
  - intros r g b w1 w2 w3 a Hw1 Hw2 Hw3 Ha Hne.
    rewrite getColorBrightness_rgbaString
      by (assumption || apply decimal_digitString).
    unfold luminance. now rewrite !parseInt10_decimal.
  - do 3 (split; [reflexivity |]).
    split; [exact getColorBrightness_needs_rgb |].
    split; [| split]; eexists;
      (split; [vm_compute; reflexivity | vm_compute; reflexivity]).
Qed.

(** The first part at "rgb(255, 0, 0)". *)
Lemma getColorBrightness_contract_witness :
  getColorBrightness "rgb(255, 0, 0)"
  = Some (0.299 * (inject_Z (Z.of_nat 255) / 255)
          + 0.587 * (inject_Z (Z.of_nat 0) / 255)
          + 0.114 * (inject_Z (Z.of_nat 0) / 255)).
Proof.
  exact (proj1 getColorBrightness_contract 255%nat 0%nat 0%nat " " " "
           eq_refl eq_refl).
Defined.

End ColorFacts.

(** ** Brightness sampling *)

Section SamplingFacts.
Import Regex Brightness.

Lemma fold_left_invariant {A B : Type} (P : A -> Prop) (f : A -> B -> A)
    (l : list B) (a : A) :
  (forall a' b, In b l -> P a' -> P (f a' b)) -> P a -> P (fold_left f l a).
Proof.
  revert a. induction l as [| b l IH]; intros a Hf Ha; simpl; [assumption |].
  apply IH.
  - intros a' b' Hin. apply Hf. now right.
  - apply Hf; [now left | assumption].
Qed.

Lemma isDigit_value (c : ascii) :
  isDigit c = true -> (0 <= Z.of_N (N_of_ascii c) - 48)%Z.
Proof.
  unfold isDigit. intros H. apply andb_true_iff in H as [H _].
  apply N.leb_le in H. lia.
Qed.

Lemma parseDigits_nonneg (s : string) (acc : Z) :
  (0 <= acc)%Z -> (0 <= parseDigits acc s)%Z.
Proof.
  revert acc. induction s as [| c s IH]; intros acc Hacc; simpl; [assumption |].
  destruct (isDigit c) eqn:Hc; [| assumption].
  apply IH. pose proof (isDigit_value c Hc). lia.
Qed.

Lemma channel_unit (d : string) :
  (parseInt10 d <= 255)%Z -> 0 <= inject_Z (parseInt10 d) / 255 <= 1.
Proof.
  intros Hle.
  assert (H0 : (0 <= parseInt10 d)%Z) by (apply parseDigits_nonneg; lia).
  rewrite Zle_Qle in H0, Hle.
  change (inject_Z 0) with 0 in H0. change (inject_Z 255) with 255 in Hle.
  split.
  - apply Qle_shift_div_l; lra.
  - apply Qle_shift_div_r; lra.
Qed.

Lemma getColorBrightness_unit (colorStr : string) (v : Q) :
  channelsInRange colorStr -> getColorBrightness colorStr = Some v ->
  0 <= v <= 1.
Proof.
  unfold channelsInRange, getColorBrightness.
  destruct (_ || _); [discriminate |].
  destruct (str_match rgbPattern colorStr) as [m |]; [| discriminate].
  intros (H1 & H2 & H3) [= <-]. unfold luminance.
  pose proof (channel_unit _ H1). pose proof (channel_unit _ H2).
  pose proof (channel_unit _ H3). cbv zeta. lra.
Qed.

Lemma readPoint_unit (page : Page) (overlayId : string) (x y : nat) (v : Q) :
  pageColorsInRange page -> readPoint page overlayId x y = Some v ->
  0 <= v <= 1.
Proof.
  intros (Hel & _ & _). unfold readPoint. cbv zeta.
  destruct (find _ _) as [el |] eqn:Hfind; [| discriminate].
  apply find_some in Hfind as [Hin _].
  apply getColorBrightness_unit. eapply Hel, Hin.
Qed.

Lemma sampleGrid_range (page : Page) (overlayId : string) :
  pageColorsInRange page ->
  0 <= fst (sampleGrid page overlayId) <= snd (sampleGrid page overlayId).
Proof.
  intros Hpage. unfold sampleGrid.
  apply (fold_left_invariant (fun acc : Q * Q => 0 <= fst acc <= snd acc));
    [| simpl; lra].
  intros acc x _ Hacc.
  apply (fold_left_invariant (fun acc : Q * Q => 0 <= fst acc <= snd acc));
    [| assumption].
  intros [total count] y _ Hok. unfold samplePoint.
  destruct (readPoint page overlayId x y) as [v |] eqn:Hread; [| assumption].
  pose proof (readPoint_unit _ _ _ _ _ Hpage Hread). simpl in Hok |- *. lra.
Qed.

Lemma sampleAnchor_range (color : string) (w : Q) (acc : Q * Q) :
  channelsInRange color -> 0 <= w -> 0 <= fst acc <= snd acc ->
  0 <= fst (sampleAnchor color w acc) <= snd (sampleAnchor color w acc).
Proof.
  intros Hc Hw Hacc. destruct acc as [total count]. unfold sampleAnchor.
  destruct (getColorBrightness color) as [v |] eqn:Hv; [| assumption].
  pose proof (getColorBrightness_unit _ _ Hc Hv). simpl in Hacc |- *. nra.
Qed.

Lemma sampleGrid_noSignal (page : Page) (overlayId : string) :
  noSignal page overlayId -> sampleGrid page overlayId = (0, 0).
Proof.
  intros (Hgrid & _ & _). unfold sampleGrid.
  apply (fold_left_invariant (fun acc : Q * Q => acc = (0, 0)));
    [| reflexivity].
  intros acc x Hx ->. apply in_seq in Hx.
  apply (fold_left_invariant (fun acc : Q * Q => acc = (0, 0)));
    [| reflexivity].
  intros acc y Hy ->. apply in_seq in Hy.
  unfold samplePoint. rewrite Hgrid by lia. reflexivity.
Qed.

(** C8, as stated, fails.  The pattern accepts any run of digits as a channel
    and nothing clamps it: a root background "rgb(999, 999, 999)" on a page
    with no other signal is sampled as 999/255. *)
Lemma samplePageBrightness_range_counterexample :
  samplePageBrightness (rootOnlyPage "rgb(999, 999, 999)") "auto-dimmer-overlay"
  == 999 / 255
  /\ ~ (0 <= samplePageBrightness (rootOnlyPage "rgb(999, 999, 999)")
                "auto-dimmer-overlay" <= 1).
Proof.
  split.
  - vm_compute. reflexivity.
  - intros [_ H]. vm_compute in H. now apply H.
Qed.

(** C8, amended.  When every color string the page supplies has its channels
    within 0..255, [samplePageBrightness] returns a value in [0,1]; and on any
    page, when no sample is accepted, it returns exactly 0.5. *)
Theorem samplePageBrightness_range (page : Page) (overlayId : string) :
  (pageColorsInRange page ->
   0 <= samplePageBrightness page overlayId <= 1)
  /\ (noSignal page overlayId -> samplePageBrightness page overlayId = 0.5).
Proof.
  split.
  - intros Hpage. unfold samplePageBrightness. cbv zeta.
    pose proof (sampleGrid_range page overlayId Hpage) as Hgrid.
    set (grid := sampleGrid page overlayId) in *.
    assert (Hw : 0 <= Qmax (snd grid) 1) by q_solve.
    set (w := Qmax (snd grid) 1) in *.
    destruct Hpage as (_ & Hbody & Hroot).
    assert (Hafter :
      0 <= fst (match body page with
                | Some b => sampleAnchor (el_backgroundColor b) w grid
                | None => grid
                end)
        <= snd (match body page with
                | Some b => sampleAnchor (el_backgroundColor b) w grid
                | None => grid
                end)).
    { destruct (body page) as [b |]; [| assumption].
      apply sampleAnchor_range; auto. }
    set (afterBody := match body page with
                      | Some b => sampleAnchor (el_backgroundColor b) w grid
                      | None => grid
                      end) in *.
    pose proof (sampleAnchor_range _ w afterBody Hroot Hw Hafter) as Hfinal.
    destruct (sampleAnchor _ w afterBody) as [total count].
    simpl in Hfinal.
    destruct (Qgtb count 0) eqn:Hcount; [| lra].
    q_bool. split.
    + apply Qle_shift_div_l; lra.
    + apply Qle_shift_div_r; lra.
  - intros Hnone. unfold samplePageBrightness. cbv zeta.
    rewrite (sampleGrid_noSignal _ _ Hnone).
    destruct Hnone as (_ & Hbody & Hroot).
    assert (Hafter :
      match body page with
      | Some b => sampleAnchor (el_backgroundColor b) (Qmax (snd (0, 0)) 1) (0, 0)
      | None => (0, 0)
      end = (0, 0)).
    { destruct (body page) as [b |]; [| reflexivity].
      unfold sampleAnchor. now rewrite (Hbody b). }
    rewrite Hafter. unfold sampleAnchor. rewrite Hroot. reflexivity.
Qed.

(** The amended statement on a page whose only signal is a white root
    background, and on a page without any signal. *)
Lemma samplePageBrightness_range_witness :
  0 <= samplePageBrightness (rootOnlyPage "rgb(255, 255, 255)") "auto-dimmer-overlay" <= 1
  /\ samplePageBrightness (rootOnlyPage "white") "auto-dimmer-overlay" = 0.5.
Proof.
  split.
  - apply (samplePageBrightness_range (rootOnlyPage "rgb(255, 255, 255)")).
    split; [| split].
    + intros x y el [].
    + intros b [=].
    + vm_compute. repeat split; discriminate.
  - apply (samplePageBrightness_range (rootOnlyPage "white")).
    split; [| split].
    + reflexivity.
    + intros b [=].
    + reflexivity.
Defined.

End SamplingFacts.

(** ** Transition engine *)

Section EngineFacts.
Import Overlay Animation.

Lemma cancelAnimation_frameId (e : Engine) :
  frameId (state (cancelAnimation e)) = None.
Proof. unfold cancelAnimation. now destruct (frameId (state e)) eqn:H. Qed.

Lemma cancelAnimation_levels (e : Engine) :
  currentLevel (state (cancelAnimation e)) = currentLevel (state e)
  /\ targetLevel (state (cancelAnimation e)) = targetLevel (state e)
  /\ updates (cancelAnimation e) = updates e.
Proof. unfold cancelAnimation. now destruct (frameId (state e)). Qed.

Lemma cancelAnimation_idle (e : Engine) :
  frameId (state e) = None -> cancelAnimation e = e.
Proof. unfold cancelAnimation. now intros ->. Qed.


Lemma filter_Forall {A : Type} (P : A -> Prop) (f : A -> bool) (l : list A) :
  Forall P l -> Forall P (List.filter f l).
Proof.
  induction 1 as [| a l Ha _ IH]; simpl; [constructor |].
  destruct (f a); [now constructor | assumption].
Qed.


(** What one run of [animate] does to the levels and to the log. *)
Lemma animate_levels (cb : Closure) (t : Q) (e : Engine) :
  exists v,
    unit_interval v
    /\ currentLevel (state (animate cb t e)) = v
    /\ targetLevel (state (animate cb t e)) = targetLevel (state e)
    /\ updates (animate cb t e) = (updates e ++ [v])%list.
Proof.
  unfold animate. cbv zeta.
  match goal with |- context [clamp ?x 0 1] => exists (clamp x 0 1) end.
  split; [apply clamp_unit |].
  now destruct (Qltb _ 1).
Qed.







(** *** Frames *)

Lemma deliverFrame_idle (t : Q) (e : Engine) :
  Idle e ->
  Idle (deliverFrame t e) /\ state (deliverFrame t e) = state e
  /\ updates (deliverFrame t e) = updates e.
Proof.
  intros [Hf Hq]. unfold deliverFrame, Idle. rewrite Hq. simpl. auto.
Qed.

Lemma deliverFrame_flying (cb : Closure) (t : Q) (e : Engine) :
  Flying cb e ->
  deliverFrame t e
  = animate cb t {| state := state e;
                    window := {| rafCallbacks := [];
                                 rafCounter := rafCounter (window e) |};
                    updates := updates e |}.
Proof.
  intros (h & _ & Hq). unfold deliverFrame. now rewrite Hq.
Qed.

(** The last step of the interpolation lands on the target. *)
Lemma interpolation_end (startLevel target progress : Q) :
  unit_interval target -> progress == 1 ->
  clamp (startLevel + (target - startLevel) * progress) 0 1 == target.
Proof.
  intros Ht Hp.
  assert (E : startLevel + (target - startLevel) * progress == target)
    by (rewrite Hp; ring).
  rewrite (clamp_compat _ _ 0 1 E). now apply clamp_fix.
Qed.

(** A frame of a transition in flight either ends it on the target or
    requests the next frame of the same transition. *)
Lemma deliverFrame_step (cb : Closure) (t : Q) (e : Engine) :
  Flying cb e -> unit_interval (targetLevel (state e)) ->
  targetLevel (state (deliverFrame t e)) = targetLevel (state e)
  /\ (Settled (deliverFrame t e) \/ Flying cb (deliverFrame t e)).
Proof.
  intros Hfly Ht. rewrite (deliverFrame_flying cb t e Hfly).
  unfold animate. cbv zeta. simpl.
  destruct (Qltb _ 1) eqn:Hp; simpl.
  - split; [reflexivity |]. right. unfold Flying. simpl. eauto.
  - split; [reflexivity |]. left. unfold Settled, Idle. simpl.
    repeat split. apply interpolation_end; [assumption |].
    q_bool. q_solve.
Qed.

(** A frame at or after the end of the transition ends it. *)
Lemma deliverFrame_last (cb : Closure) (t : Q) (e : Engine) :
  Flying cb e -> unit_interval (targetLevel (state e)) ->
  0 < duration cb -> startTime cb + duration cb <= t ->
  Settled (deliverFrame t e).
Proof.
  intros Hfly Ht Hd Hlate.
  destruct (deliverFrame_step cb t e Hfly Ht) as [_ [Hs | Hf]]; [assumption |].
  exfalso. rewrite (deliverFrame_flying cb t e Hfly) in Hf.
  unfold animate in Hf. cbv zeta in Hf.
  assert (Hq : 1 <= (t - startTime cb) / duration cb)
    by (apply Qle_shift_div_l; lra).
  destruct (Qltb _ 1) eqn:Hp.
  - q_bool. q_solve.
  - destruct Hf as (h & Hh & _). simpl in Hh. discriminate.
Qed.

Lemma deliverFrames_settled (times : list Q) (e : Engine) :
  Settled e ->
  Settled (deliverFrames times e)
  /\ state (deliverFrames times e) = state e
  /\ updates (deliverFrames times e) = updates e.
Proof.
  revert e. induction times as [| t times IH]; intros e Hs; [auto |].
  destruct Hs as [Hidle Heq].
  destruct (deliverFrame_idle t e Hidle) as (Hidle' & Hst & Hup).
  assert (Hs' : Settled (deliverFrame t e)).
  { split; [assumption |]. now rewrite Hst. }
  destruct (IH _ Hs') as (H1 & H2 & H3).
  change (deliverFrames (t :: times) e)
    with (deliverFrames times (deliverFrame t e)).
  repeat split; try apply H1; congruence.
Qed.

(** Once a frame at or after the end of the transition is among the frames
    delivered, the engine is settled on the target. *)
Lemma deliverFrames_settle (cb : Closure) (times : list Q) (e : Engine) :
  Flying cb e -> unit_interval (targetLevel (state e)) -> 0 < duration cb ->
  Exists (fun t => startTime cb + duration cb <= t) times ->
  Settled (deliverFrames times e)
  /\ targetLevel (state (deliverFrames times e)) = targetLevel (state e).
Proof.
  intros Hfly Ht Hd Hex. revert e Hfly Ht.
  induction Hex as [t times Hlate | t times Hex IH]; intros e Hfly Ht;
    change (deliverFrames (t :: times) e)
      with (deliverFrames times (deliverFrame t e));
    destruct (deliverFrame_step cb t e Hfly Ht) as [Htgt Hcase].
  - pose proof (deliverFrame_last cb t e Hfly Ht Hd Hlate) as Hs.
    destruct (deliverFrames_settled times _ Hs) as (H1 & H2 & _).
    split; [assumption | congruence].
  - destruct Hcase as [Hs | Hf].
    + destruct (deliverFrames_settled times _ Hs) as (H1 & H2 & _).
      split; [assumption | congruence].
    + destruct (IH _ Hf) as [H1 H2]; [now rewrite Htgt |].
      split; [assumption | congruence].
Qed.

(** *** Requests *)

Lemma animateDimLevel_deadband (e : Engine) (target d now : Q) :
  Qabs (clamp target 0 1 - targetLevel (state e)) < 0.05 ->
  animateDimLevel e target d now = e.
Proof.
  intros H. unfold animateDimLevel. cbv zeta.
  apply Qltb_lt in H. now rewrite H.
Qed.

(** [clamp] does not move a requested level away from a level of [0,1]. *)
Lemma clamp_nonexpansive (v w : Q) :
  unit_interval w -> Qabs (clamp v 0 1 - w) <= Qabs (v - w).
Proof. unfold unit_interval, clamp. intros H. q_solve. Qed.

Lemma animateDimLevel_starts (e : Engine) (target d now : Q) :
  0.05 <= Qabs (clamp target 0 1 - targetLevel (state e)) ->
  Idle e \/ Animating e ->
  let e1 := animateDimLevel e target d now in
  Flying {| startLevel := clamp (currentLevel (state e)) 0 1;
            startTime := now;
            duration := d |} e1
  /\ targetLevel (state e1) = clamp target 0 1
  /\ currentLevel (state e1) = currentLevel (state e)
  /\ updates e1 = updates e.
Proof.
  intros Hfar Hstate. unfold animateDimLevel. cbv zeta.
  apply Qltb_ge in Hfar. rewrite Hfar.
  unfold cancelAnimation, Flying. simpl.
  destruct Hstate as [[Hf Hq] | (cb0 & h & Hf & Hq)]; rewrite Hf; simpl;
    rewrite Hq; simpl.
  - repeat split. eauto.
  - rewrite Nat.eqb_refl. simpl. repeat split. eauto.
Qed.

(** In exact arithmetic a settled engine has its two levels equal; what is
    stated of the program is that they are less than 0.001 apart. *)
Lemma settled_close (e : Engine) :
  Settled e -> Qabs (currentLevel (state e) - targetLevel (state e)) < 0.001.
Proof.
  intros [_ Heq].
  set (c := currentLevel (state e)) in *. set (g := targetLevel (state e)) in *.
  clearbody c g. q_solve.
Qed.

(** The last step of the interpolation, as a formula. *)
Lemma settled_formula (e : Engine) (s : Q) :
  Settled e -> unit_interval (targetLevel (state e)) ->
  currentLevel (state e)
  == clamp (s + (targetLevel (state e) - s) * 1) 0 1.
Proof.
  intros [_ Heq] Ht. rewrite Heq. symmetry. now apply interpolation_end.
Qed.

(** C4, as stated, fails in binary64.  A transition from 0 to 0.3 ends with
    both levels at 0.3; the transition from there on to 0.9, requested on
    the idle engine, ends with the handle null and no frame requested, the
    target at 0.9 and the current level at 0.9000000000000001, the value of
    [0.3 + (0.9 - 0.3) * 1]: the two levels are not equal, and are less than
    0.001 apart; later frames change nothing.  A transition of duration 0
    whose frame has the time stamp of the request ends with the handle null
    and the current level NaN.  And on the idle engine with both levels at
    1, a request for 1.5, which is 0.5 away, changes nothing. *)
Lemma animateDimLevel_settles_counterexample :
  Animation64.Idle (Animation64.run Animation64.firstTransition
                      Animation64.createEngine)
  /\ Animation64.currentLevel
       (Animation64.state (Animation64.run Animation64.firstTransition
                             Animation64.createEngine))
     = 0x1.3333333333333p-2%float
  /\ Animation64.targetLevel
       (Animation64.state (Animation64.run Animation64.firstTransition
                             Animation64.createEngine))
     = 0x1.3333333333333p-2%float
  /\ Animation64.Idle (Animation64.run Animation64.twoTransitions
                         Animation64.createEngine)
  /\ Animation64.targetLevel
       (Animation64.state (Animation64.run Animation64.twoTransitions
                             Animation64.createEngine))
     = 0x1.ccccccccccccdp-1%float
  /\ Animation64.currentLevel
       (Animation64.state (Animation64.run Animation64.twoTransitions
                             Animation64.createEngine))
     = 0x1.ccccccccccccep-1%float
  /\ PrimFloat.eqb
       (Animation64.currentLevel
          (Animation64.state (Animation64.run Animation64.twoTransitions
                                Animation64.createEngine)))
       (Animation64.targetLevel
          (Animation64.state (Animation64.run Animation64.twoTransitions
                                Animation64.createEngine)))
     = false
  /\ PrimFloat.ltb
       (abs (Animation64.currentLevel
               (Animation64.state (Animation64.run Animation64.twoTransitions
                                     Animation64.createEngine))
             - Animation64.targetLevel
                 (Animation64.state (Animation64.run Animation64.twoTransitions
                                       Animation64.createEngine)))%float)
       0x1.0624dd2f1a9fcp-10
     = true
  /\ Animation64.state
       (Animation64.run
          (Animation64.twoTransitions
           ++ [Animation64.OpFrame 2000; Animation64.OpFrame 3000])%list
          Animation64.createEngine)
     = Animation64.state (Animation64.run Animation64.twoTransitions
                            Animation64.createEngine)
  /\ Animation64.Idle (Animation64.run Animation64.zeroDuration
                         Animation64.createEngine)
  /\ is_nan (Animation64.currentLevel
               (Animation64.state (Animation64.run Animation64.zeroDuration
                                     Animation64.createEngine)))
     = true
  /\ Animation64.run Animation64.beyondRange Animation64.createEngine
     = Animation64.run [Animation64.OpImmediate 1] Animation64.createEngine.
Proof.
  split; [split; vm_compute; reflexivity |].
  do 2 (split; [vm_compute; reflexivity |]).
  split; [split; vm_compute; reflexivity |].
  do 5 (split; [vm_compute; reflexivity |]).
  split; [split; vm_compute; reflexivity |].
  split; vm_compute; reflexivity.
Qed.

(** C4, amended.  A request whose clamped target is less than 0.05 away from
    the current target changes nothing: no field of the state, no requested
    frame, no call of [onUpdate]; so does a request less than 0.05 away from
    a current target of [0,1].  For a requested level of [0,1], a distance of
    at least 0.05 is one after clamping too.  A request at least 0.05 away on
    an idle engine, with a positive duration, leaves the engine animating
    towards the clamped target without having called [onUpdate]; and once
    the frames delivered include one at or after [now + duration], the handle
    is cleared, no frame is requested, [targetLevel] is the clamped target,
    and [currentLevel] is the value of the last interpolation step,
    [clamp (startLevel + (targetLevel - startLevel) * 1) 0 1], which is less
    than 0.001 away from [targetLevel]. *)
Theorem animateDimLevel_deadband_then_settles
    (e : Engine) (target d now : Q) :
  (Qabs (clamp target 0 1 - targetLevel (state e)) < 0.05 ->
   animateDimLevel e target d now = e)
  /\ (unit_interval (targetLevel (state e)) ->
      Qabs (target - targetLevel (state e)) < 0.05 ->
      animateDimLevel e target d now = e)
  /\ (unit_interval target ->
      0.05 <= Qabs (target - targetLevel (state e)) ->
      0.05 <= Qabs (clamp target 0 1 - targetLevel (state e)))
  /\ (0.05 <= Qabs (clamp target 0 1 - targetLevel (state e)) ->
      Idle e -> 0 < d ->
      let e1 := animateDimLevel e target d now in
      Animating e1
      /\ targetLevel (state e1) = clamp target 0 1
      /\ updates e1 = updates e
      /\ forall times,
           Exists (fun t => now + d <= t) times ->
           let e2 := deliverFrames times e1 in
           Idle e2
           /\ targetLevel (state e2) = clamp target 0 1
           /\ currentLevel (state e2)
              == clamp (clamp (currentLevel (state e)) 0 1
                        + (targetLevel (state e2)
                           - clamp (currentLevel (state e)) 0 1) * 1) 0 1
           /\ Qabs (currentLevel (state e2) - targetLevel (state e2)) < 0.001).
Proof.
  split; [apply animateDimLevel_deadband |]. split; [| split].
  - intros Ht Hnear. apply animateDimLevel_deadband.
    pose proof (clamp_nonexpansive target _ Ht). lra.
  - unfold unit_interval, clamp. intros Ht Hfar. q_solve.
  - intros Hfar Hidle Hd.
    destruct (animateDimLevel_starts e target d now Hfar (or_introl Hidle))
      as (Hfly & Htgt & _ & Hupd).
    cbv zeta. split; [eexists; exact Hfly |]. split; [assumption |].
    split; [assumption |].
    intros times Hex.
    assert (Hunit : unit_interval
                      (targetLevel (state (animateDimLevel e target d now))))
      by (rewrite Htgt; apply clamp_unit).
    destruct (deliverFrames_settle _ times _ Hfly Hunit Hd Hex)
      as [Hsettled Htgt2].
    split; [apply Hsettled |]. split; [congruence |].
    split; [| now apply settled_close].
    apply settled_formula; [assumption |]. now rewrite Htgt2.
Qed.

(** The theorem on a new engine: a request for 0.02 is dropped; and on the
    engine that a transition to 0.3 has left idle: a request for 0.9 over
    500 ms at 1000 ms is ended by the frames at 1250 and 1500 ms, with the
    levels less than 0.001 apart. *)
Lemma animateDimLevel_deadband_then_settles_witness :
  animateDimLevel createEngine 0.02 500 0 = createEngine
  /\ Idle (deliverFrames [1250; 1500]
             (animateDimLevel
                (deliverFrames [250; 500]
                   (animateDimLevel createEngine 0.3 500 0))
                0.9 500 1000))
  /\ Qabs (currentLevel
             (state (deliverFrames [1250; 1500]
                       (animateDimLevel
                          (deliverFrames [250; 500]
                             (animateDimLevel createEngine 0.3 500 0))
                          0.9 500 1000)))
           - targetLevel
               (state (deliverFrames [1250; 1500]
                         (animateDimLevel
                            (deliverFrames [250; 500]
                               (animateDimLevel createEngine 0.3 500 0))
                            0.9 500 1000))))
     < 0.001.
Proof.
  split.
  - apply (proj1 (animateDimLevel_deadband_then_settles createEngine 0.02 500 0)).
    vm_compute. reflexivity.
  - pose proof (proj2 (proj2 (proj2 (animateDimLevel_deadband_then_settles
                  (deliverFrames [250; 500]
                     (animateDimLevel createEngine 0.3 500 0))
                  0.9 500 1000)))) as H.
    cbv zeta in H.
    destruct H as (_ & _ & _ & H).
    + vm_compute. discriminate.
    + split; vm_compute; reflexivity.
    + reflexivity.
    + destruct (H [1250; 1500]) as (Hidle & _ & _ & Hclose).
      * right. left. vm_compute. discriminate.
      * split; [exact Hidle | exact Hclose].
Defined.

(** *** The idle invariant *)

Lemma setDimLevelImmediate_settled (e : Engine) (level : Q) :
  Idle e \/ Animating e -> Settled (setDimLevelImmediate e level).
Proof.
  intros Hstate. unfold setDimLevelImmediate, Settled, Idle, cancelAnimation.
  cbv zeta.
  destruct Hstate as [[Hf Hq] | (cb0 & h & Hf & Hq)]; rewrite Hf; simpl.
  - rewrite Hf. repeat split; solve [assumption | reflexivity].
  - rewrite Hq. simpl. rewrite Nat.eqb_refl. simpl.
    repeat split; reflexivity.
Qed.


Lemma cancelAnimation_returns_idle (e : Engine) :
  Idle e \/ Animating e -> Idle (cancelAnimation e).
Proof.
  intros [Hidle | (cb & h & Hf & Hq)].
  - now rewrite cancelAnimation_idle by apply Hidle.
  - unfold cancelAnimation, Idle. rewrite Hf. simpl. rewrite Hq. simpl.
    now rewrite Nat.eqb_refl.
Qed.






End EngineFacts.

(** ** Control loop *)

Section ControlLoopFacts.
Import Overlay Policy Brightness Patterns Settings Animation Content.

Lemma with_isChecking_restore (c : Content) :
  isChecking c = false -> with_isChecking false c = c.
Proof. destruct c. simpl. now intros ->. Qed.

(** A run of [checkAndDim] that finds the flag clear is its [try] block: the
    block neither reads nor writes the flag, which is clear again at the
    end. *)
Lemma checkAndDim_unguarded (env : Env) (c : Content) :
  isChecking c = false -> checkAndDim env c = checkAndDim_body env c.
Proof.
  intros Hc. unfold checkAndDim. rewrite Hc.
  destruct c as [s e lb sb la ic n sv]. simpl in Hc. subst ic.
  unfold checkAndDim_body. simpl.
  destruct (negb _ || _).
  - destruct (negb (Qeq_bool la 0)); [| reflexivity].
    unfold setDimLevel. simpl. now destruct (smoothing _).
  - destruct (Qgeb _ _); [| reflexivity].
    unfold setDimLevel. simpl. now destruct (smoothing _).
Qed.

Lemma setDimLevel_fields (env : Env) (level : Q) (c : Content) :
  settings (setDimLevel env level c) = settings c
  /\ lastBrightness (setDimLevel env level c) = lastBrightness c
  /\ smoothedBrightness (setDimLevel env level c) = smoothedBrightness c
  /\ lastAppliedDim (setDimLevel env level c) = lastAppliedDim c
  /\ isChecking (setDimLevel env level c) = isChecking c
  /\ samplings (setDimLevel env level c) = samplings c
  /\ saves (setDimLevel env level c) = saves c.
Proof. unfold setDimLevel. now destruct (smoothing _). Qed.

(** [setDimLevel] does not look at the document. *)
Lemma setDimLevel_page (p : Page) (env : Env) (level : Q) (c : Content) :
  setDimLevel (with_page p env) level c = setDimLevel env level c.
Proof. reflexivity. Qed.

Lemma checkAndDim_suppressed (env : Env) (c : Content) :
  isChecking c = false ->
  isBlacklisted (settings c) (hostname env) = true ->
  checkAndDim env c
  = if negb (Qeq_bool (lastAppliedDim c) 0)
    then with_lastAppliedDim 0 (setDimLevel env 0 c)
    else c.
Proof.
  intros Hc Hbl. rewrite checkAndDim_unguarded by assumption.
  unfold checkAndDim_body. cbv zeta. now rewrite Hbl, orb_true_r.
Qed.

Lemma dimAmountFor_whitelisted (s eff : Settings) (h : string) (b : Q) :
  isWhitelisted s h = true -> dimAmountFor s eff h b = dimIntensity eff.
Proof. intros H. unfold dimAmountFor. now rewrite H. Qed.

(** A cycle that is neither skipped nor suppressed: the reading, the
    smoothed value and the amount it computes, and what it does with them. *)
Lemma checkAndDim_sampled (env : Env) (c : Content) :
  isChecking c = false ->
  enabled (getEffectiveSettings (settings c) (hostname env)) = true ->
  isBlacklisted (settings c) (hostname env) = false ->
  let raw := samplePageBrightness (page env) OVERLAY_ID in
  let smoothed := smooth (smoothedBrightness c) raw in
  let dimAmount :=
    dimAmountFor (settings c) (getEffectiveSettings (settings c) (hostname env))
      (hostname env) smoothed in
  let c' := checkAndDim env c in
  settings c' = settings c
  /\ isChecking c' = false
  /\ lastBrightness c' = Some raw
  /\ smoothedBrightness c' = Some smoothed
  /\ samplings c' = S (samplings c)
  /\ lastAppliedDim c'
     = (if Qgeb (Qabs (dimAmount - lastAppliedDim c)) DIM_CHANGE_THRESHOLD
        then dimAmount else lastAppliedDim c)
  /\ animationState c'
     = (if Qgeb (Qabs (dimAmount - lastAppliedDim c)) DIM_CHANGE_THRESHOLD
        then animationState (setDimLevel env dimAmount c)
        else animationState c).
Proof.
  intros Hc Hen Hbl. cbv zeta.
  rewrite checkAndDim_unguarded by assumption.
  unfold checkAndDim_body. cbv zeta. rewrite Hen, Hbl. simpl.
  destruct (Qgeb _ _); simpl; [| repeat split; assumption].
  unfold setDimLevel. simpl.
  destruct (smoothing _); simpl; repeat split; assumption.
Qed.

(** C2. In a cycle with the site enabled (and the re-entrancy flag clear):
    on a blacklisted host the document is not sampled (the count of
    samplings, the last reading and the smoothed value are as before, and the
    outcome is the same for every document), nothing is saved, the only level
    requested, if any, is 0, and the applied dim ends at 0, whether or not the
    host is also whitelisted; on a whitelisted host that is not blacklisted
    the dim amount is the effective [dimIntensity] for every brightness, the
    document is sampled once, and the amount is applied exactly when it
    differs by at least 0.03 from the last applied dim, so that the applied
    dim and the engine do not depend on the document. *)
Theorem checkAndDim_lists (env : Env) (c : Content) :
  isChecking c = false ->
  enabled (getEffectiveSettings (settings c) (hostname env)) = true ->
  (isBlacklisted (settings c) (hostname env) = true ->
   lastAppliedDim (checkAndDim env c) == 0
   /\ samplings (checkAndDim env c) = samplings c
   /\ lastBrightness (checkAndDim env c) = lastBrightness c
   /\ smoothedBrightness (checkAndDim env c) = smoothedBrightness c
   /\ saves (checkAndDim env c) = saves c
   /\ (checkAndDim env c = c
       \/ checkAndDim env c = with_lastAppliedDim 0 (setDimLevel env 0 c))
   /\ forall p, checkAndDim (with_page p env) c = checkAndDim env c)
  /\ (isBlacklisted (settings c) (hostname env) = false ->
      isWhitelisted (settings c) (hostname env) = true ->
      let intensity :=
        dimIntensity (getEffectiveSettings (settings c) (hostname env)) in
      (forall b,
         dimAmountFor (settings c)
           (getEffectiveSettings (settings c) (hostname env)) (hostname env) b
         = intensity)
      /\ samplings (checkAndDim env c) = S (samplings c)
      /\ (DIM_CHANGE_THRESHOLD <= Qabs (intensity - lastAppliedDim c) ->
          lastAppliedDim (checkAndDim env c) = intensity
          /\ animationState (checkAndDim env c)
             = animationState (setDimLevel env intensity c))
      /\ (Qabs (intensity - lastAppliedDim c) < DIM_CHANGE_THRESHOLD ->
          lastAppliedDim (checkAndDim env c) = lastAppliedDim c
          /\ animationState (checkAndDim env c) = animationState c)
      /\ forall p,
          lastAppliedDim (checkAndDim (with_page p env) c)
          = lastAppliedDim (checkAndDim env c)
          /\ animationState (checkAndDim (with_page p env) c)
             = animationState (checkAndDim env c)).
Proof.
  intros Hc Hen. split.
  - intros Hbl.
    assert (Hpage : forall p, checkAndDim (with_page p env) c = checkAndDim env c).
    { intros p. now rewrite !checkAndDim_suppressed by assumption. }
    pose proof (checkAndDim_suppressed env c Hc Hbl) as Heq.
    destruct (setDimLevel_fields env 0 c) as (_ & Hlb & Hsb & _ & _ & Hn & Hsv).
    destruct (Qeq_bool (lastAppliedDim c) 0) eqn:Hz; simpl in Heq.
    + apply Qeq_bool_iff in Hz.
      repeat split; try exact Hpage; try (rewrite Heq; auto).
    + repeat split; try exact Hpage; try (rewrite Heq; auto).
      reflexivity.
  - intros Hbl Hwl. cbv zeta.
    pose proof (fun p => checkAndDim_sampled (with_page p env) c Hc Hen Hbl)
      as Hany.
    destruct (checkAndDim_sampled env c Hc Hen Hbl)
      as (_ & _ & _ & _ & Hn & Hla & Han).
    cbv zeta in Hany, Hla, Han.
    rewrite dimAmountFor_whitelisted in Hla, Han by assumption.
    split; [intros b; now apply dimAmountFor_whitelisted |].
    split; [assumption |]. split; [| split].
    + intros Hfar. apply Qle_bool_iff in Hfar.
      unfold Qgeb in Hla, Han. rewrite Hfar in Hla, Han. now split.
    + intros Hnear. apply Qle_bool_gt in Hnear.
      unfold Qgeb in Hla, Han. rewrite Hnear in Hla, Han. now split.
    + intros p. destruct (Hany p) as (_ & _ & _ & _ & _ & Hla' & Han').
      simpl hostname in Hla', Han'.
      rewrite dimAmountFor_whitelisted in Hla', Han' by assumption.
      rewrite Hla, Han, Hla', Han'. now split.
Qed.

(** The theorem on "www.example.com": with "example.com" on both lists and
    a dim of 0.3 applied, a cycle on a white page does not sample and ends
    with no dim applied; with "example.com" on the whitelist only, a cycle on
    a black page applies the intensity 0.3. *)
Lemma checkAndDim_lists_witness :
  (lastAppliedDim
     (checkAndDim (envOf "www.example.com" "rgb(255, 255, 255)")
        (with_lastAppliedDim 0.3
           (contentWith (listedSettings ["example.com"] ["example.com"]))))
   == 0
   /\ samplings
        (checkAndDim (envOf "www.example.com" "rgb(255, 255, 255)")
           (with_lastAppliedDim 0.3
              (contentWith (listedSettings ["example.com"] ["example.com"]))))
      = 0%nat)
  /\ lastAppliedDim
       (checkAndDim (envOf "www.example.com" "rgb(0, 0, 0)")
          (contentWith (listedSettings [] ["example.com"])))
     = 0.3.
Proof.
  split.
  - pose proof (proj1 (checkAndDim_lists
                         (envOf "www.example.com" "rgb(255, 255, 255)")
                         (with_lastAppliedDim 0.3
                            (contentWith
                               (listedSettings ["example.com"] ["example.com"])))
                         eq_refl eq_refl) eq_refl) as (H1 & H2 & _).
    split; [exact H1 | exact H2].
  - pose proof (proj2 (checkAndDim_lists
                         (envOf "www.example.com" "rgb(0, 0, 0)")
                         (contentWith (listedSettings [] ["example.com"]))
                         eq_refl eq_refl) eq_refl eq_refl) as (_ & _ & Hfar & _).
    apply Hfar. vm_compute. discriminate.
Defined.

(** *** Smoothing *)

Lemma smooth_first (raw : Q) : smooth None raw = raw.
Proof. reflexivity. Qed.

Lemma smooth_later (previous raw : Q) :
  smooth (Some previous) raw == 0.3 * raw + 0.7 * previous.
Proof. unfold smooth, BRIGHTNESS_SMOOTHING. ring. Qed.

Lemma scenario_effective (f : bool) (ms : Q) (h : string) :
  getEffectiveSettings (scenarioSettings f ms) h = scenarioSettings f ms.
Proof. unfold getEffectiveSettings. simpl. now rewrite lookup_empty. Qed.

(** One cycle of the scenario: the reading is 0.9 and the smoothed value so
    far, if any, is 0.9. *)
Lemma scenario_cycle (f : bool) (ms : Q) (env : Env) (c : Content) :
  settings c = scenarioSettings f ms -> isChecking c = false ->
  samplePageBrightness (page env) OVERLAY_ID == 0.9 ->
  (smoothedBrightness c = None
   \/ exists p, smoothedBrightness c = Some p /\ p == 0.9) ->
  (lastAppliedDim c == 0 \/ lastAppliedDim c == 0.375) ->
  settings (checkAndDim env c) = scenarioSettings f ms
  /\ isChecking (checkAndDim env c) = false
  /\ (exists s, smoothedBrightness (checkAndDim env c) = Some s /\ s == 0.9)
  /\ cycleDimAmount env c == 0.375
  /\ lastAppliedDim (checkAndDim env c) == 0.375.
Proof.
  intros Hset Hc Hraw Hsm Hla.
  assert (Heff : getEffectiveSettings (settings c) (hostname env)
                 = scenarioSettings f ms)
    by (rewrite Hset; apply scenario_effective).
  assert (Hen : enabled (getEffectiveSettings (settings c) (hostname env)) = true)
    by now rewrite Heff.
  assert (Hbl : isBlacklisted (settings c) (hostname env) = false)
    by now rewrite Hset.
  destruct (checkAndDim_sampled env c Hc Hen Hbl)
    as (Hset' & Hc' & _ & Hsm' & _ & Hla' & _).
  cbv zeta in Hsm', Hla'.
  fold (cycleDimAmount env c) in Hla'.
  set (raw := samplePageBrightness (page env) OVERLAY_ID) in *.
  assert (Hs : smooth (smoothedBrightness c) raw == 0.9).
  { destruct Hsm as [-> | (p & -> & Hp)].
    - now rewrite smooth_first.
    - rewrite smooth_later. lra. }
  assert (Hdim : cycleDimAmount env c == 0.375).
  { unfold cycleDimAmount, dimAmountFor. fold raw. rewrite Heff, Hset. simpl.
    rewrite calculateDimAmount_scaled by lra.
    rewrite Hs. reflexivity. }
  split; [congruence |]. split; [assumption |].
  split; [eexists; split; [exact Hsm' | exact Hs] |].
  split; [assumption |].
  rewrite Hla'. unfold DIM_CHANGE_THRESHOLD.
  destruct (Qgeb _ _) eqn:Hfar; [assumption |].
  q_bool. destruct Hla as [Hz | Hd]; [| assumption].
  exfalso. unfold DIM_CHANGE_THRESHOLD in Hfar. q_solve.
Qed.

(** C7. A cycle that samples stores the raw reading as the smoothed value
    when there is none yet, and [0.3 * raw + 0.7 * previous] otherwise.  With
    the configuration of the scenario and a reading of 0.9 on each of the
    first three cycles, the smoothed value is 0.9 after each cycle, the dim
    amount computed in each cycle is 0.375, and so is the applied dim. *)
Theorem smoothing_scenario :
  (forall env c,
     isChecking c = false ->
     enabled (getEffectiveSettings (settings c) (hostname env)) = true ->
     isBlacklisted (settings c) (hostname env) = false ->
     (smoothedBrightness c = None ->
      smoothedBrightness (checkAndDim env c)
      = Some (samplePageBrightness (page env) OVERLAY_ID))
     /\ (forall previous,
          smoothedBrightness c = Some previous ->
          exists s,
            smoothedBrightness (checkAndDim env c) = Some s
            /\ s == 0.3 * samplePageBrightness (page env) OVERLAY_ID
                    + 0.7 * previous))
  /\ (forall f ms env1 env2 env3,
        samplePageBrightness (page env1) OVERLAY_ID == 0.9 ->
        samplePageBrightness (page env2) OVERLAY_ID == 0.9 ->
        samplePageBrightness (page env3) OVERLAY_ID == 0.9 ->
        let c0 := contentWith (scenarioSettings f ms) in
        let c1 := checkAndDim env1 c0 in
        let c2 := checkAndDim env2 c1 in
        let c3 := checkAndDim env3 c2 in
        (exists s1 s2 s3,
           smoothedBrightness c1 = Some s1 /\ s1 == 0.9
           /\ smoothedBrightness c2 = Some s2 /\ s2 == 0.9
           /\ smoothedBrightness c3 = Some s3 /\ s3 == 0.9)
        /\ cycleDimAmount env1 c0 == 0.375
        /\ cycleDimAmount env2 c1 == 0.375
        /\ cycleDimAmount env3 c2 == 0.375
        /\ lastAppliedDim c1 == 0.375
        /\ lastAppliedDim c2 == 0.375
        /\ lastAppliedDim c3 == 0.375).
Proof.
  split.
  - intros env c Hc Hen Hbl.
    destruct (checkAndDim_sampled env c Hc Hen Hbl) as (_ & _ & _ & Hsm & _).
    cbv zeta in Hsm. split.
    + intros Hnone. now rewrite Hsm, Hnone.
    + intros previous Hprev. eexists. split; [exact Hsm |].
      rewrite Hprev. apply smooth_later.
  - intros f ms env1 env2 env3 H1 H2 H3. cbv zeta.
    destruct (scenario_cycle f ms env1 (contentWith (scenarioSettings f ms)))
      as (Hset1 & Hc1 & (s1 & Hs1 & Hv1) & Hd1 & Hl1);
      [reflexivity | reflexivity | assumption | now left | now left |].
    destruct (scenario_cycle f ms env2 _ Hset1 Hc1 H2)
      as (Hset2 & Hc2 & (s2 & Hs2 & Hv2) & Hd2 & Hl2); [eauto | now right |].
    destruct (scenario_cycle f ms env3 _ Hset2 Hc2 H3)
      as (_ & _ & (s3 & Hs3 & Hv3) & Hd3 & Hl3); [eauto | now right |].
    split; [exists s1, s2, s3; auto 10 |]. auto 10.
Qed.

(** The scenario on pages whose root background "rgb(181, 251, 246)" has the
    brightness 0.9. *)
Lemma smoothing_scenario_witness :
  cycleDimAmount (envOf "example.org" "rgb(181, 251, 246)")
    (checkAndDim (envOf "example.org" "rgb(181, 251, 246)")
       (checkAndDim (envOf "example.org" "rgb(181, 251, 246)")
          (contentWith (scenarioSettings true 500))))
  == 0.375.
Proof.
  pose proof (proj2 smoothing_scenario true 500
                (envOf "example.org" "rgb(181, 251, 246)")
                (envOf "example.org" "rgb(181, 251, 246)")
                (envOf "example.org" "rgb(181, 251, 246)")) as H.
  cbv zeta in H.
  destruct H as (_ & _ & _ & H & _); [vm_compute; reflexivity .. | exact H].
Defined.

End ControlLoopFacts.

(** * Further properties of the code *)

(** ** Editing the settings (src/utils/settings.ts) *)

Section SettingsEditFacts.
Import Patterns Settings.

Lemma with_siteSettings_same (s : Settings) : with_siteSettings (siteSettings s) s = s.
Proof. now destruct s. Qed.

Lemma with_blacklist_same (s : Settings) : with_blacklist (blacklist s) s = s.
Proof. now destruct s. Qed.

Lemma with_whitelist_same (s : Settings) : with_whitelist (whitelist s) s = s.
Proof. now destruct s. Qed.

Lemma listIncludes_In (l : list string) (h : string) :
  listIncludes l h = true <-> In h l.
Proof.
  unfold listIncludes. rewrite existsb_exists. split.
  - intros (x & Hin & Heq). apply String.eqb_eq in Heq. now subst.
  - intros Hin. exists h. split; [assumption | apply String.eqb_refl].
Qed.

Lemma listIncludes_not_In (l : list string) (h : string) :
  listIncludes l h = false <-> ~ In h l.
Proof. rewrite <- listIncludes_In. now destruct (listIncludes l h). Qed.

(** Positions from [k] on: an index below [k] removes nothing. *)
Lemma filter_positions_below (l : list string) (k index : nat) :
  (index < k)%nat ->
  map snd
    (List.filter (fun p => negb (Nat.eqb (fst p) index))
       (combine (seq k (length l)) l))
  = l.
Proof.
  revert k. induction l as [| a l IH]; intros k Hlt; [reflexivity |].
  simpl. destruct (Nat.eqb_spec k index) as [-> | _]; [lia |].
  simpl. f_equal. apply IH. lia.
Qed.

Lemma filter_positions_from (l : list string) (k i : nat) :
  map snd
    (List.filter (fun p => negb (Nat.eqb (fst p) (k + i)))
       (combine (seq k (length l)) l))
  = (firstn i l ++ skipn (S i) l)%list.
Proof.
  revert k i. induction l as [| a l IH]; intros k i.
  - now destruct i.
  - simpl combine. simpl List.filter. destruct i as [| i].
    + rewrite Nat.add_0_r, Nat.eqb_refl. simpl.
      apply filter_positions_below. lia.
    + destruct (Nat.eqb_spec k (k + S i)) as [Heq | _]; [lia |].
      simpl. f_equal.
      replace (k + S i)%nat with (S k + i)%nat by lia. apply IH.
Qed.

Lemma removeIndex_spec (index : nat) (l : list string) :
  removeIndex index l = (firstn index l ++ skipn (S index) l)%list.
Proof. unfold removeIndex. apply (filter_positions_from l 0 index). Qed.

Lemma removeIndex_out_of_range (index : nat) (l : list string) :
  (length l <= index)%nat -> removeIndex index l = l.
Proof.
  intros H. rewrite removeIndex_spec.
  rewrite firstn_all2 by assumption. rewrite skipn_all2 by lia.
  apply app_nil_r.
Qed.

Lemma removeIndex_length (index : nat) (l : list string) :
  (index < length l)%nat -> length (removeIndex index l) = (length l - 1)%nat.
Proof.
  intros H. rewrite removeIndex_spec.
  rewrite length_app, length_firstn, length_skipn. lia.
Qed.

Lemma removeIndex_last (l : list string) (h : string) :
  removeIndex (length l) (l ++ [h])%list = l.
Proof.
  rewrite removeIndex_spec.
  rewrite firstn_app, firstn_all, Nat.sub_diag. simpl.
  rewrite skipn_all2 by (rewrite length_app; simpl; lia).
  now rewrite !app_nil_r.
Qed.

Lemma removeIndex_In (index : nat) (l : list string) (h : string) :
  In h (removeIndex index l) -> In h l.
Proof.
  rewrite removeIndex_spec. revert index.
  induction l as [| a l IH]; intros index H.
  - now destruct index.
  - destruct index as [| index]; simpl in H.
    + now right.
    + destruct H as [H | H]; [now left | right; eapply IH, H].
Qed.

Lemma getEffectiveSettings_fields (s : Settings) (h : string) :
  brightnessThreshold (getEffectiveSettings s h) = brightnessThreshold s
  /\ dynamicMode (getEffectiveSettings s h) = dynamicMode s
  /\ smoothing (getEffectiveSettings s h) = smoothing s
  /\ smoothingDuration (getEffectiveSettings s h) = smoothingDuration s
  /\ siteSettings (getEffectiveSettings s h) = siteSettings s
  /\ blacklist (getEffectiveSettings s h) = blacklist s
  /\ whitelist (getEffectiveSettings s h) = whitelist s.
Proof. unfold getEffectiveSettings. now destruct (siteSettings s !! h). Qed.

(** X1. After [mergeSiteSettings settings hostname override], the effective
    [enabled] and [dimIntensity] on that host are the fields of [override]
    where it has them and the former effective values where it leaves them
    out; on every other host the effective values are as before; the lists
    and the global fields are untouched. *)
Theorem mergeSiteSettings_effective (s : Settings) (h : string) (o : SiteSettings) :
  enabled (getEffectiveSettings (mergeSiteSettings s h o) h)
  = default (enabled (getEffectiveSettings s h)) (site_enabled o)
  /\ dimIntensity (getEffectiveSettings (mergeSiteSettings s h o) h)
     = default (dimIntensity (getEffectiveSettings s h)) (site_dimIntensity o)
  /\ (forall h', h' <> h ->
        enabled (getEffectiveSettings (mergeSiteSettings s h o) h')
        = enabled (getEffectiveSettings s h')
        /\ dimIntensity (getEffectiveSettings (mergeSiteSettings s h o) h')
           = dimIntensity (getEffectiveSettings s h'))
  /\ enabled (mergeSiteSettings s h o) = enabled s
  /\ dimIntensity (mergeSiteSettings s h o) = dimIntensity s
  /\ blacklist (mergeSiteSettings s h o) = blacklist s
  /\ whitelist (mergeSiteSettings s h o) = whitelist s.
Proof.
  split; [| split; [| split; [| now repeat split]]].
  - unfold getEffectiveSettings, mergeSiteSettings. simpl.
    rewrite lookup_insert_eq. simpl.
    destruct (site_enabled o); [reflexivity |].
    now destruct (siteSettings s !! h) as [[[b |] d] |].
  - unfold getEffectiveSettings, mergeSiteSettings. simpl.
    rewrite lookup_insert_eq. simpl.
    destruct (site_dimIntensity o); [reflexivity |].
    now destruct (siteSettings s !! h) as [[b [d |]] |].
  - intros h' Hne. unfold getEffectiveSettings, mergeSiteSettings. simpl.
    rewrite lookup_insert_ne by congruence.
    now destruct (siteSettings s !! h').
Qed.

(** The theorem on "example.com": an intensity of 0.8 for that site leaves
    "example.org" at the default 0.3. *)
Lemma mergeSiteSettings_effective_witness :
  dimIntensity
    (getEffectiveSettings
       (mergeSiteSettings DEFAULT_SETTINGS "example.com"
          {| site_enabled := None; site_dimIntensity := Some 0.8 |})
       "example.org")
  = dimIntensity (getEffectiveSettings DEFAULT_SETTINGS "example.org").
Proof.
  destruct (mergeSiteSettings_effective DEFAULT_SETTINGS "example.com"
              {| site_enabled := None; site_dimIntensity := Some 0.8 |})
    as (_ & _ & Hother & _).
  apply (Hother "example.org"). discriminate.
Defined.

(** X2. [clearSiteSettings] puts the host back on the global values and
    leaves every other host alone; on a host without override it changes
    nothing, it is idempotent, and it undoes a [mergeSiteSettings] on a host
    that had no override. *)
Theorem clearSiteSettings_effective (s : Settings) (h : string) :
  getEffectiveSettings (clearSiteSettings s h) h = clearSiteSettings s h
  /\ enabled (getEffectiveSettings (clearSiteSettings s h) h) = enabled s
  /\ dimIntensity (getEffectiveSettings (clearSiteSettings s h) h)
     = dimIntensity s
  /\ (forall h', h' <> h ->
        enabled (getEffectiveSettings (clearSiteSettings s h) h')
        = enabled (getEffectiveSettings s h')
        /\ dimIntensity (getEffectiveSettings (clearSiteSettings s h) h')
           = dimIntensity (getEffectiveSettings s h'))
  /\ clearSiteSettings (clearSiteSettings s h) h = clearSiteSettings s h
  /\ (siteSettings s !! h = None ->
      clearSiteSettings s h = s
      /\ forall o, clearSiteSettings (mergeSiteSettings s h o) h = s).
Proof.
  assert (Hself : getEffectiveSettings (clearSiteSettings s h) h
                  = clearSiteSettings s h).
  { unfold getEffectiveSettings, clearSiteSettings. simpl.
    now rewrite lookup_delete_eq. }
  split; [assumption |]. rewrite Hself.
  split; [reflexivity |]. split; [reflexivity |]. split; [| split].
  - intros h' Hne. unfold getEffectiveSettings, clearSiteSettings. simpl.
    rewrite lookup_delete_ne by congruence.
    now destruct (siteSettings s !! h').
  - unfold clearSiteSettings, with_siteSettings. simpl.
    f_equal. apply map_eq. intros k.
    destruct (decide (h = k)) as [-> | Hne].
    + now rewrite !lookup_delete_eq.
    + now rewrite !lookup_delete_ne.
  - intros Hnone.
    assert (Hdel : delete h (siteSettings s) = siteSettings s).
    { apply map_eq. intros k. destruct (decide (h = k)) as [-> | Hne].
      - now rewrite lookup_delete_eq.
      - now rewrite lookup_delete_ne. }
    split.
    + unfold clearSiteSettings. rewrite Hdel. apply with_siteSettings_same.
    + intros o. unfold clearSiteSettings, mergeSiteSettings. simpl.
      rewrite delete_insert_eq, Hdel. unfold with_siteSettings. simpl.
      now destruct s.
Qed.

(** The theorem on the default settings: clearing "example.com" after giving
    it an override restores them. *)
Lemma clearSiteSettings_effective_witness :
  clearSiteSettings
    (mergeSiteSettings DEFAULT_SETTINGS "example.com"
       {| site_enabled := Some false; site_dimIntensity := None |})
    "example.com"
  = DEFAULT_SETTINGS.
Proof.
  apply (proj2 (proj2 (proj2 (proj2 (proj2
           (clearSiteSettings_effective DEFAULT_SETTINGS "example.com")))))).
  reflexivity.
Defined.

Lemma addUnique_facts (l : list string) (h : string) :
  let l' := if listIncludes l h then l else (l ++ [h])%list in
  In h l'
  /\ (forall x, In x l -> In x l')
  /\ (List.NoDup l -> List.NoDup l')
  /\ listIncludes l' h = true.
Proof.
  cbv zeta. destruct (listIncludes l h) eqn:Hin.
  - pose proof (proj1 (listIncludes_In l h) Hin). auto.
  - pose proof (proj1 (listIncludes_not_In l h) Hin) as Hnot.
    assert (Hh : In h (l ++ [h])%list) by (apply in_or_app; right; now left).
    repeat split.
    + assumption.
    + intros x Hx. apply in_or_app. now left.
    + intros Hnd. apply List.NoDup_app; repeat split.
      * assumption.
      * constructor; [intros [] | constructor].
      * intros x Hx [<- | []]. contradiction.
    + now apply listIncludes_In.
Qed.

Lemma addToList_membership_lists (s : Settings) (h : string) :
  In h (blacklist (addToBlacklist s h))
  /\ In h (whitelist (addToWhitelist s h))
  /\ (forall x, In x (blacklist s) -> In x (blacklist (addToBlacklist s h)))
  /\ (forall x, In x (whitelist s) -> In x (whitelist (addToWhitelist s h))).
Proof.
  destruct (addUnique_facts (blacklist s) h) as (Hb & Hbk & _).
  destruct (addUnique_facts (whitelist s) h) as (Hw & Hwk & _).
  unfold addToBlacklist, addToWhitelist.
  destruct (listIncludes (blacklist s) h), (listIncludes (whitelist s) h);
    simpl; auto.
Qed.

(** X3. [addToBlacklist] and [addToWhitelist] leave the hostname in the list,
    append it at the end when it is not there and change nothing when it is,
    so they are idempotent and keep a list free of duplicates; the entries
    already there stay, and nothing else in the settings changes. *)
Theorem addToList_membership (s : Settings) (h : string) :
  (In h (blacklist (addToBlacklist s h))
   /\ (In h (blacklist s) -> addToBlacklist s h = s)
   /\ (~ In h (blacklist s) ->
       blacklist (addToBlacklist s h) = (blacklist s ++ [h])%list)
   /\ (forall x, In x (blacklist s) -> In x (blacklist (addToBlacklist s h)))
   /\ addToBlacklist (addToBlacklist s h) h = addToBlacklist s h
   /\ (List.NoDup (blacklist s) -> List.NoDup (blacklist (addToBlacklist s h)))
   /\ whitelist (addToBlacklist s h) = whitelist s
   /\ siteSettings (addToBlacklist s h) = siteSettings s)
  /\ (In h (whitelist (addToWhitelist s h))
      /\ (In h (whitelist s) -> addToWhitelist s h = s)
      /\ (~ In h (whitelist s) ->
          whitelist (addToWhitelist s h) = (whitelist s ++ [h])%list)
      /\ (forall x, In x (whitelist s) -> In x (whitelist (addToWhitelist s h)))
      /\ addToWhitelist (addToWhitelist s h) h = addToWhitelist s h
      /\ (List.NoDup (whitelist s) -> List.NoDup (whitelist (addToWhitelist s h)))
      /\ blacklist (addToWhitelist s h) = blacklist s
      /\ siteSettings (addToWhitelist s h) = siteSettings s).
Proof.
  split.
  - destruct (addUnique_facts (blacklist s) h) as (Hin & Hkeep & Hnd & Hinc).
    unfold addToBlacklist.
    destruct (listIncludes (blacklist s) h) eqn:Hhas.
    + pose proof (proj1 (listIncludes_In _ _) Hhas) as Hmem.
      rewrite Hhas. repeat split; auto. now intros [].
    + pose proof (proj1 (listIncludes_not_In _ _) Hhas) as Hnot.
      simpl. rewrite Hinc. repeat split; auto. now intros ?.
  - destruct (addUnique_facts (whitelist s) h) as (Hin & Hkeep & Hnd & Hinc).
    unfold addToWhitelist.
    destruct (listIncludes (whitelist s) h) eqn:Hhas.
    + pose proof (proj1 (listIncludes_In _ _) Hhas) as Hmem.
      rewrite Hhas. repeat split; auto. now intros [].
    + pose proof (proj1 (listIncludes_not_In _ _) Hhas) as Hnot.
      simpl. rewrite Hinc. repeat split; auto. now intros ?.
Qed.

(** The theorem on a blacklist that holds "a.com": adding "b.com" appends
    it. *)
Lemma addToList_membership_witness :
  blacklist (addToBlacklist (listedSettingsOf ["a.com"] []) "b.com")
  = ["a.com"; "b.com"].
Proof.
  destruct (addToList_membership (listedSettingsOf ["a.com"] []) "b.com")
    as ((_ & _ & Happend & _) & _).
  apply Happend. intros [H | []]. discriminate.
Defined.

Lemma prefix_refl (h : string) : String.prefix h h = true.
Proof.
  induction h as [| c h IH]; [reflexivity |].
  simpl. now destruct (ascii_dec c c).
Qed.

Lemma matchesPattern_refl (h : string) : h <> "" -> matchesPattern h h = true.
Proof.
  intros Hne. unfold matchesPattern.
  apply String.eqb_neq in Hne. rewrite Hne. simpl.
  destruct h as [| c h]; [discriminate |].
  change (includes (String c h) (String c h))
    with (String.prefix (String c h) (String c h) || includes h (String c h)).
  now rewrite prefix_refl.
Qed.

Lemma matchesPattern_empty_pattern (h : string) : matchesPattern h "" = false.
Proof. unfold matchesPattern. now rewrite orb_true_r. Qed.

Lemma matchesAnyPattern_app (h : string) (l1 l2 : list string) :
  matchesAnyPattern h (l1 ++ l2)%list
  = matchesAnyPattern h l1 || matchesAnyPattern h l2.
Proof. unfold matchesAnyPattern. apply existsb_app. Qed.

Lemma matchesAnyPattern_In (h p : string) (l : list string) :
  In p l -> matchesPattern h p = true -> matchesAnyPattern h l = true.
Proof.
  intros Hin Hm. unfold matchesAnyPattern. apply existsb_exists. eauto.
Qed.

(** X4. Once a non-empty hostname is added to the blacklist (whitelist), that
    host is blacklisted (whitelisted); a host that was listed stays listed;
    and adding the empty string lists no host that was not listed. *)
Theorem addToList_lists_host (s : Settings) (h : string) :
  (h <> "" -> isBlacklisted (addToBlacklist s h) h = true)
  /\ (h <> "" -> isWhitelisted (addToWhitelist s h) h = true)
  /\ (forall h',
        isBlacklisted s h' = true -> isBlacklisted (addToBlacklist s h) h' = true)
  /\ (forall h',
        isWhitelisted s h' = true -> isWhitelisted (addToWhitelist s h) h' = true)
  /\ (forall h', isBlacklisted (addToBlacklist s "") h' = isBlacklisted s h')
  /\ (forall h', isWhitelisted (addToWhitelist s "") h' = isWhitelisted s h').
Proof.
  destruct (addToList_membership_lists s h) as (Hb & Hw & Hbk & Hwk).
  repeat split.
  - intros Hne. unfold isBlacklisted.
    eapply matchesAnyPattern_In; [exact Hb | now apply matchesPattern_refl].
  - intros Hne. unfold isWhitelisted.
    eapply matchesAnyPattern_In; [exact Hw | now apply matchesPattern_refl].
  - intros h'. unfold isBlacklisted, matchesAnyPattern.
    rewrite !existsb_exists. intros (p & Hin & Hm). eauto.
  - intros h'. unfold isWhitelisted, matchesAnyPattern.
    rewrite !existsb_exists. intros (p & Hin & Hm). eauto.
  - intros h'. unfold isBlacklisted, addToBlacklist.
    destruct (listIncludes (blacklist s) ""); [reflexivity |]. simpl.
    rewrite matchesAnyPattern_app. simpl.
    now rewrite matchesPattern_empty_pattern, !orb_false_r.
  - intros h'. unfold isWhitelisted, addToWhitelist.
    destruct (listIncludes (whitelist s) ""); [reflexivity |]. simpl.
    rewrite matchesAnyPattern_app. simpl.
    now rewrite matchesPattern_empty_pattern, !orb_false_r.
Qed.

(** The theorem on the default settings and "example.com". *)
Lemma addToList_lists_host_witness :
  isBlacklisted (addToBlacklist DEFAULT_SETTINGS "example.com") "example.com"
  = true.
Proof.
  apply (proj1 (addToList_lists_host DEFAULT_SETTINGS "example.com")).
  discriminate.
Defined.

(** X5. [removeFromBlacklist] and [removeFromWhitelist] drop the entry at the
    index and keep the others in order; an index past the end changes
    nothing; an index within the list shortens it by one; a host listed
    afterwards was listed before; and removing at the old length undoes an
    add of a hostname that was not in the list. *)
Theorem removeFromList_index (s : Settings) (i : nat) :
  (blacklist (removeFromBlacklist s i)
   = (firstn i (blacklist s) ++ skipn (S i) (blacklist s))%list
   /\ ((length (blacklist s) <= i)%nat -> removeFromBlacklist s i = s)
   /\ ((i < length (blacklist s))%nat ->
       length (blacklist (removeFromBlacklist s i))
       = (length (blacklist s) - 1)%nat)
   /\ (forall h,
         isBlacklisted (removeFromBlacklist s i) h = true ->
         isBlacklisted s h = true)
   /\ (forall h,
         ~ In h (blacklist s) ->
         removeFromBlacklist (addToBlacklist s h) (length (blacklist s)) = s))
  /\ (whitelist (removeFromWhitelist s i)
      = (firstn i (whitelist s) ++ skipn (S i) (whitelist s))%list
      /\ ((length (whitelist s) <= i)%nat -> removeFromWhitelist s i = s)
      /\ ((i < length (whitelist s))%nat ->
          length (whitelist (removeFromWhitelist s i))
          = (length (whitelist s) - 1)%nat)
      /\ (forall h,
            isWhitelisted (removeFromWhitelist s i) h = true ->
            isWhitelisted s h = true)
      /\ (forall h,
            ~ In h (whitelist s) ->
            removeFromWhitelist (addToWhitelist s h) (length (whitelist s)) = s)).
Proof.
  split; repeat split.
  - apply removeIndex_spec.
  - intros H. unfold removeFromBlacklist.
    rewrite removeIndex_out_of_range by assumption. apply with_blacklist_same.
  - intros H. now apply removeIndex_length.
  - intros h. unfold isBlacklisted, matchesAnyPattern.
    rewrite !existsb_exists. intros (p & Hin & Hm).
    exists p. split; [| assumption]. eapply removeIndex_In, Hin.
  - intros h Hnot. unfold addToBlacklist.
    rewrite (proj2 (listIncludes_not_In _ _) Hnot).
    unfold removeFromBlacklist. simpl. rewrite removeIndex_last.
    now destruct s.
  - apply removeIndex_spec.
  - intros H. unfold removeFromWhitelist.
    rewrite removeIndex_out_of_range by assumption. apply with_whitelist_same.
  - intros H. now apply removeIndex_length.
  - intros h. unfold isWhitelisted, matchesAnyPattern.
    rewrite !existsb_exists. intros (p & Hin & Hm).
    exists p. split; [| assumption]. eapply removeIndex_In, Hin.
  - intros h Hnot. unfold addToWhitelist.
    rewrite (proj2 (listIncludes_not_In _ _) Hnot).
    unfold removeFromWhitelist. simpl. rewrite removeIndex_last.
    now destruct s.
Qed.

(** The theorem on the blacklist "a.com", "b.com", "c.com" and index 1. *)
Lemma removeFromList_index_witness :
  length (blacklist (removeFromBlacklist
                       (listedSettingsOf ["a.com"; "b.com"; "c.com"] []) 1))
  = 2%nat.
Proof.
  destruct (removeFromList_index
              (listedSettingsOf ["a.com"; "b.com"; "c.com"] []) 1)
    as ((_ & _ & Hlen & _) & _).
  apply Hlen. simpl. lia.
Defined.

End SettingsEditFacts.

(** ** Per-site state (src/utils/storage.ts) *)

Section StorageFacts.
Import Content Storage.

Lemma siteStateKey_inj (h h' : string) :
  siteStateKey h = siteStateKey h' -> h = h'.
Proof.
  unfold siteStateKey, SITE_STATE_PREFIX.
  rewrite !append_cons, !append_empty_l. congruence.
Qed.

(** X6. A state saved for a host is loaded again for that host as long as
    less than 24 hours have passed since its time stamp, and is not loaded
    from then on; saving for one host does not change what is loaded for
    another; and whatever is loaded is less than 24 hours old. *)
Theorem siteState_round_trip (store : gmap string SiteState) (h : string)
    (st : SiteState) (dateNow : Q) :
  (dateNow - timestamp st < 86400000 ->
   loadSiteState (saveSiteState store h st) h dateNow = Some st)
  /\ (86400000 <= dateNow - timestamp st ->
      loadSiteState (saveSiteState store h st) h dateNow = None)
  /\ (forall h', h' <> h ->
        loadSiteState (saveSiteState store h st) h' dateNow
        = loadSiteState store h' dateNow)
  /\ (forall st', loadSiteState store h dateNow = Some st' ->
        store !! siteStateKey h = Some st'
        /\ dateNow - timestamp st' < 86400000).
Proof.
  assert (Hage : STATE_MAX_AGE_MS == 86400000) by reflexivity.
  unfold loadSiteState, saveSiteState. split; [| split; [| split]].
  - intros Hfresh. rewrite lookup_insert_eq.
    assert (Qltb (dateNow - timestamp st) STATE_MAX_AGE_MS = true) as ->
      by (apply Qltb_lt; lra).
    reflexivity.
  - intros Hold. rewrite lookup_insert_eq.
    assert (Qltb (dateNow - timestamp st) STATE_MAX_AGE_MS = false) as ->
      by (apply Qltb_ge; lra).
    reflexivity.
  - intros h' Hne. rewrite lookup_insert_ne; [reflexivity |].
    intros Heq. apply Hne. symmetry. now apply siteStateKey_inj.
  - intros st'. destruct (store !! siteStateKey h) as [s0 |]; [| discriminate].
    destruct (Qltb _ _) eqn:Hlt; [| discriminate].
    intros [= <-]. apply Qltb_lt in Hlt. split; [reflexivity | lra].
Qed.

(** The theorem on a state created at time 1000 and read one hour later. *)
Lemma siteState_round_trip_witness :
  loadSiteState
    (saveSiteState ∅ "example.com" (createSiteState 0.3 (Some 0.9) 1000))
    "example.com" 3601000
  = Some (createSiteState 0.3 (Some 0.9) 1000).
Proof.
  apply (proj1 (siteState_round_trip ∅ "example.com"
                  (createSiteState 0.3 (Some 0.9) 1000) 3601000)).
  reflexivity.
Defined.

End StorageFacts.

(** ** More on sampling and the dim policy (src/utils/brightness.ts) *)

Section SamplingMoreFacts.
Import Regex Brightness Policy.

Lemma fold_left_ext {A B : Type} (f g : A -> B -> A) (l : list B) (a : A) :
  (forall a' b, f a' b = g a' b) -> fold_left f l a = fold_left g l a.
Proof.
  intros H. revert a. induction l as [| b l IH]; intros a; simpl; [reflexivity |].
  now rewrite H, IH.
Qed.

Lemma find_filter {A : Type} (f : A -> bool) (l : list A) :
  find f l = find f (List.filter f l).
Proof.
  induction l as [| a l IH]; simpl; [reflexivity |].
  destruct (f a) eqn:Ha; simpl; [now rewrite Ha | assumption].
Qed.

Lemma readPoint_filter (p p' : Page) (overlayId : string) (x y : nat) :
  innerWidth p' = innerWidth p -> innerHeight p' = innerHeight p ->
  (forall u v,
     List.filter (notOverlay overlayId) (elementsFromPoint p' u v)
     = List.filter (notOverlay overlayId) (elementsFromPoint p u v)) ->
  readPoint p' overlayId x y = readPoint p overlayId x y.
Proof.
  intros Hw Hh Hel. unfold readPoint. cbv zeta. rewrite Hw, Hh.
  change (fun el : Element => negb (String.eqb (el_id el) overlayId))
    with (notOverlay overlayId).
  rewrite (find_filter _ (elementsFromPoint p' _ _)).
  rewrite (find_filter _ (elementsFromPoint p _ _)).
  now rewrite Hel.
Qed.

(** X7. Sampling does not see the overlay: two pages of the same size with
    the same body and root element, whose elements at every point agree once
    the elements with the overlay's id are left out, are sampled alike.  In
    particular an element with the overlay's id on top of a page does not
    change its brightness. *)
Theorem samplePageBrightness_ignores_overlay (p p' : Page) (overlayId : string) :
  (innerWidth p' = innerWidth p -> innerHeight p' = innerHeight p ->
   body p' = body p -> documentElement p' = documentElement p ->
   (forall u v,
      List.filter (notOverlay overlayId) (elementsFromPoint p' u v)
      = List.filter (notOverlay overlayId) (elementsFromPoint p u v)) ->
   samplePageBrightness p' overlayId = samplePageBrightness p overlayId)
  /\ (forall top,
        el_id top = overlayId ->
        samplePageBrightness (coveredPage top p) overlayId
        = samplePageBrightness p overlayId).
Proof.
  assert (Hgen : forall q q',
    innerWidth q' = innerWidth q -> innerHeight q' = innerHeight q ->
    body q' = body q -> documentElement q' = documentElement q ->
    (forall u v,
       List.filter (notOverlay overlayId) (elementsFromPoint q' u v)
       = List.filter (notOverlay overlayId) (elementsFromPoint q u v)) ->
    samplePageBrightness q' overlayId = samplePageBrightness q overlayId).
  { intros q q' Hw Hh Hb Hr Hel.
    assert (Hgrid : sampleGrid q' overlayId = sampleGrid q overlayId).
    { unfold sampleGrid. apply fold_left_ext. intros acc x.
      apply fold_left_ext. intros acc' y. unfold samplePoint.
      now rewrite (readPoint_filter q q' overlayId x y Hw Hh Hel). }
    unfold samplePageBrightness. now rewrite Hgrid, Hb, Hr. }
  split; [apply Hgen |].
  intros top Htop. apply Hgen; try reflexivity.
  intros u v. simpl. unfold notOverlay at 1.
  now rewrite Htop, String.eqb_refl.
Qed.

(** The theorem on a white page under a black overlay element. *)
Lemma samplePageBrightness_ignores_overlay_witness :
  samplePageBrightness
    (coveredPage {| el_id := "auto-dimmer-overlay";
                    el_backgroundColor := "rgb(0, 0, 0)" |}
       (flatPage "rgb(255, 255, 255)" "rgb(255, 255, 255)" "rgb(255, 255, 255)"))
    "auto-dimmer-overlay"
  = samplePageBrightness
      (flatPage "rgb(255, 255, 255)" "rgb(255, 255, 255)" "rgb(255, 255, 255)")
      "auto-dimmer-overlay".
Proof.
  apply (proj2 (samplePageBrightness_ignores_overlay
                  (flatPage "rgb(255, 255, 255)" "rgb(255, 255, 255)"
                     "rgb(255, 255, 255)")
                  (flatPage "rgb(255, 255, 255)" "rgb(255, 255, 255)"
                     "rgb(255, 255, 255)")
                  "auto-dimmer-overlay")).
  reflexivity.
Defined.

Lemma channel_nonneg (d : string) : 0 <= inject_Z (parseInt10 d) / 255.
Proof.
  assert (H0 : (0 <= parseInt10 d)%Z) by (apply parseDigits_nonneg; lia).
  rewrite Zle_Qle in H0. change (inject_Z 0) with 0 in H0.
  apply Qle_shift_div_l; lra.
Qed.

Lemma getColorBrightness_nonneg (colorStr : string) (v : Q) :
  getColorBrightness colorStr = Some v -> 0 <= v.
Proof.
  unfold getColorBrightness. destruct (_ || _); [discriminate |].
  destruct (str_match rgbPattern colorStr) as [m |]; [| discriminate].
  intros [= <-]. unfold luminance. cbv zeta.
  pose proof (channel_nonneg (nth 1 m "")).
  pose proof (channel_nonneg (nth 2 m "")).
  pose proof (channel_nonneg (nth 3 m "")). lra.
Qed.

Lemma readPoint_nonneg (page : Page) (overlayId : string) (x y : nat) (v : Q) :
  readPoint page overlayId x y = Some v -> 0 <= v.
Proof.
  unfold readPoint. cbv zeta. destruct (find _ _); [| discriminate].
  apply getColorBrightness_nonneg.
Qed.

Lemma sampleGrid_nonneg (page : Page) (overlayId : string) :
  0 <= fst (sampleGrid page overlayId) /\ 0 <= snd (sampleGrid page overlayId).
Proof.
  unfold sampleGrid.
  apply (fold_left_invariant (fun acc : Q * Q => 0 <= fst acc /\ 0 <= snd acc));
    [| simpl; lra].
  intros acc x _ Hacc.
  apply (fold_left_invariant (fun acc : Q * Q => 0 <= fst acc /\ 0 <= snd acc));
    [| assumption].
  intros [total count] y _ Hok. unfold samplePoint.
  destruct (readPoint page overlayId x y) as [v |] eqn:Hread; [| assumption].
  pose proof (readPoint_nonneg _ _ _ _ _ Hread). simpl in Hok |- *. lra.
Qed.

Lemma sampleAnchor_nonneg (color : string) (w : Q) (acc : Q * Q) :
  0 <= w -> 0 <= fst acc /\ 0 <= snd acc ->
  0 <= fst (sampleAnchor color w acc) /\ 0 <= snd (sampleAnchor color w acc).
Proof.
  intros Hw Hacc. destruct acc as [total count]. unfold sampleAnchor.
  destruct (getColorBrightness color) as [v |] eqn:Hv; [| assumption].
  pose proof (getColorBrightness_nonneg _ _ Hv). simpl in Hacc |- *. nra.
Qed.

(** X8. A brightness is never negative: whatever the color string,
    [getColorBrightness] returns no signal or a value of at least 0, and
    whatever the page, [samplePageBrightness] returns a value of at least
    0. *)
Theorem brightness_nonnegative :
  (forall colorStr v, getColorBrightness colorStr = Some v -> 0 <= v)
  /\ (forall page overlayId, 0 <= samplePageBrightness page overlayId).
Proof.
  split; [exact getColorBrightness_nonneg |].
  intros page overlayId. unfold samplePageBrightness. cbv zeta.
  pose proof (sampleGrid_nonneg page overlayId) as Hgrid.
  set (grid := sampleGrid page overlayId) in *.
  assert (Hw : 0 <= Qmax (snd grid) 1) by q_solve.
  set (w := Qmax (snd grid) 1) in *.
  assert (Hafter :
    0 <= fst (match body page with
              | Some b => sampleAnchor (el_backgroundColor b) w grid
              | None => grid
              end)
    /\ 0 <= snd (match body page with
                 | Some b => sampleAnchor (el_backgroundColor b) w grid
                 | None => grid
                 end)).
  { destruct (body page) as [b |]; [| assumption].
    now apply sampleAnchor_nonneg. }
  set (afterBody := match body page with
                    | Some b => sampleAnchor (el_backgroundColor b) w grid
                    | None => grid
                    end) in *.
  pose proof (sampleAnchor_nonneg (el_backgroundColor (documentElement page))
                w afterBody Hw Hafter) as Hfinal.
  destruct (sampleAnchor _ w afterBody) as [total count]. simpl in Hfinal.
  destruct (Qgtb count 0) eqn:Hcount; [| lra].
  q_bool. apply Qle_shift_div_l; lra.
Qed.

(** The theorem on a color whose channels are out of range. *)
Lemma brightness_nonnegative_witness :
  0 <= samplePageBrightness (rootOnlyPage "rgb(999, 999, 999)")
         "auto-dimmer-overlay".
Proof.
  apply (proj2 brightness_nonnegative).
Defined.

(** The weights of the two anchors on top of the grid. *)
Lemma samplePageBrightness_anchors (page : Page) (overlayId : string)
    (bodyColor : option string) :
  bodyColor = option_map el_backgroundColor (body page) ->
  let grid := sampleGrid page overlayId in
  let w := Qmax (snd grid) 1 in
  let add (signal : option Q) (acc : Q * Q) :=
    match signal with
    | Some v => (fst acc + v * w * 0.5, snd acc + w * 0.5)
    | None => acc
    end in
  let final :=
    add (getColorBrightness (el_backgroundColor (documentElement page)))
      (add (bodyColor ≫= getColorBrightness) grid) in
  samplePageBrightness page overlayId
  = if Qgtb (snd final) 0 then fst final / snd final else 0.5.
Proof.
  intros -> . cbv zeta. unfold samplePageBrightness. cbv zeta.
  unfold sampleAnchor.
  destruct (sampleGrid page overlayId) as [total count]. simpl.
  destruct (body page) as [b |]; simpl.
  - destruct (getColorBrightness (el_backgroundColor b)); simpl;
      now destruct (getColorBrightness _).
  - now destruct (getColorBrightness _).
Qed.

(** X9. The weights of the samples.  When at least one grid point gives a
    signal, the result is the mean of the grid samples if neither the body
    nor the root element gives one, and half that mean plus a quarter of
    each anchor if both do.  When no grid point gives a signal, the result
    is the mean of the two anchors if both give one. *)
Theorem samplePageBrightness_weights (page : Page) (overlayId : string)
    (b : Element) (vb vr : Q) :
  let total := fst (sampleGrid page overlayId) in
  let count := snd (sampleGrid page overlayId) in
  (0 < count ->
   (forall e, body page = Some e -> getColorBrightness (el_backgroundColor e) = None) ->
   getColorBrightness (el_backgroundColor (documentElement page)) = None ->
   samplePageBrightness page overlayId == total / count)
  /\ (1 <= count ->
      body page = Some b ->
      getColorBrightness (el_backgroundColor b) = Some vb ->
      getColorBrightness (el_backgroundColor (documentElement page)) = Some vr ->
      samplePageBrightness page overlayId
      == (total / count) / 2 + vb / 4 + vr / 4)
  /\ (sampleGrid page overlayId = (0, 0) ->
      body page = Some b ->
      getColorBrightness (el_backgroundColor b) = Some vb ->
      getColorBrightness (el_backgroundColor (documentElement page)) = Some vr ->
      samplePageBrightness page overlayId == (vb + vr) / 2).
Proof.
  cbv zeta.
  pose proof (samplePageBrightness_anchors page overlayId _ eq_refl) as Hs.
  cbv zeta in Hs. rewrite Hs. clear Hs.
  destruct (sampleGrid page overlayId) as [total count]. simpl.
  split; [| split].
  - intros Hcount Hbody Hroot. rewrite Hroot.
    assert (Hb : option_map el_backgroundColor (body page) ≫= getColorBrightness
                 = None).
    { destruct (body page) as [e |]; [simpl; now apply Hbody | reflexivity]. }
    rewrite Hb. simpl.
    assert (Qgtb count 0 = true) as -> by now apply Qltb_lt.
    reflexivity.
  - intros Hcount Hbody Hvb Hvr. rewrite Hbody, Hvr. simpl. rewrite Hvb. simpl.
    assert (Hw : Qmax count 1 == count) by q_solve.
    assert (Hpos : 0 < count + Qmax count 1 * 0.5 + Qmax count 1 * 0.5)
      by (rewrite Hw; lra).
    apply Qltb_lt in Hpos as Hpos'. unfold Qgtb. rewrite Hpos'.
    rewrite Hw. field. lra.
  - intros [= -> ->] Hbody Hvb Hvr. rewrite Hbody, Hvr. simpl. rewrite Hvb.
    simpl. vm_compute (Qgtb _ _). cbv iota.
    assert (Hw : Qmax 0 1 == 1) by q_solve.
    rewrite Hw. field.
Qed.

(** The theorem on a page that shows red over a white body and a black
    root. *)
Lemma samplePageBrightness_weights_witness :
  samplePageBrightness
    (flatPage "rgb(255, 0, 0)" "rgb(255, 255, 255)" "rgb(0, 0, 0)")
    "auto-dimmer-overlay"
  == (fst (sampleGrid (flatPage "rgb(255, 0, 0)" "rgb(255, 255, 255)"
                         "rgb(0, 0, 0)") "auto-dimmer-overlay")
      / snd (sampleGrid (flatPage "rgb(255, 0, 0)" "rgb(255, 255, 255)"
                           "rgb(0, 0, 0)") "auto-dimmer-overlay")) / 2
     + luminance "255" "255" "255" / 4 + luminance "0" "0" "0" / 4.
Proof.
  pose proof (samplePageBrightness_weights
                (flatPage "rgb(255, 0, 0)" "rgb(255, 255, 255)" "rgb(0, 0, 0)")
                "auto-dimmer-overlay"
                {| el_id := "body"; el_backgroundColor := "rgb(255, 255, 255)" |}
                (luminance "255" "255" "255") (luminance "0" "0" "0"))
    as H.
  cbv zeta in H. destruct H as (_ & Hboth & _). apply Hboth.
  - vm_compute. discriminate.
  - reflexivity.
  - vm_compute. reflexivity.
  - vm_compute. reflexivity.
Defined.

(** X10. For a [maxIntensity] that is not negative, the dim amount lies
    between 0 and [maxIntensity] whenever the brightness is at most 1, in
    both modes and for every threshold; in dynamic mode with a threshold
    below 1, a brightness above 1 gives more than a positive
    [maxIntensity]. *)
Theorem calculateDimAmount_bounds (b t m : Q) (d : bool) :
  0 <= m ->
  (b <= 1 -> 0 <= calculateDimAmount b t m d <= m)
  /\ (0 < m -> t < 1 -> 1 < b -> m < calculateDimAmount b t m true).
Proof.
  intros Hm. split.
  - intros Hb. destruct (Qlt_le_dec t b) as [Htb | Htb].
    + destruct d.
      * assert (H1 : 0 < 1 - t) by lra.
        rewrite calculateDimAmount_scaled by assumption.
        pose proof (scaled_nonneg b t Htb H1) as Hlo.
        assert (Hhi : (b - t) / (1 - t) <= 1)
          by (apply Qle_shift_div_r; lra).
        set (x := (b - t) / (1 - t)) in *. clearbody x. nra.
      * rewrite calculateDimAmount_binary by assumption. lra.
    + rewrite calculateDimAmount_below by assumption. lra.
  - intros Hpos Ht Hb.
    rewrite calculateDimAmount_scaled by lra.
    assert (Hx : 1 < (b - t) / (1 - t)) by (apply Qlt_shift_div_l; lra).
    set (x := (b - t) / (1 - t)) in *. clearbody x. nra.
Qed.

(** The theorem at brightness 0.9, threshold 0.6 and intensity 0.5. *)
Lemma calculateDimAmount_bounds_witness :
  0 <= calculateDimAmount 0.9 0.6 0.5 true <= 0.5.
Proof.
  apply (calculateDimAmount_bounds 0.9 0.6 0.5 true); lra.
Defined.

Lemma fold_left_count_mono {B : Type} (f : Q * Q -> B -> Q * Q) (l : list B) :
  (forall acc b, In b l -> snd acc <= snd (f acc b)) ->
  forall acc, snd acc <= snd (fold_left f l acc).
Proof.
  induction l as [| b l IH]; intros Hmono acc; simpl; [lra |].
  pose proof (Hmono acc b (or_introl eq_refl)).
  pose proof (IH (fun acc' b' Hin => Hmono acc' b' (or_intror Hin)) (f acc b)).
  lra.
Qed.

Lemma fold_left_count_step {B : Type} (f : Q * Q -> B -> Q * Q) (l : list B)
    (b0 : B) :
  (forall acc b, In b l -> snd acc <= snd (f acc b)) ->
  (forall acc, snd acc + 1 <= snd (f acc b0)) ->
  In b0 l ->
  forall acc, snd acc + 1 <= snd (fold_left f l acc).
Proof.
  induction l as [| b l IH]; intros Hmono Hstep Hin acc; [destruct Hin |].
  simpl. destruct Hin as [-> | Hin].
  - pose proof (Hstep acc).
    pose proof (fold_left_count_mono f l
                  (fun acc' b' Hin' => Hmono acc' b' (or_intror Hin'))
                  (f acc b0)).
    lra.
  - pose proof (Hmono acc b (or_introl eq_refl)).
    pose proof (IH (fun acc' b' Hin' => Hmono acc' b' (or_intror Hin'))
                  Hstep Hin (f acc b)).
    lra.
Qed.

Lemma samplePoint_count (page : Page) (overlayId : string) (x y : nat)
    (acc : Q * Q) :
  snd acc <= snd (samplePoint page overlayId x y acc)
  /\ (forall v, readPoint page overlayId x y = Some v ->
        snd acc + 1 <= snd (samplePoint page overlayId x y acc)).
Proof.
  destruct acc as [total count]. unfold samplePoint.
  destruct (readPoint page overlayId x y) as [v |]; simpl.
  - split; [lra | intros _ _; lra].
  - split; [lra | discriminate].
Qed.

(** A grid point that gives a signal is counted. *)
Lemma sampleGrid_counts (page : Page) (overlayId : string) (x y : nat) (v : Q) :
  (x < sampleSize)%nat -> (y < sampleSize)%nat ->
  readPoint page overlayId x y = Some v ->
  1 <= snd (sampleGrid page overlayId).
Proof.
  intros Hx Hy Hread. unfold sampleGrid.
  pose proof (fold_left_count_step
                (fun acc x0 =>
                   fold_left (fun acc' y0 => samplePoint page overlayId x0 y0 acc')
                     (seq 0 sampleSize) acc)
                (seq 0 sampleSize) x) as Hstep.
  cbv beta in Hstep.
  specialize (Hstep
    (fun acc x0 _ =>
       fold_left_count_mono _ (seq 0 sampleSize)
         (fun acc' y0 _ => proj1 (samplePoint_count page overlayId x0 y0 acc'))
         acc)).
  assert (Hrow : forall acc : Q * Q,
            snd acc + 1
            <= snd (fold_left
                      (fun acc' y0 => samplePoint page overlayId x y0 acc')
                      (seq 0 sampleSize) acc)).
  { apply (fold_left_count_step _ (seq 0 sampleSize) y).
    - intros acc y0 _. exact (proj1 (samplePoint_count page overlayId x y0 acc)).
    - intros acc.
      exact (proj2 (samplePoint_count page overlayId x y acc) v Hread).
    - apply in_seq. lia. }
  specialize (Hstep Hrow).
  assert (Hin : In x (seq 0 sampleSize)) by (apply in_seq; lia).
  specialize (Hstep Hin (0, 0)). simpl snd in Hstep at 1. lra.
Qed.

(** The grid total lies between the bounds of its samples, times their
    number. *)
Lemma sampleGrid_mean (page : Page) (overlayId : string) (lo hi : Q) :
  (forall x y v,
     (x < sampleSize)%nat -> (y < sampleSize)%nat ->
     readPoint page overlayId x y = Some v -> lo <= v <= hi) ->
  let grid := sampleGrid page overlayId in
  0 <= snd grid /\ lo * snd grid <= fst grid <= hi * snd grid.
Proof.
  intros Hread. cbv zeta. unfold sampleGrid.
  apply (fold_left_invariant
           (fun acc : Q * Q =>
              0 <= snd acc /\ lo * snd acc <= fst acc <= hi * snd acc));
    [| simpl; lra].
  intros acc x Hx Hacc. apply in_seq in Hx.
  apply (fold_left_invariant
           (fun acc : Q * Q =>
              0 <= snd acc /\ lo * snd acc <= fst acc <= hi * snd acc));
    [| assumption].
  intros [total count] y Hy Hok. apply in_seq in Hy. unfold samplePoint.
  destruct (readPoint page overlayId x y) as [v |] eqn:Hv; [| assumption].
  pose proof (Hread x y v ltac:(lia) ltac:(lia) Hv). simpl in Hok |- *. lra.
Qed.

(** X25. The result is a mean.  When some grid point, the body or the root
    element gives a signal, the brightness of the page lies between any two
    bounds that all the signals lie between; so a page whose signals all have
    the same brightness has that brightness. *)
Theorem samplePageBrightness_mean (page : Page) (overlayId : string) (lo hi : Q) :
  (forall x y v,
     (x < sampleSize)%nat -> (y < sampleSize)%nat ->
     readPoint page overlayId x y = Some v -> lo <= v <= hi) ->
  (forall b v,
     body page = Some b -> getColorBrightness (el_backgroundColor b) = Some v ->
     lo <= v <= hi) ->
  (forall v,
     getColorBrightness (el_backgroundColor (documentElement page)) = Some v ->
     lo <= v <= hi) ->
  (exists x y v,
     (x < sampleSize)%nat /\ (y < sampleSize)%nat
     /\ readPoint page overlayId x y = Some v)
  \/ (exists b v,
        body page = Some b /\ getColorBrightness (el_backgroundColor b) = Some v)
  \/ (exists v,
        getColorBrightness (el_backgroundColor (documentElement page)) = Some v) ->
  lo <= samplePageBrightness page overlayId <= hi.
Proof.
  intros Hgrid Hbody Hroot Hsome.
  pose proof (samplePageBrightness_anchors page overlayId _ eq_refl) as Hs.
  cbv zeta in Hs. rewrite Hs. clear Hs.
  pose proof (sampleGrid_mean page overlayId lo hi Hgrid) as Hmean.
  cbv zeta in Hmean.
  assert (Hcount : (exists x y v,
                      (x < sampleSize)%nat /\ (y < sampleSize)%nat
                      /\ readPoint page overlayId x y = Some v) ->
                   1 <= snd (sampleGrid page overlayId)).
  { intros (x & y & v & Hx & Hy & Hv). now apply (sampleGrid_counts _ _ x y v). }
  destruct (sampleGrid page overlayId) as [total count].
  cbn [fst snd] in *.
  pose proof (Q.max_spec count 1) as Hw.
  set (w := Qmax count 1) in *. clearbody w.
  assert (Hbodysig :
            forall v, option_map el_backgroundColor (body page)
                      ≫= getColorBrightness = Some v ->
                      lo <= v <= hi).
  { intros v Hv. destruct (body page) as [b |]; [| discriminate].
    now apply (Hbody b v). }
  assert (Hany : 1 <= count
                 \/ (exists v, option_map el_backgroundColor (body page)
                                ≫= getColorBrightness = Some v)
                 \/ (exists v, getColorBrightness
                                 (el_backgroundColor (documentElement page))
                               = Some v)).
  { destruct Hsome as [Hg | [(b & v & Hb & Hv) | Hr]];
      [left; now apply Hcount | right; left | right; right; assumption].
    exists v. now rewrite Hb. }
  clear Hsome Hcount Hbody Hgrid.
  destruct (option_map el_backgroundColor (body page) ≫= getColorBrightness)
    as [vb |];
    destruct (getColorBrightness (el_backgroundColor (documentElement page)))
      as [vr |]; cbn [fst snd].
  - pose proof (Hbodysig vb eq_refl). pose proof (Hroot vr eq_refl).
    assert (Hpos : 0 < count + w * 0.5 + w * 0.5) by lra.
    apply Qltb_lt in Hpos as Hpos'. unfold Qgtb. rewrite Hpos'.
    split; [apply Qle_shift_div_l | apply Qle_shift_div_r]; try assumption; nra.
  - pose proof (Hbodysig vb eq_refl).
    assert (Hpos : 0 < count + w * 0.5) by lra.
    apply Qltb_lt in Hpos as Hpos'. unfold Qgtb. rewrite Hpos'.
    split; [apply Qle_shift_div_l | apply Qle_shift_div_r]; try assumption; nra.
  - pose proof (Hroot vr eq_refl).
    assert (Hpos : 0 < count + w * 0.5) by lra.
    apply Qltb_lt in Hpos as Hpos'. unfold Qgtb. rewrite Hpos'.
    split; [apply Qle_shift_div_l | apply Qle_shift_div_r]; try assumption; nra.
  - assert (Hpos : 0 < count).
    { destruct Hany as [H1 | [(v & Hv) | (v & Hv)]];
        [lra | discriminate | discriminate]. }
    apply Qltb_lt in Hpos as Hpos'. unfold Qgtb. rewrite Hpos'.
    split; [apply Qle_shift_div_l | apply Qle_shift_div_r]; try assumption; lra.
Qed.

(** The theorem on a page that is white all over: its brightness is that of
    white. *)
Lemma samplePageBrightness_mean_witness :
  luminance "255" "255" "255"
  <= samplePageBrightness
       (flatPage "rgb(255, 255, 255)" "rgb(255, 255, 255)" "rgb(255, 255, 255)")
       "auto-dimmer-overlay"
  <= luminance "255" "255" "255".
Proof.
  apply (samplePageBrightness_mean
           (flatPage "rgb(255, 255, 255)" "rgb(255, 255, 255)"
              "rgb(255, 255, 255)")
           "auto-dimmer-overlay").
  - intros x y v _ _ [= <-]. split; vm_compute; discriminate.
  - intros b v [= <-] [= <-]. split; vm_compute; discriminate.
  - intros v [= <-]. split; vm_compute; discriminate.
  - right. right. eexists. reflexivity.
Defined.

End SamplingMoreFacts.

(** ** More on the animation engine *)

Section EngineMoreFacts.
Import Overlay Animation.

(** What the frame of a transition in flight does. *)
Lemma flight_frame (cb : Closure) (t : Q) (e : Engine) :
  Flying cb e ->
  let progress := Qmin ((t - startTime cb) / duration cb) 1 in
  let level :=
    clamp (startLevel cb + (targetLevel (state e) - startLevel cb) * progress)
      0 1 in
  let e' := deliverFrame t e in
  currentLevel (state e') = level
  /\ targetLevel (state e') = targetLevel (state e)
  /\ updates e' = (updates e ++ [level])%list
  /\ (progress < 1 -> Flying cb e')
  /\ (1 <= progress -> Idle e').
Proof.
  intros Hfly. cbv zeta. rewrite (deliverFrame_flying cb t e Hfly).
  unfold animate. cbv zeta. simpl.
  destruct (Qltb _ 1) eqn:Hp; simpl; q_bool;
    (split; [reflexivity |]); (split; [reflexivity |]);
    (split; [reflexivity |]); split.
  - intros _. unfold Flying. simpl. eauto.
  - intros Hone. lra.
  - intros Hlt. lra.
  - intros _. now split.
Qed.

Lemma progress_nonneg (cb : Closure) (t : Q) :
  0 < duration cb -> startTime cb <= t ->
  0 <= (t - startTime cb) / duration cb.
Proof. intros Hd Ht. apply Qle_shift_div_l; lra. Qed.

Lemma progress_monotone (cb : Closure) (t1 t2 : Q) :
  0 < duration cb -> t1 <= t2 ->
  (t1 - startTime cb) / duration cb <= (t2 - startTime cb) / duration cb.
Proof.
  intros Hd Ht. unfold Qdiv. apply Qmult_le_compat_r; [lra |].
  apply Qlt_le_weak, Qinv_lt_0_compat, Hd.
Qed.

(** The interpolated level between two levels of [0,1] needs no clamping. *)
Lemma interpolation_distance (s g p : Q) :
  unit_interval s -> unit_interval g -> 0 <= p <= 1 ->
  clamp (s + (g - s) * p) 0 1 - g == (1 - p) * (s - g).
Proof.
  unfold unit_interval. intros Hs Hg Hp.
  rewrite clamp_fix; [ring |].
  set (v := (g - s) * p).
  assert (Hv : v == (g - s) * p) by reflexivity. clearbody v.
  split; nra.
Qed.

Lemma Qabs_scale (k x : Q) : 0 <= k -> Qabs (k * x) == k * Qabs x.
Proof. intros Hk. rewrite Qabs_Qmult. now rewrite (Qabs_pos k). Qed.

Lemma deliverFrames_idle (times : list Q) (e : Engine) :
  Idle e ->
  Idle (deliverFrames times e)
  /\ state (deliverFrames times e) = state e
  /\ updates (deliverFrames times e) = updates e.
Proof.
  revert e. induction times as [| t times IH]; intros e Hidle; [auto |].
  destruct (deliverFrame_idle t e Hidle) as (Hidle' & Hst & Hup).
  destruct (IH _ Hidle') as (H1 & H2 & H3).
  change (deliverFrames (t :: times) e)
    with (deliverFrames times (deliverFrame t e)).
  repeat split; try apply H1; congruence.
Qed.

(** X11. Linear interpolation.  A frame of a transition in flight (positive
    duration, start and target levels in [0,1]) calls [onUpdate] once, with
    the new current level.  At a frame time within the transition the level
    is [startLevel + (target - startLevel) * elapsed / duration] and the
    transition stays in flight.  At a frame time not before the start, the
    level is no further from the target than the start level, and a second
    frame at a later time brings it no further from the target than the
    first.  At a frame time before the start, the level is no closer to the
    target than the start level. *)
Theorem flight_interpolation (cb : Closure) (e : Engine) :
  Flying cb e -> 0 < duration cb ->
  unit_interval (startLevel cb) -> unit_interval (targetLevel (state e)) ->
  let target := targetLevel (state e) in
  let level (t : Q) := currentLevel (state (deliverFrame t e)) in
  (forall t, updates (deliverFrame t e) = (updates e ++ [level t])%list)
  /\ (forall t,
        startTime cb <= t -> t < startTime cb + duration cb ->
        level t
        == startLevel cb
           + (target - startLevel cb) * ((t - startTime cb) / duration cb)
        /\ Flying cb (deliverFrame t e))
  /\ (forall t,
        startTime cb <= t ->
        Qabs (level t - target) <= Qabs (startLevel cb - target))
  /\ (forall t1 t2,
        startTime cb <= t1 -> t1 <= t2 ->
        Qabs (currentLevel (state (deliverFrames [t1; t2] e)) - target)
        <= Qabs (level t1 - target))
  /\ (forall t,
        t <= startTime cb ->
        Qabs (startLevel cb - target) <= Qabs (level t - target)).
Proof.
  intros Hfly Hd Hs Hg. cbv zeta.
  assert (Hdist : forall e0 t,
            Flying cb e0 -> targetLevel (state e0) = targetLevel (state e) ->
            startTime cb <= t ->
            currentLevel (state (deliverFrame t e0)) - targetLevel (state e)
            == (1 - Qmin ((t - startTime cb) / duration cb) 1)
               * (startLevel cb - targetLevel (state e))).
  { intros e0 t Hfly0 Htgt Ht.
    destruct (flight_frame cb t e0 Hfly0) as (Hlevel & _).
    cbv zeta in Hlevel. rewrite Hlevel, Htgt.
    apply interpolation_distance; try assumption.
    pose proof (progress_nonneg cb t Hd Ht). q_solve. }
  split; [| split; [| split; [| split]]].
  - intros t. destruct (flight_frame cb t e Hfly) as (Hlevel & _ & Hupd & _).
    cbv zeta in Hlevel, Hupd. now rewrite Hlevel.
  - intros t Ht Hend.
    destruct (flight_frame cb t e Hfly) as (Hlevel & _ & _ & Hstay & _).
    cbv zeta in Hlevel, Hstay.
    pose proof (progress_nonneg cb t Hd Ht) as Hlo.
    assert (Hhi : (t - startTime cb) / duration cb < 1)
      by (apply Qlt_shift_div_r; lra).
    assert (Hp : Qmin ((t - startTime cb) / duration cb) 1
                 == (t - startTime cb) / duration cb) by q_solve.
    split; [| apply Hstay; lra].
    pose proof (Hdist e t Hfly eq_refl Ht) as Hdt. rewrite Hp in Hdt.
    set (x := (t - startTime cb) / duration cb) in *.
    set (v := currentLevel (state (deliverFrame t e))) in *.
    clearbody v x. nra.
  - intros t Ht. rewrite (Hdist e t Hfly eq_refl Ht).
    pose proof (progress_nonneg cb t Hd Ht) as Hlo.
    set (p := Qmin ((t - startTime cb) / duration cb) 1).
    assert (Hp : 0 <= p <= 1) by (unfold p; q_solve).
    rewrite Qabs_scale by lra.
    pose proof (Qabs_nonneg (startLevel cb - targetLevel (state e))).
    set (a := Qabs _) in *. clearbody a p. nra.
  - intros t1 t2 Ht1 Ht12.
    change (deliverFrames [t1; t2] e)
      with (deliverFrame t2 (deliverFrame t1 e)).
    destruct (flight_frame cb t1 e Hfly) as (_ & Htgt1 & _ & Hstay & Hstop).
    cbv zeta in Htgt1, Hstay, Hstop.
    destruct (Qlt_le_dec (Qmin ((t1 - startTime cb) / duration cb) 1) 1)
      as [Hlt | Hge].
    + rewrite (Hdist _ t2 (Hstay Hlt) Htgt1) by lra.
      rewrite (Hdist e t1 Hfly eq_refl Ht1).
      pose proof (progress_nonneg cb t1 Hd Ht1) as Hlo.
      pose proof (progress_monotone cb t1 t2 Hd Ht12) as Hmono.
      set (p1 := Qmin ((t1 - startTime cb) / duration cb) 1).
      set (p2 := Qmin ((t2 - startTime cb) / duration cb) 1).
      assert (Hp : 0 <= p1 /\ p1 <= p2 /\ p2 <= 1) by (unfold p1, p2; q_solve).
      rewrite !Qabs_scale by lra.
      pose proof (Qabs_nonneg (startLevel cb - targetLevel (state e))).
      set (a := Qabs _) in *. clearbody a p1 p2. nra.
    + destruct (deliverFrame_idle t2 _ (Hstop Hge)) as (_ & Hst & _).
      rewrite Hst. lra.
  - intros t Ht.
    destruct (flight_frame cb t e Hfly) as (Hlevel & _).
    cbv zeta in Hlevel. rewrite Hlevel.
    assert (Hx : (t - startTime cb) / duration cb <= 0)
      by (apply Qle_shift_div_r; lra).
    assert (Hp : Qmin ((t - startTime cb) / duration cb) 1
                 == (t - startTime cb) / duration cb) by q_solve.
    unfold unit_interval in Hs, Hg.
    set (x := (t - startTime cb) / duration cb) in *.
    set (s := startLevel cb) in *. set (g := targetLevel (state e)) in *.
    set (p := Qmin x 1) in *.
    set (v := (g - s) * p).
    assert (Hv : v == (g - s) * x) by (unfold v; now rewrite Hp).
    clearbody v p x s g. unfold clamp.
    destruct (Qlt_le_dec s g) as [Hsg | Hsg].
    + assert (Hneg : v <= 0) by nra. q_solve.
    + assert (Hpos : 0 <= v) by nra. q_solve.
Qed.

(** The theorem on a transition from 0 to 0.5 over 500 ms: half way, at
    250 ms, the level is 0.25. *)
Lemma flight_interpolation_witness :
  currentLevel (state (deliverFrame 250 (animateDimLevel createEngine 0.5 500 0)))
  == 0 + (0.5 - 0) * ((250 - 0) / 500).
Proof.
  refine (proj1 (proj1 (proj2 (flight_interpolation
            {| startLevel := clamp 0 0 1; startTime := 0; duration := 500 |}
            (animateDimLevel createEngine 0.5 500 0) _ _ _ _)) 250 _ _)).
  - exists 1%nat. split; reflexivity.
  - reflexivity.
  - split; vm_compute; discriminate.
  - split; vm_compute; discriminate.
  - vm_compute. discriminate.
  - reflexivity.
Defined.

(** X12. A new target while a transition is in flight.  A request at least
    0.05 away from the current target, made on an idle or animating engine,
    calls [onUpdate] not at all and leaves the current level; the one frame
    requested afterwards belongs to the new transition, which starts at the
    clamped current level: a frame at the time of the request leaves a
    current level of [0,1] where it is; and once the frames delivered
    include one at or after [now + duration], the engine is idle, its target
    is the clamped new target, and its current level is less than 0.001 away
    from it. *)
Theorem animateDimLevel_retargets (e : Engine) (target d now : Q) :
  Idle e \/ Animating e -> 0 < d ->
  0.05 <= Qabs (clamp target 0 1 - targetLevel (state e)) ->
  let e1 := animateDimLevel e target d now in
  updates e1 = updates e
  /\ currentLevel (state e1) = currentLevel (state e)
  /\ Flying {| startLevel := clamp (currentLevel (state e)) 0 1;
               startTime := now; duration := d |} e1
  /\ (unit_interval (currentLevel (state e)) ->
      currentLevel (state (deliverFrame now e1)) == currentLevel (state e))
  /\ (forall times,
        Exists (fun t => now + d <= t) times ->
        Idle (deliverFrames times e1)
        /\ targetLevel (state (deliverFrames times e1)) = clamp target 0 1
        /\ Qabs (currentLevel (state (deliverFrames times e1))
                 - targetLevel (state (deliverFrames times e1))) < 0.001).
Proof.
  intros Hstate Hd Hfar.
  destruct (animateDimLevel_starts e target d now Hfar Hstate)
    as (Hfly & Htgt & Hcur & Hupd).
  cbv zeta in Hfly, Htgt, Hcur, Hupd |- *.
  split; [assumption |]. split; [assumption |]. split; [assumption |]. split.
  - intros Hunit.
    destruct (flight_frame _ now _ Hfly) as (Hlevel & _).
    cbv zeta in Hlevel. simpl in Hlevel. rewrite Hlevel.
    assert (Hz : (now - now) / d == 0) by (field; lra).
    assert (Hp : Qmin ((now - now) / d) 1 == 0) by q_solve.
    set (p := Qmin ((now - now) / d) 1) in *.
    set (g := targetLevel (state (animateDimLevel e target d now))) in *.
    pose proof (clamp_fix (currentLevel (state e)) 0 1 Hunit) as Hfix.
    set (s := clamp (currentLevel (state e)) 0 1) in *.
    assert (Hv : s + (g - s) * p == currentLevel (state e))
      by (rewrite Hp, Hfix; ring).
    rewrite (clamp_compat _ _ 0 1 Hv). now apply clamp_fix.
  - intros times Hex.
    assert (Hunit : unit_interval
                      (targetLevel (state (animateDimLevel e target d now))))
      by (rewrite Htgt; apply clamp_unit).
    destruct (deliverFrames_settle _ times _ Hfly Hunit Hd Hex) as [Hs Htgt2].
    split; [apply Hs |]. split; [congruence | now apply settled_close].
Qed.

(** The theorem on a transition to 0.5 that is sent on to 1 at 250 ms, half
    way: the frames at 300 and 750 ms end on the level 1. *)
Lemma animateDimLevel_retargets_witness :
  targetLevel
    (state (deliverFrames [300; 750]
              (animateDimLevel
                 (deliverFrame 250 (animateDimLevel createEngine 0.5 500 0))
                 1 500 250)))
  = clamp 1 0 1.
Proof.
  apply (animateDimLevel_retargets
           (deliverFrame 250 (animateDimLevel createEngine 0.5 500 0))
           1 500 250).
  - right. eexists. exists 2%nat. split; reflexivity.
  - reflexivity.
  - vm_compute. discriminate.
  - right. left. vm_compute. discriminate.
Defined.

(** X13. What ends a transition.  On an idle or animating engine,
    [setDimLevelImmediate] calls [onUpdate] once, with the clamped level,
    and sets both levels to it, and [cancelAnimation] calls nothing and
    leaves the levels; after either, the frames the window delivers run no
    callback: the state and the log of [onUpdate] stay as they are. *)
Theorem transition_superseded (e : Engine) (level : Q) (times : list Q) :
  Idle e \/ Animating e ->
  (state (deliverFrames times (setDimLevelImmediate e level))
   = {| frameId := None;
        currentLevel := clamp level 0 1;
        targetLevel := clamp level 0 1 |}
   /\ updates (deliverFrames times (setDimLevelImmediate e level))
      = (updates e ++ [clamp level 0 1])%list)
  /\ (state (deliverFrames times (cancelAnimation e))
      = {| frameId := None;
           currentLevel := currentLevel (state e);
           targetLevel := targetLevel (state e) |}
      /\ updates (deliverFrames times (cancelAnimation e)) = updates e).
Proof.
  intros Hstate. split.
  - destruct (setDimLevelImmediate_settled e level Hstate) as [Hidle _].
    destruct (deliverFrames_idle times _ Hidle) as (_ & Hst & Hup).
    rewrite Hst, Hup. unfold setDimLevelImmediate. cbv zeta. simpl.
    rewrite cancelAnimation_frameId.
    destruct (cancelAnimation_levels e) as (_ & _ & Hu). now rewrite Hu.
  - pose proof (cancelAnimation_returns_idle e Hstate) as Hidle.
    destruct (deliverFrames_idle times _ Hidle) as (_ & Hst & Hup).
    rewrite Hst, Hup.
    destruct (cancelAnimation_levels e) as (Hc & Ht & Hu).
    pose proof (cancelAnimation_frameId e) as Hf.
    destruct (state (cancelAnimation e)) as [f c g]. simpl in *.
    now subst.
Qed.

(** The theorem on a transition to 0.5 that is cancelled before its first
    frame: the frames at 16 and 500 ms call nothing. *)
Lemma transition_superseded_witness :
  updates (deliverFrames [16; 500]
             (cancelAnimation (animateDimLevel createEngine 0.5 500 0)))
  = updates (animateDimLevel createEngine 0.5 500 0).
Proof.
  apply (transition_superseded (animateDimLevel createEngine 0.5 500 0) 0
           [16; 500]).
  right. eexists. exists 1%nat. split; reflexivity.
Defined.

End EngineMoreFacts.

(** ** More on the control loop *)

Section ControlLoopMoreFacts.
Import Overlay Policy Brightness Patterns Settings Animation Content.

Lemma checkAndDim_off (env : Env) (c : Content) :
  isChecking c = false ->
  enabled (getEffectiveSettings (settings c) (hostname env)) = false ->
  checkAndDim env c
  = if negb (Qeq_bool (lastAppliedDim c) 0)
    then with_lastAppliedDim 0 (setDimLevel env 0 c)
    else c.
Proof.
  intros Hc Hoff. rewrite checkAndDim_unguarded by assumption.
  unfold checkAndDim_body. cbv zeta. now rewrite Hoff.
Qed.

Lemma animateDimLevel_currentLevel (e : Engine) (target d now : Q) :
  currentLevel (state (animateDimLevel e target d now)) = currentLevel (state e)
  /\ updates (animateDimLevel e target d now) = updates e.
Proof.
  unfold animateDimLevel. cbv zeta.
  destruct (Qltb _ 0.05); [now split |]. simpl.
  set (e1 := {| state := _; window := window e; updates := updates e |}).
  destruct (cancelAnimation_levels e1) as (Hc & _ & Hu). now split.
Qed.

(** The target after a request is less than 0.05 away from the clamped
    level requested. *)
Lemma animateDimLevel_target (e : Engine) (target d now : Q) :
  Qabs (targetLevel (state (animateDimLevel e target d now)) - clamp target 0 1)
  < 0.05.
Proof.
  unfold animateDimLevel. cbv zeta.
  destruct (Qltb _ 0.05) eqn:Hnear.
  - q_bool. q_solve.
  - unfold requestAnimationFrame. cbn [state targetLevel].
    set (e1 := {| state := _; window := window e; updates := updates e |}).
    destruct (cancelAnimation_levels e1) as (_ & Ht & _). rewrite Ht.
    unfold e1. cbn [state targetLevel].
    set (x := clamp target 0 1). clearbody x. q_solve.
Qed.

Lemma setDimLevel_currentLevel (env : Env) (level : Q) (c : Content) :
  currentLevel (state (animationState (setDimLevel env level c)))
  = if smoothing (getEffectiveSettings (settings c) (hostname env))
    then currentLevel (state (animationState c))
    else clamp level 0 1.
Proof.
  unfold setDimLevel. cbv zeta. destruct (smoothing _); simpl.
  - apply animateDimLevel_currentLevel.
  - reflexivity.
Qed.

Lemma setDimLevel_target (env : Env) (level : Q) (c : Content) :
  Qabs (targetLevel (state (animationState (setDimLevel env level c)))
        - clamp level 0 1) < 0.05.
Proof.
  unfold setDimLevel. cbv zeta.
  destruct (smoothing _); cbn [animationState with_engine state targetLevel].
  - apply animateDimLevel_target.
  - unfold setDimLevelImmediate. cbv zeta. cbn [state targetLevel].
    set (x := clamp level 0 1). clearbody x. q_solve.
Qed.

(** What a cycle that samples saves. *)
Lemma checkAndDim_saves (env : Env) (c : Content) :
  isChecking c = false ->
  enabled (getEffectiveSettings (settings c) (hostname env)) = true ->
  isBlacklisted (settings c) (hostname env) = false ->
  saves (checkAndDim env c)
  = if Qgeb (Qabs (cycleDimAmount env c - lastAppliedDim c)) DIM_CHANGE_THRESHOLD
    then (saves c
          ++ [(hostname env,
               createSiteState
                 (currentLevel
                    (state (animationState
                              (setDimLevel env (cycleDimAmount env c) c))))
                 (Some (samplePageBrightness (page env) OVERLAY_ID))
                 (dateNow env))])%list
    else saves c.
Proof.
  intros Hc Hen Hbl.
  rewrite checkAndDim_unguarded by assumption.
  unfold checkAndDim_body, cycleDimAmount. cbv zeta. rewrite Hen, Hbl. simpl.
  destruct (Qgeb _ _); simpl; [| reflexivity].
  unfold setDimLevel. simpl.
  now destruct (smoothing _).
Qed.

(** X14. A cycle on a host where the extension is off (by a site override
    with [enabled] false, whatever the global flag, or by the global flag
    where no override says otherwise) does not sample the document, saves
    nothing and ends with no dim applied: it requests the level 0 if a dim
    was applied and does nothing otherwise, whatever the document and the
    lists.  A site override with [enabled] true switches a globally disabled
    extension on for its host: the cycle samples the document unless the host
    is blacklisted. *)
Theorem checkAndDim_disabled (env : Env) (c : Content) :
  isChecking c = false ->
  let h := hostname env in
  let override := siteSettings (settings c) !! h in
  ((override ≫= site_enabled = Some false
    \/ (override ≫= site_enabled = None /\ enabled (settings c) = false)) ->
   lastAppliedDim (checkAndDim env c) == 0
   /\ samplings (checkAndDim env c) = samplings c
   /\ lastBrightness (checkAndDim env c) = lastBrightness c
   /\ smoothedBrightness (checkAndDim env c) = smoothedBrightness c
   /\ saves (checkAndDim env c) = saves c
   /\ (lastAppliedDim c == 0 -> checkAndDim env c = c)
   /\ (~ lastAppliedDim c == 0 ->
       checkAndDim env c = with_lastAppliedDim 0 (setDimLevel env 0 c))
   /\ forall p, checkAndDim (with_page p env) c = checkAndDim env c)
  /\ (override ≫= site_enabled = Some true ->
      isBlacklisted (settings c) h = false ->
      samplings (checkAndDim env c) = S (samplings c)).
Proof.
  intros Hc. cbv zeta. split.
  - intros Hoff.
    assert (Hen : enabled (getEffectiveSettings (settings c) (hostname env))
                  = false).
    { unfold getEffectiveSettings.
      destruct (siteSettings (settings c) !! hostname env) as [o |]; simpl in *.
      - destruct Hoff as [-> | [-> ->]]; reflexivity.
      - destruct Hoff as [Hf | [_ Hg]]; [discriminate | assumption]. }
    assert (Hpage : forall p, checkAndDim (with_page p env) c = checkAndDim env c).
    { intros p. now rewrite !checkAndDim_off by assumption. }
    pose proof (checkAndDim_off env c Hc Hen) as Heq.
    destruct (setDimLevel_fields env 0 c) as (_ & Hlb & Hsb & _ & _ & Hn & Hsv).
    destruct (Qeq_bool (lastAppliedDim c) 0) eqn:Hz; simpl in Heq.
    + apply Qeq_bool_iff in Hz. rewrite Heq.
      split; [assumption |]. do 4 (split; [reflexivity |]).
      split; [reflexivity |].
      split; [now intros Hne | intros p; now rewrite Hpage].
    + rewrite Heq. simpl.
      split; [reflexivity |]. do 4 (split; [assumption |]).
      split; [| split; [reflexivity | intros p; now rewrite Hpage]].
      intros Hzero. apply Qeq_bool_iff in Hzero. congruence.
  - intros Hon Hbl.
    assert (Hen : enabled (getEffectiveSettings (settings c) (hostname env))
                  = true).
    { unfold getEffectiveSettings.
      destruct (siteSettings (settings c) !! hostname env) as [o |]; simpl in *;
        [now rewrite Hon | discriminate]. }
    apply (checkAndDim_sampled env c Hc Hen Hbl).
Qed.

(** The theorem on "example.org" with the default settings (enabled) and a
    site override that switches the site off, when a dim of 0.3 is
    applied. *)
Lemma checkAndDim_disabled_witness :
  samplings
    (checkAndDim (envOf "example.org" "rgb(255, 255, 255)")
       (with_lastAppliedDim 0.3
          (contentWith
             (mergeSiteSettings DEFAULT_SETTINGS "example.org"
                {| site_enabled := Some false; site_dimIntensity := None |}))))
  = 0%nat.
Proof.
  apply (proj1 (checkAndDim_disabled
                  (envOf "example.org" "rgb(255, 255, 255)")
                  (with_lastAppliedDim 0.3
                     (contentWith
                        (mergeSiteSettings DEFAULT_SETTINGS "example.org"
                           {| site_enabled := Some false;
                              site_dimIntensity := None |})))
                  eq_refl)).
  left. vm_compute. reflexivity.
Defined.

(** X15. The threshold of 0.03.  In a cycle that samples, the computed dim
    amount is applied exactly when it differs from the applied dim by at
    least 0.03: then it becomes the applied dim, it is passed to
    [setDimLevel], and one state is saved for the host; otherwise the
    applied dim, the engine and the saved states stay as they are.  Either
    way the applied dim ends less than 0.03 away from the computed
    amount. *)
Theorem checkAndDim_hysteresis (env : Env) (c : Content) :
  isChecking c = false ->
  enabled (getEffectiveSettings (settings c) (hostname env)) = true ->
  isBlacklisted (settings c) (hostname env) = false ->
  let dimAmount := cycleDimAmount env c in
  let c' := checkAndDim env c in
  Qabs (lastAppliedDim c' - dimAmount) < 0.03
  /\ (Qabs (dimAmount - lastAppliedDim c) < 0.03 ->
      lastAppliedDim c' = lastAppliedDim c
      /\ animationState c' = animationState c
      /\ saves c' = saves c)
  /\ (0.03 <= Qabs (dimAmount - lastAppliedDim c) ->
      lastAppliedDim c' = dimAmount
      /\ animationState c' = animationState (setDimLevel env dimAmount c)
      /\ exists saved, saves c' = (saves c ++ [(hostname env, saved)])%list).
Proof.
  intros Hc Hen Hbl. cbv zeta.
  destruct (checkAndDim_sampled env c Hc Hen Hbl)
    as (_ & _ & _ & _ & _ & Hla & Han).
  pose proof (checkAndDim_saves env c Hc Hen Hbl) as Hsv.
  cbv zeta in Hla, Han. fold (cycleDimAmount env c) in Hla, Han.
  unfold DIM_CHANGE_THRESHOLD in *.
  destruct (Qgeb _ 0.03) eqn:Hfar; q_bool.
  - split; [rewrite Hla; q_solve |]. split; [intros Hnear; lra |].
    intros _. split; [assumption |]. split; [assumption |].
    eexists. exact Hsv.
  - split; [rewrite Hla; q_solve |]. split; [now intros _ |].
    intros Hfar'. lra.
Qed.

(** The theorem on the first cycle of the scenario: the amount 0.375 is
    applied. *)
Lemma checkAndDim_hysteresis_witness :
  lastAppliedDim
    (checkAndDim (envOf "example.org" "rgb(181, 251, 246)")
       (contentWith (scenarioSettings true 500)))
  = cycleDimAmount (envOf "example.org" "rgb(181, 251, 246)")
      (contentWith (scenarioSettings true 500)).
Proof.
  apply (checkAndDim_hysteresis
           (envOf "example.org" "rgb(181, 251, 246)")
           (contentWith (scenarioSettings true 500)) eq_refl eq_refl eq_refl).
  vm_compute. discriminate.
Defined.

(** X16. The state a cycle saves.  Its time stamp is [Date.now()], its
    brightness is the raw reading of the cycle (not the smoothed one), and
    its dim level is the engine's current level right after [setDimLevel]:
    with smoothing on, the level the overlay had before the cycle, not the
    amount just applied; with smoothing off, the applied amount clamped to
    [0,1].  A current level of [0,1] before the cycle gives a saved level
    of [0,1]. *)
Theorem checkAndDim_saved_state (env : Env) (c : Content) :
  isChecking c = false ->
  enabled (getEffectiveSettings (settings c) (hostname env)) = true ->
  isBlacklisted (settings c) (hostname env) = false ->
  0.03 <= Qabs (cycleDimAmount env c - lastAppliedDim c) ->
  exists saved,
    saves (checkAndDim env c) = (saves c ++ [(hostname env, saved)])%list
    /\ timestamp saved = dateNow env
    /\ savedBrightness saved = Some (samplePageBrightness (page env) OVERLAY_ID)
    /\ (smoothing (getEffectiveSettings (settings c) (hostname env)) = true ->
        lastDimLevel saved = currentLevel (state (animationState c)))
    /\ (smoothing (getEffectiveSettings (settings c) (hostname env)) = false ->
        lastDimLevel saved = clamp (cycleDimAmount env c) 0 1
        /\ lastDimLevel saved
           = currentLevel (state (animationState (checkAndDim env c))))
    /\ (unit_interval (currentLevel (state (animationState c))) ->
        unit_interval (lastDimLevel saved)).
Proof.
  intros Hc Hen Hbl Hfar.
  pose proof (checkAndDim_saves env c Hc Hen Hbl) as Hsv.
  destruct (checkAndDim_sampled env c Hc Hen Hbl)
    as (_ & _ & _ & _ & _ & _ & Han).
  cbv zeta in Han. fold (cycleDimAmount env c) in Han.
  unfold DIM_CHANGE_THRESHOLD in *.
  apply Qle_bool_iff in Hfar. unfold Qgeb in Hsv, Han. rewrite Hfar in Hsv, Han.
  eexists. split; [exact Hsv |]. simpl.
  split; [reflexivity |]. split; [reflexivity |].
  rewrite Han, setDimLevel_currentLevel.
  destruct (smoothing _).
  - split; [reflexivity |]. split; [discriminate | now intros H].
  - split; [discriminate |]. split; [now split |].
    intros _. apply clamp_unit.
Qed.

(** The theorem on the first cycle of the scenario with smoothing: the
    amount 0.375 is applied, and the level saved is 0. *)
Lemma checkAndDim_saved_state_witness :
  exists saved,
    saves (checkAndDim (envOf "example.org" "rgb(181, 251, 246)")
             (contentWith (scenarioSettings true 500)))
    = [("example.org", saved)]
    /\ lastDimLevel saved = 0.
Proof.
  destruct (checkAndDim_saved_state
              (envOf "example.org" "rgb(181, 251, 246)")
              (contentWith (scenarioSettings true 500)) eq_refl eq_refl eq_refl)
    as (saved & Hsv & _ & _ & Hsmooth & _).
  - vm_compute. discriminate.
  - exists saved. split; [exact Hsv | exact (Hsmooth eq_refl)].
Defined.

Lemma Tracking_fields (c c' : Content) :
  animationState c' = animationState c -> lastAppliedDim c' = lastAppliedDim c ->
  Tracking c -> Tracking c'.
Proof. unfold Tracking. now intros -> ->. Qed.

(** A level passed to [setDimLevel] and recorded as applied is tracked. *)
Lemma setDimLevel_tracking (env : Env) (level : Q) (c : Content) :
  Tracking (with_lastAppliedDim level (setDimLevel env level c)).
Proof. unfold Tracking. apply setDimLevel_target. Qed.

Lemma checkAndDim_tracking (env : Env) (c : Content) :
  Tracking c -> Tracking (checkAndDim env c).
Proof.
  intros Htr. unfold checkAndDim. destruct (isChecking c); [assumption |].
  apply (Tracking_fields (checkAndDim_body env (with_isChecking true c)));
    [reflexivity | reflexivity |].
  assert (Htr0 : Tracking (with_isChecking true c))
    by now apply (Tracking_fields c).
  set (c0 := with_isChecking true c) in *. clearbody c0.
  unfold checkAndDim_body. cbv zeta.
  destruct (negb _ || _).
  - destruct (negb (Qeq_bool _ 0)); [apply setDimLevel_tracking | assumption].
  - set (raw := samplePageBrightness (page env) OVERLAY_ID).
    set (smoothed := smooth (smoothedBrightness c0) raw).
    set (c1 := with_reading raw smoothed c0).
    set (dimAmount := dimAmountFor _ _ _ _).
    destruct (Qgeb _ _).
    + apply (Tracking_fields
               (with_lastAppliedDim dimAmount (setDimLevel env dimAmount c1)));
        [reflexivity | reflexivity | apply setDimLevel_tracking].
    + now apply (Tracking_fields c0).
Qed.

Lemma deliverFrame_target (t : Q) (e : Engine) :
  targetLevel (state (deliverFrame t e)) = targetLevel (state e).
Proof.
  unfold deliverFrame.
  apply (fold_left_invariant
           (fun e' => targetLevel (state e') = targetLevel (state e)));
    [| reflexivity].
  intros e' p _ He'.
  destruct (animate_levels (snd p) t e') as (v & _ & _ & Htgt & _). congruence.
Qed.

(** A cycle that changes the applied dim has passed the new one to
    [setDimLevel]. *)
Lemma checkAndDim_retracks (env : Env) (c : Content) :
  lastAppliedDim (checkAndDim env c) <> lastAppliedDim c ->
  Tracking (checkAndDim env c).
Proof.
  unfold checkAndDim. destruct (isChecking c); [now intros H |].
  change (lastAppliedDim (with_isChecking false ?x)) with (lastAppliedDim x).
  change (lastAppliedDim c) with (lastAppliedDim (with_isChecking true c)).
  intros Hchanged.
  apply (Tracking_fields (checkAndDim_body env (with_isChecking true c)));
    [reflexivity | reflexivity |].
  set (c0 := with_isChecking true c) in *. clearbody c0.
  revert Hchanged. unfold checkAndDim_body. cbv zeta.
  destruct (negb _ || _).
  - destruct (negb (Qeq_bool _ 0)); [intros _; apply setDimLevel_tracking |].
    now intros H.
  - set (raw := samplePageBrightness (page env) OVERLAY_ID).
    set (smoothed := smooth (smoothedBrightness c0) raw).
    set (c1 := with_reading raw smoothed c0).
    set (dimAmount := dimAmountFor _ _ _ _).
    destruct (Qgeb _ _); [intros _ | now intros H].
    apply (Tracking_fields
             (with_lastAppliedDim dimAmount (setDimLevel env dimAmount c1)));
      [reflexivity | reflexivity | apply setDimLevel_tracking].
Qed.

(** X17. The applied dim and the overlay.  The relation: the engine's target
    is less than 0.05 away from the applied dim clamped to [0,1].  It holds
    when the content script is loaded; a run of [checkAndDim], a
    [settingsUpdated] message and a frame each keep it; so it holds in every
    state reached by these three, whatever the settings and the documents:
    an amount the smoothed transition drops as too close to its target is
    recorded as applied all the same, and stays within 0.05 of what the
    overlay shows at rest.  The block of [start] that applies a saved state
    keeps it when the saved level is at most 1.  A [manualDim] message can
    break it: after a request for 0.8 with no dim applied, the target is 0.8
    and the applied dim 0.  From any state, a cycle that changes the applied
    dim establishes it again. *)
Theorem applied_dim_tracks_target :
  (forall s, Tracking (contentWith s))
  /\ (forall c ev, isManual ev = false -> Tracking c -> Tracking (apply_event c ev))
  /\ (forall evs s,
        existsb isManual evs = false -> Tracking (runEvents evs (contentWith s)))
  /\ (forall saved c,
        (forall st, saved = Some st -> lastDimLevel st <= 1) ->
        Tracking c -> Tracking (Startup.restoreSavedState saved c))
  /\ ~ Tracking (manualDim (envOf "example.org" "rgb(0, 0, 0)") 0.8
                   (contentWith (scenarioSettings false 500)))
  /\ (forall env c,
        lastAppliedDim (checkAndDim env c) <> lastAppliedDim c ->
        Tracking (checkAndDim env c)).
Proof.
  assert (Hinit : forall s, Tracking (contentWith s))
    by (intros s; vm_compute; reflexivity).
  assert (Hstep : forall c ev,
            isManual ev = false -> Tracking c -> Tracking (apply_event c ev)).
  { intros c ev Hev Htr. destruct ev as [env | env s | env lv | t];
      [| | discriminate |]; unfold apply_event.
    - now apply checkAndDim_tracking.
    - apply checkAndDim_tracking. now apply (Tracking_fields c).
    - unfold frame, Tracking.
      cbn [animationState with_engine lastAppliedDim].
      now rewrite deliverFrame_target. }
  split; [exact Hinit |]. split; [exact Hstep |].
  split; [| split; [| split; [| exact checkAndDim_retracks]]].
  - intros evs s Hevs. unfold runEvents.
    apply (fold_left_invariant Tracking); [| apply Hinit].
    intros c ev Hin. apply Hstep.
    destruct (isManual ev) eqn:Hm; [| reflexivity].
    rewrite <- Hevs. symmetry. apply existsb_exists. eauto.
  - intros saved c Hlow Htr. unfold Startup.restoreSavedState.
    destruct saved as [st |]; [| assumption].
    destruct (Qgtb (lastDimLevel st) 0) eqn:Hpos; [| assumption].
    q_bool. pose proof (Hlow st eq_refl) as Hle.
    unfold Tracking.
    cbn [animationState with_lastAppliedDim with_engine state targetLevel
           lastAppliedDim].
    assert (Hfix : clamp (lastDimLevel st) 0 1 == lastDimLevel st)
      by (apply clamp_fix; lra).
    set (l := lastDimLevel st) in *. set (k := clamp l 0 1) in *.
    clearbody k l. q_solve.
  - intros Htr. vm_compute in Htr. discriminate.
Qed.

(** The theorem on a page of brightness 0.9 with smoothing: a cycle, a frame,
    a change of settings, and another cycle. *)
Lemma applied_dim_tracks_target_witness :
  Tracking
    (runEvents
       [Cycle (envOf "example.org" "rgb(181, 251, 246)");
        Frame 16;
        SettingsUpdated (envOf "example.org" "rgb(181, 251, 246)")
          DEFAULT_SETTINGS;
        Cycle (envOf "example.org" "rgb(181, 251, 246)")]
       (contentWith (scenarioSettings true 500))).
Proof.
  apply (proj1 (proj2 (proj2 applied_dim_tracks_target))). reflexivity.
Defined.

(** X18. A manual dim is not recorded as the applied dim.  [manualDim]
    leaves the applied dim and the dim amount the next cycle computes as
    they are.  So a cycle that samples leaves the manual level in place as
    long as its computed amount is less than 0.03 away from the applied dim
    of before, however far the manual level is from that amount, and passes
    its amount to [setDimLevel] otherwise; and on a host that is disabled or
    blacklisted a cycle does not take a manual dim back when no dim was
    applied before. *)
Theorem manualDim_not_recorded (env env' : Env) (level : Q) (c : Content) :
  isChecking c = false ->
  let c1 := manualDim env level c in
  lastAppliedDim c1 = lastAppliedDim c
  /\ cycleDimAmount env' c1 = cycleDimAmount env' c
  /\ (enabled (getEffectiveSettings (settings c) (hostname env')) = true ->
      isBlacklisted (settings c) (hostname env') = false ->
      (Qabs (cycleDimAmount env' c - lastAppliedDim c) < 0.03 ->
       animationState (checkAndDim env' c1) = animationState c1)
      /\ (0.03 <= Qabs (cycleDimAmount env' c - lastAppliedDim c) ->
          animationState (checkAndDim env' c1)
          = animationState (setDimLevel env' (cycleDimAmount env' c) c1)))
  /\ (enabled (getEffectiveSettings (settings c) (hostname env')) = false
      \/ isBlacklisted (settings c) (hostname env') = true ->
      lastAppliedDim c == 0 -> checkAndDim env' c1 = c1).
Proof.
  intros Hc. cbv zeta. unfold manualDim.
  destruct (setDimLevel_fields env level c)
    as (Hset & _ & Hsb & Hla & Hic & _ & _).
  assert (Hdim : cycleDimAmount env' (setDimLevel env level c)
                 = cycleDimAmount env' c)
    by (unfold cycleDimAmount; now rewrite Hset, Hsb).
  assert (Hc1 : isChecking (setDimLevel env level c) = false) by congruence.
  split; [assumption |]. split; [assumption |]. split.
  - intros Hen Hbl. rewrite <- Hset in Hen, Hbl.
    destruct (checkAndDim_sampled env' _ Hc1 Hen Hbl)
      as (_ & _ & _ & _ & _ & _ & Han).
    cbv zeta in Han.
    fold (cycleDimAmount env' (setDimLevel env level c)) in Han.
    rewrite Hdim, Hla in Han. unfold DIM_CHANGE_THRESHOLD, Qgeb in Han.
    split; intros H.
    + apply Qle_bool_gt in H. now rewrite H in Han.
    + apply Qle_bool_iff in H. now rewrite H in Han.
  - intros Hoff Hzero. apply Qeq_bool_iff in Hzero.
    rewrite <- Hset in Hoff. rewrite <- Hla in Hzero.
    destruct Hoff as [Hoff | Hbl].
    + rewrite checkAndDim_off by assumption. now rewrite Hzero.
    + rewrite checkAndDim_suppressed by assumption. now rewrite Hzero.
Qed.

(** The theorem on a black page with smoothing off: a manual dim of 0.8 is
    still there after the next cycle, which computes the amount 0. *)
Lemma manualDim_not_recorded_witness :
  animationState
    (checkAndDim (envOf "example.org" "rgb(0, 0, 0)")
       (manualDim (envOf "example.org" "rgb(0, 0, 0)") 0.8
          (contentWith (scenarioSettings false 500))))
  = animationState
      (manualDim (envOf "example.org" "rgb(0, 0, 0)") 0.8
         (contentWith (scenarioSettings false 500))).
Proof.
  apply (manualDim_not_recorded
           (envOf "example.org" "rgb(0, 0, 0)")
           (envOf "example.org" "rgb(0, 0, 0)") 0.8
           (contentWith (scenarioSettings false 500)) eq_refl);
    [reflexivity | reflexivity | vm_compute; reflexivity].
Defined.

Lemma Qpower_succ (a : Q) (n : nat) :
  a ^ Z.of_nat (S n) == a * a ^ Z.of_nat n.
Proof.
  rewrite Nat2Z.inj_succ. unfold Z.succ.
  rewrite Qpower_plus' by lia. rewrite Qpower_1_r. ring.
Qed.

(** X19. Exponential smoothing over successive cycles.  Over any number of
    cycles that sample, starting from a smoothed value [p]: when all the
    readings lie between two bounds that [p] lies between, so does the
    smoothed value at the end; and when all the readings equal [r], the
    smoothed value at the end is away from [r] by [0.7 ^ n] times what [p]
    was away, [n] being the number of cycles. *)
Theorem smoothing_converges (envs : list Env) (c : Content) (p : Q) :
  isChecking c = false ->
  smoothedBrightness c = Some p ->
  (forall env, In env envs ->
     enabled (getEffectiveSettings (settings c) (hostname env)) = true
     /\ isBlacklisted (settings c) (hostname env) = false) ->
  exists s,
    smoothedBrightness (cycles envs c) = Some s
    /\ (forall lo hi,
          lo <= p <= hi ->
          (forall env, In env envs ->
             lo <= samplePageBrightness (page env) OVERLAY_ID <= hi) ->
          lo <= s <= hi)
    /\ (forall r,
          (forall env, In env envs ->
             samplePageBrightness (page env) OVERLAY_ID == r) ->
          s - r == 0.7 ^ Z.of_nat (length envs) * (p - r)).
Proof.
  revert c p. induction envs as [| env envs IH]; intros c p Hc Hsm Hok.
  - exists p. split; [assumption |]. split; [now intros lo hi H _ |].
    intros r _. simpl. ring.
  - destruct (Hok env (or_introl eq_refl)) as [Hen Hbl].
    destruct (checkAndDim_sampled env c Hc Hen Hbl)
      as (Hset & Hc' & _ & Hsm' & _).
    cbv zeta in Hsm'. rewrite Hsm in Hsm'.
    destruct (IH (checkAndDim env c) _ Hc' Hsm') as (s & Hs & Hrange & Hconv).
    { intros env' Hin. rewrite Hset. apply Hok. now right. }
    exists s. split; [exact Hs |]. split.
    + intros lo hi Hp Hreadings. apply Hrange.
      * pose proof (Hreadings env (or_introl eq_refl)) as Hraw.
        rewrite smooth_later. lra.
      * intros env' Hin. apply Hreadings. now right.
    + intros r Hreadings.
      rewrite (Hconv r) by (intros env' Hin; apply Hreadings; now right).
      change (length (env :: envs)) with (S (length envs)).
      rewrite Qpower_succ, smooth_later.
      rewrite (Hreadings env (or_introl eq_refl)). ring.
Qed.

(** The theorem on two cycles on a page of brightness 0.9 after one on a
    black page. *)
Lemma smoothing_converges_witness :
  exists s,
    smoothedBrightness
      (cycles [envOf "example.org" "rgb(181, 251, 246)";
               envOf "example.org" "rgb(181, 251, 246)"]
         (checkAndDim (envOf "example.org" "rgb(0, 0, 0)")
            (contentWith (scenarioSettings true 500))))
    = Some s
    /\ s - 0.9
       == 0.7 ^ 2
          * (samplePageBrightness (rootOnlyPage "rgb(0, 0, 0)") OVERLAY_ID
             - 0.9).
Proof.
  destruct (smoothing_converges
              [envOf "example.org" "rgb(181, 251, 246)";
               envOf "example.org" "rgb(181, 251, 246)"]
              (checkAndDim (envOf "example.org" "rgb(0, 0, 0)")
                 (contentWith (scenarioSettings true 500)))
              (samplePageBrightness (rootOnlyPage "rgb(0, 0, 0)") OVERLAY_ID))
    as (s & Hs & _ & Hconv).
  - reflexivity.
  - vm_compute. reflexivity.
  - intros env _. split; reflexivity.
  - exists s. split; [exact Hs |]. apply Hconv.
    intros env [<- | [<- | []]]; vm_compute; reflexivity.
Defined.

End ControlLoopMoreFacts.

(** ** Start and reload *)

Section StartupFacts.
Import Overlay Policy Brightness Patterns Settings Animation Content.
Import Storage Startup.

Lemma storeAfter_last (saves : list (string * SiteState)) (h : string)
    (saved : SiteState) (store : gmap string SiteState) :
  storeAfter (saves ++ [(h, saved)])%list store !! siteStateKey h = Some saved.
Proof.
  unfold storeAfter. rewrite fold_left_app. simpl. unfold saveSiteState.
  apply lookup_insert_eq.
Qed.

Lemma loadSiteState_fresh (store : gmap string SiteState) (h : string)
    (t : Q) (saved : SiteState) :
  loadSiteState store h t = Some saved ->
  store !! siteStateKey h = Some saved /\ t - timestamp saved < 86400000.
Proof.
  unfold loadSiteState.
  destruct (store !! siteStateKey h) as [s0 |]; [| discriminate].
  destruct (Qltb _ _) eqn:Hlt; [| discriminate].
  intros [= <-]. apply Qltb_lt in Hlt.
  assert (Hage : STATE_MAX_AGE_MS == 86400000) by reflexivity.
  split; [reflexivity | lra].
Qed.

(** What is loaded and not above 0 is not applied. *)
Lemma restoreSavedState_skips (loaded : option SiteState) (c : Content) :
  (forall saved, loaded = Some saved -> lastDimLevel saved <= 0) ->
  restoreSavedState loaded c = c.
Proof.
  intros Hlow. unfold restoreSavedState.
  destruct loaded as [saved |]; [| reflexivity].
  assert (Qgtb (lastDimLevel saved) 0 = false) as ->
    by (apply Qltb_ge; now apply Hlow).
  reflexivity.
Qed.

Lemma setDimLevel_updates (env : Env) (level : Q) (c : Content) :
  exists new,
    updates (animationState (setDimLevel env level c))
    = (updates (animationState c) ++ new)%list.
Proof.
  unfold setDimLevel. cbv zeta.
  destruct (smoothing _); cbn [animationState with_engine].
  - exists []. rewrite app_nil_r. apply animateDimLevel_currentLevel.
  - exists [clamp level 0 1]. unfold setDimLevelImmediate. cbv zeta.
    cbn [updates]. now destruct (cancelAnimation_levels (animationState c))
      as (_ & _ & ->).
Qed.

(** A cycle calls [onUpdate] or not, and takes no call back. *)
Lemma checkAndDim_updates (env : Env) (c : Content) :
  exists new,
    updates (animationState (checkAndDim env c))
    = (updates (animationState c) ++ new)%list.
Proof.
  assert (Hnone : exists new,
            updates (animationState c) = (updates (animationState c) ++ new)%list)
    by (exists []; now rewrite app_nil_r).
  unfold checkAndDim. destruct (isChecking c); [assumption |].
  change (animationState (with_isChecking false ?x)) with (animationState x).
  change (animationState c) with (animationState (with_isChecking true c)).
  set (c0 := with_isChecking true c). clearbody c0. clear Hnone.
  assert (Hnone : exists new,
            updates (animationState c0)
            = (updates (animationState c0) ++ new)%list)
    by (exists []; now rewrite app_nil_r).
  unfold checkAndDim_body. cbv zeta.
  destruct (negb _ || _).
  - destruct (negb (Qeq_bool _ 0)); [| assumption].
    apply (setDimLevel_updates env 0 c0).
  - destruct (Qgeb _ _); [| assumption].
    cbn [animationState with_save with_lastAppliedDim].
    match goal with
    | |- context [setDimLevel env ?d ?c1] =>
        destruct (setDimLevel_updates env d c1) as (new & Hnew)
    end.
    exists new. exact Hnew.
Qed.

(** X20. What [start] restores.  A saved state that is absent, 24 hours old
    or older, or without a level above 0 is not applied: [start] goes on as a
    [settingsUpdated] message does.  A state for the host that is less than
    24 hours old with a level above 0 is applied before the first check: the
    level becomes the current level, the target and the applied dim as it is
    stored, without clamping, and it is the first value passed to the
    overlay; and when the first check samples and computes an amount less
    than 0.03 away from it, the restored level stays. *)
Theorem start_restores (env : Env) (loaded : Settings)
    (store : gmap string SiteState) (loadTime : Q) (c : Content) :
  isChecking c = false ->
  let h := hostname env in
  ((forall saved,
      store !! siteStateKey h = Some saved ->
      86400000 <= loadTime - timestamp saved \/ lastDimLevel saved <= 0) ->
   start env loaded store loadTime c = settingsUpdated env loaded c)
  /\ (forall saved,
        store !! siteStateKey h = Some saved ->
        loadTime - timestamp saved < 86400000 -> 0 < lastDimLevel saved ->
        let restored := restoreSavedState (Some saved) (with_settings loaded c) in
        start env loaded store loadTime c = checkAndDim env restored
        /\ currentLevel (state (animationState restored)) = lastDimLevel saved
        /\ targetLevel (state (animationState restored)) = lastDimLevel saved
        /\ lastAppliedDim restored = lastDimLevel saved
        /\ samplings restored = samplings c
        /\ (exists rest,
              updates (animationState (start env loaded store loadTime c))
              = (updates (animationState c) ++ lastDimLevel saved :: rest)%list)
        /\ (enabled (getEffectiveSettings loaded h) = true ->
            isBlacklisted loaded h = false ->
            Qabs (cycleDimAmount env (with_settings loaded c)
                  - lastDimLevel saved) < 0.03 ->
            lastAppliedDim (start env loaded store loadTime c)
            = lastDimLevel saved
            /\ animationState (start env loaded store loadTime c)
               = animationState restored)).
Proof.
  intros Hc. cbv zeta. split.
  - intros Hnone. unfold start, settingsUpdated. cbv zeta.
    rewrite restoreSavedState_skips; [reflexivity |].
    intros saved Hload. apply loadSiteState_fresh in Hload as [Hkey Hfresh].
    destruct (Hnone saved Hkey) as [Hold | Hlow]; [lra | assumption].
  - intros saved Hkey Hfresh Hpos.
    assert (Hload : loadSiteState store (hostname env) loadTime = Some saved).
    { unfold loadSiteState. rewrite Hkey.
      assert (Hage : STATE_MAX_AGE_MS == 86400000) by reflexivity.
      assert (Qltb (loadTime - timestamp saved) STATE_MAX_AGE_MS = true) as ->
        by (apply Qltb_lt; lra).
      reflexivity. }
    assert (Hstart : start env loaded store loadTime c
                     = checkAndDim env
                         (restoreSavedState (Some saved) (with_settings loaded c)))
      by (unfold start; cbv zeta; now rewrite Hload).
    rewrite Hstart. unfold restoreSavedState.
    assert (Qgtb (lastDimLevel saved) 0 = true) as -> by now apply Qltb_lt.
    set (restored := with_lastAppliedDim _ _).
    do 5 (split; [reflexivity |]). split.
    + destruct (checkAndDim_updates env restored) as (new & Hnew).
      exists new. rewrite Hnew. unfold restored.
      cbn [animationState with_lastAppliedDim with_engine updates with_settings].
      now rewrite <- app_assoc.
    + intros Hen Hbl Hnear.
      destruct (checkAndDim_sampled env restored Hc Hen Hbl)
        as (_ & _ & _ & _ & _ & Hla & Han).
      cbv zeta in Hla, Han.
      change (dimAmountFor (settings restored)
                (getEffectiveSettings (settings restored) (hostname env))
                (hostname env)
                (smooth (smoothedBrightness restored)
                   (samplePageBrightness (page env) OVERLAY_ID)))
        with (cycleDimAmount env (with_settings loaded c)) in Hla, Han.
      change (lastAppliedDim restored) with (lastDimLevel saved) in Hla, Han.
      unfold DIM_CHANGE_THRESHOLD, Qgeb in Hla, Han.
      apply Qle_bool_gt in Hnear. rewrite Hnear in Hla, Han. now split.
Qed.

(** The theorem on a state with the level 0.3 saved for "example.org" at
    time 1000 and read one hour later, on a black page. *)
Lemma start_restores_witness :
  exists rest,
    updates
      (animationState
         (start (envOf "example.org" "rgb(0, 0, 0)") DEFAULT_SETTINGS
            (saveSiteState ∅ "example.org"
               (createSiteState 0.3 (Some 0.9) 1000))
            3601000 initialContent))
    = 0.3 :: rest.
Proof.
  destruct (proj2 (start_restores
                     (envOf "example.org" "rgb(0, 0, 0)") DEFAULT_SETTINGS
                     (saveSiteState ∅ "example.org"
                        (createSiteState 0.3 (Some 0.9) 1000))
                     3601000 initialContent eq_refl)
              (createSiteState 0.3 (Some 0.9) 1000))
    as (_ & _ & _ & _ & _ & Hfirst & _).
  - apply lookup_insert_eq.
  - reflexivity.
  - reflexivity.
  - exact Hfirst.
Defined.

(** X21. What a reload finds after a smoothed cycle.  With smoothing on, the
    state that a cycle saves when it applies its amount holds the level the
    overlay had before the cycle.  So whatever is loaded for the host from
    the store after that cycle has that level and not the amount applied;
    and when that level was not above 0, as on a new page, a [start] on the
    same host applies no saved state. *)
Theorem reload_after_smoothed_cycle (env : Env) (c : Content)
    (store : gmap string SiteState) (loadTime : Q) :
  isChecking c = false ->
  enabled (getEffectiveSettings (settings c) (hostname env)) = true ->
  isBlacklisted (settings c) (hostname env) = false ->
  smoothing (getEffectiveSettings (settings c) (hostname env)) = true ->
  0.03 <= Qabs (cycleDimAmount env c - lastAppliedDim c) ->
  let store' := storeAfter (saves (checkAndDim env c)) store in
  lastAppliedDim (checkAndDim env c) = cycleDimAmount env c
  /\ (forall saved,
        loadSiteState store' (hostname env) loadTime = Some saved ->
        lastDimLevel saved = currentLevel (state (animationState c)))
  /\ (currentLevel (state (animationState c)) <= 0 ->
      forall env' loaded c0,
        hostname env' = hostname env ->
        start env' loaded store' loadTime c0 = settingsUpdated env' loaded c0).
Proof.
  intros Hc Hen Hbl Hsm Hfar. cbv zeta.
  pose proof (checkAndDim_saves env c Hc Hen Hbl) as Hsv.
  destruct (checkAndDim_sampled env c Hc Hen Hbl)
    as (_ & _ & _ & _ & _ & Hla & _).
  cbv zeta in Hla. fold (cycleDimAmount env c) in Hla.
  unfold DIM_CHANGE_THRESHOLD, Qgeb in Hsv, Hla.
  apply Qle_bool_iff in Hfar. rewrite Hfar in Hsv, Hla.
  rewrite setDimLevel_currentLevel, Hsm in Hsv.
  assert (Hloaded : forall saved,
            loadSiteState (storeAfter (saves (checkAndDim env c)) store)
              (hostname env) loadTime = Some saved ->
            lastDimLevel saved = currentLevel (state (animationState c))).
  { intros saved Hload. apply loadSiteState_fresh in Hload as [Hkey _].
    rewrite Hsv, storeAfter_last in Hkey. now injection Hkey as <-. }
  split; [assumption |]. split; [exact Hloaded |].
  intros Hzero env' loaded c0 Hhost. unfold start, settingsUpdated. cbv zeta.
  rewrite restoreSavedState_skips; [reflexivity |].
  intros saved Hload. rewrite Hhost in Hload.
  now rewrite (Hloaded saved Hload).
Qed.

(** The theorem on the first cycle of the scenario with smoothing, which
    applies 0.375: a reload of "example.org" one second later applies no
    saved state. *)
Lemma reload_after_smoothed_cycle_witness :
  start (envOf "example.org" "rgb(181, 251, 246)") (scenarioSettings true 500)
    (storeAfter
       (saves (checkAndDim (envOf "example.org" "rgb(181, 251, 246)")
                 (contentWith (scenarioSettings true 500))))
       ∅)
    1000 initialContent
  = settingsUpdated (envOf "example.org" "rgb(181, 251, 246)")
      (scenarioSettings true 500) initialContent.
Proof.
  apply (reload_after_smoothed_cycle
           (envOf "example.org" "rgb(181, 251, 246)")
           (contentWith (scenarioSettings true 500)) ∅ 1000).
  - reflexivity.
  - reflexivity.
  - reflexivity.
  - reflexivity.
  - vm_compute. discriminate.
  - vm_compute. discriminate.
  - reflexivity.
Defined.

End StartupFacts.

(** ** More on the lists *)

Section PatternMoreFacts.
Import Patterns Settings.

(** X22. How far an entry of a list reaches.  [matchesPattern] is
    symmetric in the host name and the pattern.  So a non-empty entry added
    to the blacklist (whitelist) lists every non-empty host name it occurs
    in and every non-empty host name that occurs in it: an entry for a
    subdomain lists the parent domain too.  A host listed by a list is listed
    by every list that has the same entries. *)
Theorem matchesPattern_symmetric :
  (forall h p, matchesPattern h p = matchesPattern p h)
  /\ (forall s h entry,
        h <> "" -> entry <> "" -> contains h entry \/ contains entry h ->
        isBlacklisted (addToBlacklist s entry) h = true
        /\ isWhitelisted (addToWhitelist s entry) h = true)
  /\ (forall h ps qs,
        (forall p, In p ps -> In p qs) ->
        matchesAnyPattern h ps = true -> matchesAnyPattern h qs = true).
Proof.
  split; [| split].
  - intros h p. unfold matchesPattern.
    rewrite (orb_comm (String.eqb h "")), (orb_comm (includes h p)).
    reflexivity.
  - intros s h entry Hh He Hsub.
    assert (Hm : matchesPattern h entry = true)
      by now apply matchesPattern_nonempty.
    destruct (addToList_membership_lists s entry) as (Hb & Hw & _).
    split; [apply (matchesAnyPattern_In h entry) | apply (matchesAnyPattern_In h entry)];
      assumption.
  - intros h ps qs Hsub Hm. unfold matchesAnyPattern in *.
    apply existsb_exists in Hm as (p & Hin & Hp).
    apply existsb_exists. eauto.
Qed.

(** The theorem on an entry for a subdomain: the parent domain is
    blacklisted. *)
Lemma matchesPattern_symmetric_witness :
  isBlacklisted (addToBlacklist DEFAULT_SETTINGS "mail.example.com")
    "example.com"
  = true.
Proof.
  apply (proj1 (proj2 matchesPattern_symmetric) DEFAULT_SETTINGS
           "example.com" "mail.example.com");
    [discriminate | discriminate |].
  right. exists "mail.", "". reflexivity.
Defined.

End PatternMoreFacts.

(** ** The levels of the content script *)

Section ContentLevelFacts.
Import Overlay Policy Brightness Patterns Settings Animation Content.

(** No requested frame belongs to a transition of duration 0: [animate]
    never divides by 0. *)
Lemma cancelAnimation_nonzero (e : Engine) :
  Forall (fun p => ~ duration (snd p) == 0) (rafCallbacks (window e)) ->
  Forall (fun p => ~ duration (snd p) == 0)
    (rafCallbacks (window (cancelAnimation e))).
Proof.
  unfold cancelAnimation.
  destruct (frameId (state e)); [| easy]. simpl. apply filter_Forall.
Qed.

Lemma animate_nonzero (cb : Closure) (t : Q) (e : Engine) :
  ~ duration cb == 0 ->
  Forall (fun p => ~ duration (snd p) == 0) (rafCallbacks (window e)) ->
  Forall (fun p => ~ duration (snd p) == 0)
    (rafCallbacks (window (animate cb t e))).
Proof.
  unfold animate. cbv zeta. intros Hcb He.
  destruct (Qltb _ 1); cbn [window rafCallbacks requestAnimationFrame];
    [| assumption].
  apply Forall_app. split; [assumption |].
  constructor; [assumption | constructor].
Qed.

Lemma animateDimLevel_sound (e : Engine) (target d now : Q) :
  ~ d == 0 ->
  levelsInRange e ->
  Forall (fun p => ~ duration (snd p) == 0) (rafCallbacks (window e)) ->
  levelsInRange (animateDimLevel e target d now)
  /\ Forall (fun p => ~ duration (snd p) == 0)
       (rafCallbacks (window (animateDimLevel e target d now))).
Proof.
  intros Hd (Hc & Ht & Hu) Hq. unfold animateDimLevel. cbv zeta.
  destruct (Qltb _ 0.05);
    [split; [split; [assumption | split; assumption] | assumption] |].
  set (e1 := {| state := _; window := window e; updates := updates e |}).
  pose proof (cancelAnimation_levels e1) as (Hc1 & Ht1 & Hu1).
  pose proof (cancelAnimation_nonzero e1 Hq) as Hq1.
  unfold requestAnimationFrame. cbv zeta.
  unfold levelsInRange. cbn [state window updates currentLevel targetLevel
                               rafCallbacks].
  rewrite Hc1, Ht1, Hu1. unfold e1. cbn [state updates currentLevel targetLevel].
  split; [split; [assumption | split; [apply clamp_unit | assumption]] |].
  apply Forall_app. split; [assumption |].
  constructor; [assumption | constructor].
Qed.

Lemma setDimLevelImmediate_sound (e : Engine) (level : Q) :
  Forall unit_interval (updates e) ->
  Forall (fun p => ~ duration (snd p) == 0) (rafCallbacks (window e)) ->
  levelsInRange (setDimLevelImmediate e level)
  /\ Forall (fun p => ~ duration (snd p) == 0)
       (rafCallbacks (window (setDimLevelImmediate e level))).
Proof.
  intros Hu Hq. unfold setDimLevelImmediate, levelsInRange. cbv zeta.
  cbn [state window updates currentLevel targetLevel].
  pose proof (cancelAnimation_levels e) as (_ & _ & Hu1). rewrite Hu1.
  split; [| now apply cancelAnimation_nonzero].
  split; [apply clamp_unit |]. split; [apply clamp_unit |].
  apply Forall_app. split; [assumption |].
  constructor; [apply clamp_unit | constructor].
Qed.

Lemma deliverFrame_sound (t : Q) (e : Engine) :
  levelsInRange e ->
  Forall (fun p => ~ duration (snd p) == 0) (rafCallbacks (window e)) ->
  levelsInRange (deliverFrame t e)
  /\ Forall (fun p => ~ duration (snd p) == 0)
       (rafCallbacks (window (deliverFrame t e))).
Proof.
  intros Hl Hq. unfold deliverFrame.
  apply (fold_left_invariant
           (fun e' =>
              levelsInRange e'
              /\ Forall (fun p => ~ duration (snd p) == 0)
                   (rafCallbacks (window e')))).
  - intros e' p Hin [(Hc & Ht & Hu) Hq'].
    destruct (animate_levels (snd p) t e') as (v & Hv & Hcur & Htgt & Hupd).
    rewrite List.Forall_forall in Hq.
    split; [| apply animate_nonzero; [now apply Hq | assumption]].
    unfold levelsInRange. rewrite Hcur, Htgt, Hupd.
    split; [assumption |]. split; [assumption |].
    apply Forall_app. split; [assumption |].
    constructor; [assumption | constructor].
  - split; [exact Hl | constructor].
Qed.

(** The engine of the content script is sound: its levels and the levels
    passed to the overlay lie in [0,1] and no requested frame belongs to a
    transition of duration 0. *)
Lemma setDimLevel_sound (env : Env) (level : Q) (c : Content) :
  levelsInRange (animationState c)
  /\ Forall (fun p => ~ duration (snd p) == 0)
       (rafCallbacks (window (animationState c))) ->
  levelsInRange (animationState (setDimLevel env level c))
  /\ Forall (fun p => ~ duration (snd p) == 0)
       (rafCallbacks (window (animationState (setDimLevel env level c)))).
Proof.
  intros [Hl Hq]. unfold setDimLevel. cbv zeta.
  destruct (smoothing _); cbn [animationState with_engine].
  - apply animateDimLevel_sound; try assumption.
    destruct (Qeq_bool (smoothingDuration _) 0) eqn:Hz.
    + unfold DEFAULT_TRANSITION_DURATION. intros H. vm_compute in H.
      discriminate.
    + now apply Qeq_bool_neq.
  - apply setDimLevelImmediate_sound; [apply Hl | assumption].
Qed.

Lemma checkAndDim_sound (env : Env) (c : Content) :
  levelsInRange (animationState c)
  /\ Forall (fun p => ~ duration (snd p) == 0)
       (rafCallbacks (window (animationState c))) ->
  levelsInRange (animationState (checkAndDim env c))
  /\ Forall (fun p => ~ duration (snd p) == 0)
       (rafCallbacks (window (animationState (checkAndDim env c)))).
Proof.
  intros Hinv. unfold checkAndDim. destruct (isChecking c); [assumption |].
  change (animationState (with_isChecking false ?x)) with (animationState x).
  change (animationState c) with (animationState (with_isChecking true c))
    in Hinv.
  set (c0 := with_isChecking true c) in *. clearbody c0.
  unfold checkAndDim_body. cbv zeta.
  destruct (negb _ || _).
  - destruct (negb (Qeq_bool _ 0)); [| assumption].
    apply (setDimLevel_sound env 0 c0 Hinv).
  - destruct (Qgeb _ _); [| assumption].
    cbn [animationState with_save with_lastAppliedDim].
    match goal with
    | |- context [setDimLevel env ?d ?c1] => apply (setDimLevel_sound env d c1)
    end.
    assumption.
Qed.

(** X23. The levels of the content script.  From its initial state, through
    every sequence of cycles, [settingsUpdated] and [manualDim] messages and
    frames, whatever the settings, the documents and the levels requested:
    the engine's current and target level and every level passed to the
    overlay lie in [0,1], and no requested frame belongs to a transition of
    duration 0 (a [smoothingDuration] of 0 is replaced by 500), so that
    [animate] never divides by 0. *)
Theorem content_levels_in_range (evs : list Event) (s : Settings) :
  let e := animationState (runEvents evs (contentWith s)) in
  unit_interval (currentLevel (state e))
  /\ unit_interval (targetLevel (state e))
  /\ Forall unit_interval (updates e)
  /\ Forall (fun p => ~ duration (snd p) == 0) (rafCallbacks (window e)).
Proof.
  cbv zeta.
  assert (Hinv : levelsInRange (animationState (runEvents evs (contentWith s)))
                 /\ Forall (fun p => ~ duration (snd p) == 0)
                      (rafCallbacks
                         (window (animationState (runEvents evs (contentWith s)))))).
  { unfold runEvents.
    apply (fold_left_invariant
             (fun c =>
                levelsInRange (animationState c)
                /\ Forall (fun p => ~ duration (snd p) == 0)
                     (rafCallbacks (window (animationState c))))).
    - intros c ev _ Hc. destruct ev as [env | env s' | env lv | t];
        unfold apply_event.
      + now apply checkAndDim_sound.
      + unfold settingsUpdated. now apply checkAndDim_sound.
      + unfold manualDim. now apply setDimLevel_sound.
      + unfold frame. cbn [animationState with_engine].
        now apply deliverFrame_sound.
    - split; [| constructor].
      unfold levelsInRange, unit_interval. simpl.
      repeat split; try lra. constructor. }
  destruct Hinv as [(Hc & Ht & Hu) Hq]. auto.
Qed.

End ContentLevelFacts.

(** ** From the lists to the overlay *)

Section ListToOverlayFacts.
Import Overlay Policy Brightness Patterns Settings Animation Content.

Lemma addToBlacklist_smoothing (s : Settings) (h h' : string) :
  smoothing (getEffectiveSettings (addToBlacklist s h) h') = smoothing s.
Proof.
  destruct (getEffectiveSettings_fields (addToBlacklist s h) h')
    as (_ & _ & -> & _).
  unfold addToBlacklist. now destruct (listIncludes _ _).
Qed.

(** X24. Blacklisting the host of the page.  Once the settings with the
    page's (non-empty) host name added to the blacklist arrive by a
    [settingsUpdated] message, the check that follows does not sample the
    document and saves nothing, and it ends with no dim applied.  If a dim
    was applied: with smoothing off, the overlay is set to 0 at once, by one
    call; with smoothing on, the engine's target ends less than 0.05 away
    from 0, without a call.  If no dim was applied, the engine is left as it
    is. *)
Theorem blacklisting_removes_dim (env : Env) (s : Settings) (c : Content) :
  isChecking c = false -> hostname env <> "" ->
  let c' := settingsUpdated env (addToBlacklist s (hostname env)) c in
  lastAppliedDim c' == 0
  /\ samplings c' = samplings c
  /\ saves c' = saves c
  /\ (lastAppliedDim c == 0 -> animationState c' = animationState c)
  /\ (~ lastAppliedDim c == 0 -> smoothing s = false ->
      currentLevel (state (animationState c')) == 0
      /\ targetLevel (state (animationState c')) == 0
      /\ updates (animationState c')
         = (updates (animationState c) ++ [clamp 0 0 1])%list)
  /\ (~ lastAppliedDim c == 0 -> smoothing s = true ->
      Qabs (targetLevel (state (animationState c'))) < 0.05
      /\ updates (animationState c') = updates (animationState c)).
Proof.
  intros Hc Hhost. cbv zeta. unfold settingsUpdated.
  set (s' := addToBlacklist s (hostname env)).
  assert (Hbl : isBlacklisted s' (hostname env) = true).
  { destruct (addToList_membership_lists s (hostname env)) as (Hin & _).
    unfold isBlacklisted.
    apply (matchesAnyPattern_In _ _ _ Hin). now apply matchesPattern_refl. }
  rewrite (checkAndDim_suppressed env (with_settings s' c) Hc Hbl).
  cbn [lastAppliedDim with_settings].
  destruct (Qeq_bool (lastAppliedDim c) 0) eqn:Hz; cbn [negb].
  - apply Qeq_bool_iff in Hz.
    split; [assumption |]. do 3 (split; [reflexivity |]).
    split; intros Hnz; contradiction.
  - apply Qeq_bool_neq in Hz.
    destruct (setDimLevel_fields env 0 (with_settings s' c))
      as (_ & _ & _ & _ & _ & Hn & Hsv).
    split; [reflexivity |]. split; [exact Hn |]. split; [exact Hsv |].
    split; [intros Hzero; contradiction |].
    cbn [animationState with_lastAppliedDim].
    unfold setDimLevel. cbv zeta. cbn [settings with_settings].
    unfold s'. rewrite addToBlacklist_smoothing.
    split; intros _ Hsm; rewrite Hsm; cbn [animationState with_engine].
    + unfold setDimLevelImmediate. cbv zeta.
      cbn [state currentLevel targetLevel updates animationState with_settings].
      destruct (cancelAnimation_levels (animationState c)) as (_ & _ & ->).
      split; [vm_compute; reflexivity |].
      split; [vm_compute; reflexivity | reflexivity].
    + split; [| apply animateDimLevel_currentLevel].
      match goal with
      | |- context [animateDimLevel ?e 0 ?d ?n] =>
          pose proof (animateDimLevel_target e 0 d n) as Htgt
      end.
      assert (Hzero : clamp 0 0 1 == 0) by (vm_compute; reflexivity).
      set (g := targetLevel _) in *. set (z := clamp 0 0 1) in *.
      clearbody g z. q_solve.
Qed.

(** The theorem on "example.org" with smoothing off, when a dim of 0.3 is
    applied. *)
Lemma blacklisting_removes_dim_witness :
  samplings
    (settingsUpdated (envOf "example.org" "rgb(255, 255, 255)")
       (addToBlacklist (scenarioSettings false 500) "example.org")
       (with_lastAppliedDim 0.3 (contentWith (scenarioSettings false 500))))
  = 0%nat.
Proof.
  apply (blacklisting_removes_dim
           (envOf "example.org" "rgb(255, 255, 255)")
           (scenarioSettings false 500)
           (with_lastAppliedDim 0.3 (contentWith (scenarioSettings false 500)))
           eq_refl).
  discriminate.
Defined.

End ListToOverlayFacts.
